(** * Resume screener: the scoring and matching pipeline

    A shallow embedding of the scoring core of the resume screener
    ([backend/services/matching.py], [backend/services/embedding.py],
    [backend/services/scoring.py], [backend/config.py]) and of the text
    functions of its parser ([backend/services/parser.py]), with the
    properties of them that the specification states and further
    properties read off the code: ranges, monotonicity, exceptions,
    invariants of the embedding store, the order of a batch.

    Conventions of the embedding.
    - A Python [float] is a real number ([R]): arithmetic is exact, so the
      statements are about the formulas of the code, not about binary64
      rounding.  A Python [int] is a [Z], a length is a [nat].
    - A Python [str] is a [string]; [str.lower] and the classes of the
      regular expressions are the ASCII ones.
    - A dict read with [.get(key, default)] is a record of [option] fields:
      [None] is the absent key.
    - A call that can raise returns an [option]: [None] is the exception.
    - The libraries the services call (rapidfuzz, scikit-learn, the sentence
      encoder, md5) are variables of the sections; FAISS's flat ID-mapped
      index is modelled by the list of its entries. *)

From Stdlib Require Import Reals Lra Lia ZArith String Ascii List Bool.
From stdpp Require Import gmap strings pretty sorting.
Import ListNotations.

Local Open Scope string_scope.

(** ** Python built-ins *)

Module Py.

(** Comparisons of floats, as booleans. *)
Definition Rgeb (x y : R) : bool := if Rge_dec x y then true else false.
Definition Rleb (x y : R) : bool := if Rle_dec x y then true else false.
Definition Rgtb (x y : R) : bool := if Rgt_dec x y then true else false.
Definition Rltb (x y : R) : bool := if Rlt_dec x y then true else false.
Definition Reqb (x y : R) : bool := if Req_dec_T x y then true else false.

(** [c.lower()] on one ASCII character. *)
Definition lower_ascii (c : ascii) : ascii :=
  let n := nat_of_ascii c in
  if ((65 <=? n) && (n <=? 90))%nat then ascii_of_nat (n + 32) else c.

(** [s.lower()]. *)
Fixpoint lower (s : string) : string :=
  match s with
  | EmptyString => EmptyString
  | String c s' => String (lower_ascii c) (lower s')
  end.

(** [needle in hay] on strings: [needle] occurs as a substring. *)
Fixpoint str_in (needle hay : string) : bool :=
  if String.prefix needle hay then true
  else match hay with
       | EmptyString => false
       | String _ hay' => str_in needle hay'
       end.

(** [sep.join(l)]. *)
Definition join (sep : string) (l : list string) : string :=
  String.concat sep l.

(** Truth value of a list: [if l:]. *)
Definition truthy {A} (l : list A) : bool :=
  match l with [] => false | _ :: _ => true end.

(** [len(a) / len(b)], the true division of two lengths. *)
Definition ratio_len {A B} (a : list A) (b : list B) : R :=
  (INR (length a) / INR (length b))%R.

(** [l.sort(key=key, reverse=True)] on float keys: the largest key first;
    the sort is stable, elements of one key keep the order they had. *)
Fixpoint insert_desc {A} (key : A -> R) (x : A) (l : list A) : list A :=
  match l with
  | [] => [x]
  | y :: l' => if Rgtb (key y) (key x) then y :: insert_desc key x l' else x :: l
  end.

Definition sort_desc {A} (key : A -> R) (l : list A) : list A :=
  fold_right (insert_desc key) [] l.

End Py.

(** ** The records the services read *)

(** An entry of a resume's [education] list: the parser produces dicts
    with a [degree] and a [context]; any other value is skipped by
    [_match_education]. *)
Inductive EduEntry : Type :=
| EduDict (degree context : option string)
| EduOther.

Record Resume : Type := mkResume {
  resume_id : option string;
  resume_skills : option (list string);
  resume_education : option (list EduEntry);
  resume_certifications : option (list string);
  resume_raw_text : option string;
  resume_processed_text : option string;
  resume_embeddings : option (list R)
}.

Record Job : Type := mkJob {
  job_id : option string;
  job_required_skills : option (list string);
  job_optional_skills : option (list string);
  job_min_experience : option Z;
  job_max_experience : option Z;
  job_education_requirements : option (list string);
  job_certifications_required : option (list string);
  job_raw_text : option string;
  job_processed_text : option string;
  job_embeddings : option (list R)
}.

(** The result dict of [calculate_hard_match]. *)
Record HardMatch : Type := mkHardMatch {
  skills_match : R;
  education_match : R;
  experience_match : R;
  certification_match : R;
  matched_skills : list string;
  missing_skills : list string;
  matched_certifications : list string;
  missing_certifications : list string;
  details_resume_experience : Z;
  details_required_experience : string;
  overall_hard_match : R
}.

(** The result dict of [calculate_soft_match]. *)
Record SoftMatch : Type := mkSoftMatch {
  tfidf_similarity : R;
  embedding_similarity : R;
  keyword_density : R;
  overall_soft_match : R
}.

(** ** Regular expressions, as [re] runs them

    A backtracking matcher with the priorities of Python's [re]: the left
    alternative first, a greedy star, one capturing group.  [re.IGNORECASE]
    is in the character tests of a pattern.  The star's loop is bounded by
    the length of the input: every iteration must consume a character. *)

Module Re.

Inductive regex : Type :=
| Eps
| Chr (p : ascii -> bool)
| Seq (r1 r2 : regex)
| Alt (r1 r2 : regex)
| Star (r : regex)
| Group (r : regex).

Definition Plus (r : regex) : regex := Seq r (Star r).
Definition Opt (r : regex) : regex := Alt r Eps.

Definition is_digit (c : ascii) : bool :=
  let n := nat_of_ascii c in ((48 <=? n) && (n <=? 57))%nat.

(** [\s] on a [str]: the ASCII characters for which [str.isspace] holds,
    that is space, tab to carriage return, and the four separators. *)
Definition is_space (c : ascii) : bool :=
  let n := nat_of_ascii c in
  ((n =? 32) || ((9 <=? n) && (n <=? 13)) || ((28 <=? n) && (n <=? 31)))%nat.

(** [\w]: letters, digits and the underscore. *)
Definition is_word (c : ascii) : bool :=
  let n := nat_of_ascii c in
  (((48 <=? n) && (n <=? 57)) || ((65 <=? n) && (n <=? 90))
   || ((97 <=? n) && (n <=? 122)) || (n =? 95))%nat.

(** One literal character under [re.IGNORECASE]. *)
Definition chr_ci (x : ascii) : regex :=
  Chr (fun c => Ascii.eqb (Py.lower_ascii c) (Py.lower_ascii x)).

(** A literal word under [re.IGNORECASE]. *)
Fixpoint lit_ci (s : string) : regex :=
  match s with
  | EmptyString => Eps
  | String c s' => Seq (chr_ci c) (lit_ci s')
  end.

Fixpoint run {A : Type} (r : regex) (s : list ascii) (cap : option (list ascii))
         (k : list ascii -> option (list ascii) -> option A) : option A :=
  match r with
  | Eps => k s cap
  | Chr p =>
      match s with
      | c :: s' => if p c then k s' cap else None
      | [] => None
      end
  | Seq r1 r2 => run r1 s cap (fun s' cap' => run r2 s' cap' k)
  | Alt r1 r2 =>
      match run r1 s cap k with
      | Some x => Some x
      | None => run r2 s cap k
      end
  | Star r' =>
      (fix loop (n : nat) (s : list ascii) (cap : option (list ascii)) : option A :=
         match n with
         | O => k s cap
         | S n' =>
             match run r' s cap
                     (fun s' cap' =>
                        if (length s' <? length s)%nat then loop n' s' cap' else None) with
             | Some x => Some x
             | None => k s cap
             end
         end) (length s) s cap
  | Group r' =>
      run r' s cap (fun s' _ => k s' (Some (firstn (length s - length s') s)))
  end.

(** [re.search(r, s)]: the leftmost match; the result is [group(1)]. *)
Fixpoint search_from (r : regex) (s : list ascii) : option (option (list ascii)) :=
  match run r s None (fun _ cap => Some cap) with
  | Some cap => Some cap
  | None =>
      match s with
      | [] => None
      | _ :: s' => search_from r s'
      end
  end.

Definition search (r : regex) (s : string) : option (option (list ascii)) :=
  search_from r (list_ascii_of_string s).

(** [re.findall(r'20\d{2}', s)]: the matches from left to right, without
    overlap. *)
Fixpoint findall_20dd (s : list ascii) : list (list ascii) :=
  match s with
  | [] => []
  | c0 :: tl =>
      match tl with
      | c1 :: d1 :: d2 :: rest =>
          if Ascii.eqb c0 "2" && Ascii.eqb c1 "0" && is_digit d1 && is_digit d2
          then [c0; c1; d1; d2] :: findall_20dd rest
          else findall_20dd tl
      | _ => findall_20dd tl
      end
  end.

(** The expressions that match runs of decimal digits only, and the ones
    whose capturing groups hold such an expression. *)
Inductive digits_only : regex -> Prop :=
| digits_eps : digits_only Eps
| digits_chr p : (forall c, p c = true -> is_digit c = true) -> digits_only (Chr p)
| digits_seq r1 r2 : digits_only r1 -> digits_only r2 -> digits_only (Seq r1 r2)
| digits_alt r1 r2 : digits_only r1 -> digits_only r2 -> digits_only (Alt r1 r2)
| digits_star r : digits_only r -> digits_only (Star r).

Inductive captures_digits : regex -> Prop :=
| captures_eps : captures_digits Eps
| captures_chr p : captures_digits (Chr p)
| captures_seq r1 r2 :
    captures_digits r1 -> captures_digits r2 -> captures_digits (Seq r1 r2)
| captures_alt r1 r2 :
    captures_digits r1 -> captures_digits r2 -> captures_digits (Alt r1 r2)
| captures_star r : captures_digits r -> captures_digits (Star r)
| captures_group r : digits_only r -> captures_digits (Group r).

(** The expressions no string without a decimal digit matches. *)
Inductive needs_digit : regex -> Prop :=
| needs_chr p : (forall c, p c = true -> is_digit c = true) -> needs_digit (Chr p)
| needs_seq_l r1 r2 : needs_digit r1 -> needs_digit (Seq r1 r2)
| needs_seq_r r1 r2 : needs_digit r2 -> needs_digit (Seq r1 r2)
| needs_alt r1 r2 : needs_digit r1 -> needs_digit r2 -> needs_digit (Alt r1 r2)
| needs_group r : needs_digit r -> needs_digit (Group r).

(** A string without a decimal digit. *)
Definition digit_free (s : list ascii) : Prop :=
  Forall (fun c => is_digit c = false) s.

(** A capture that is absent or made of decimal digits. *)
Definition digit_capture (cap : option (list ascii)) : Prop :=
  match cap with
  | Some ds => Forall (fun c => is_digit c = true) ds
  | None => True
  end.

(** [int(ds)] on a run of decimal digits. *)
Definition int_of_digits (ds : list ascii) : Z :=
  fold_left (fun acc c => (10 * acc + (Z.of_nat (nat_of_ascii c) - 48))%Z) ds 0%Z.

End Re.

(** ** [backend/services/matching.py] *)

Module Matching.

(** The three patterns of [_extract_experience_years]. *)
Definition plus_or_space (c : ascii) : bool := Ascii.eqb c "+" || Re.is_space c.
Definition colon_or_space (c : ascii) : bool := Ascii.eqb c ":" || Re.is_space c.

(** [(\d+)[\+\s]*years?\s+(?:of\s+)?experience] *)
Definition pattern_years_experience : Re.regex :=
  Re.Seq (Re.Group (Re.Plus (Re.Chr Re.is_digit)))
    (Re.Seq (Re.Star (Re.Chr plus_or_space))
       (Re.Seq (Re.lit_ci "year")
          (Re.Seq (Re.Opt (Re.chr_ci "s"))
             (Re.Seq (Re.Plus (Re.Chr Re.is_space))
                (Re.Seq (Re.Opt (Re.Seq (Re.lit_ci "of") (Re.Plus (Re.Chr Re.is_space))))
                   (Re.lit_ci "experience")))))).

(** [experience[:\s]+(\d+)[\+\s]*years?] *)
Definition pattern_experience_years : Re.regex :=
  Re.Seq (Re.lit_ci "experience")
    (Re.Seq (Re.Plus (Re.Chr colon_or_space))
       (Re.Seq (Re.Group (Re.Plus (Re.Chr Re.is_digit)))
          (Re.Seq (Re.Star (Re.Chr plus_or_space))
             (Re.Seq (Re.lit_ci "year") (Re.Opt (Re.chr_ci "s")))))).

(** [(\d+)[\+\s]*years?\s+working] *)
Definition pattern_years_working : Re.regex :=
  Re.Seq (Re.Group (Re.Plus (Re.Chr Re.is_digit)))
    (Re.Seq (Re.Star (Re.Chr plus_or_space))
       (Re.Seq (Re.lit_ci "year")
          (Re.Seq (Re.Opt (Re.chr_ci "s"))
             (Re.Seq (Re.Plus (Re.Chr Re.is_space)) (Re.lit_ci "working"))))).

Definition patterns : list Re.regex :=
  [pattern_years_experience; pattern_experience_years; pattern_years_working].

(** The loop over the patterns: the first pattern that matches decides. *)
Fixpoint first_pattern_match (ps : list Re.regex) (text : string) : option Z :=
  match ps with
  | [] => None
  | p :: ps' =>
      match Re.search p text with
      | Some cap => Some (Re.int_of_digits (default [] cap))
      | None => first_pattern_match ps' text
      end
  end.

(** [sorted(l)] on integers. *)
Definition sorted (l : list Z) : list Z := merge_sort Z.le l.

Definition _extract_experience_years (text : string) : Z :=
  match first_pattern_match patterns text with
  | Some n => n
  | None =>
      let year_mentions := Re.findall_20dd (list_ascii_of_string text) in
      if (2 <=? length year_mentions)%nat then
        let years := sorted (map Re.int_of_digits year_mentions) in
        (List.last years 0 - List.hd 0 years)%Z
      else 0%Z
  end.

(** [_match_education]: the degrees and contexts of the dict entries,
    lowercased and joined by spaces, are searched for each requirement. *)
Fixpoint resume_degrees (resume_education : list EduEntry) : list string :=
  match resume_education with
  | [] => []
  | EduDict degree context :: rest =>
      Py.lower (default "" degree) :: Py.lower (default "" context) :: resume_degrees rest
  | EduOther :: rest => resume_degrees rest
  end.

Definition education_hits (resume_text : string) (job_requirements : list string)
  : list string :=
  List.filter (fun requirement => Py.str_in (Py.lower requirement) resume_text)
              job_requirements.

Definition _match_education (resume_education : list EduEntry)
           (job_requirements : list string) : R :=
  if Py.truthy job_requirements then
    let resume_text := Py.join " " (resume_degrees resume_education) in
    let matches := length (education_hits resume_text job_requirements) in
    (INR matches / INR (length job_requirements))%R
  else 1%R.

(** [_extract_keywords]. *)
Definition stop_words : list string :=
  ["the"; "is"; "at"; "which"; "on"; "and"; "a"; "an"; "as"; "are";
   "was"; "were"; "be"; "been"; "being"; "have"; "has"; "had"; "do";
   "does"; "did"; "will"; "would"; "could"; "should"; "may"; "might"].

(** [text.split()]: the maximal runs of characters that are not white space. *)
Fixpoint split_ws (cur : list ascii) (s : list ascii) : list (list ascii) :=
  match s with
  | [] => match cur with [] => [] | _ => [rev cur] end
  | c :: s' =>
      if Re.is_space c
      then match cur with [] => split_ws [] s' | _ => rev cur :: split_ws [] s' end
      else split_ws (c :: cur) s'
  end.

(** [re.sub(r'[^\w\s]', '', word)]. *)
Definition strip_punct (w : list ascii) : list ascii :=
  List.filter (fun c => Re.is_word c || Re.is_space c) w.

(** [list(dict.fromkeys(l))]: the first occurrence of every element. *)
Fixpoint dedup_first (seen : list string) (l : list string) : list string :=
  match l with
  | [] => []
  | x :: l' =>
      if bool_decide (x ∈ seen) then dedup_first seen l'
      else x :: dedup_first (x :: seen) l'
  end.

Definition _extract_keywords (text : string) (top_n : nat) : list string :=
  let words := split_ws [] (list_ascii_of_string (Py.lower text)) in
  let cleaned := map (fun w => string_of_list_ascii (strip_punct w)) words in
  let keywords :=
    filter (fun w => (3 < String.length w)%nat ∧ w ∉ stop_words) cleaned in
  firstn top_n (dedup_first [] keywords).

(** Dot product and Euclidean norm of [numpy].  [np.dot] raises on
    vectors of different lengths. *)
Fixpoint dot_aux (v1 v2 : list R) : R :=
  match v1, v2 with
  | x :: v1', y :: v2' => (x * y + dot_aux v1' v2')%R
  | _, _ => 0%R
  end.

Definition np_dot (v1 v2 : list R) : option R :=
  if (length v1 =? length v2)%nat then Some (dot_aux v1 v2) else None.

Definition np_norm (v : list R) : R := sqrt (dot_aux v v).

Section Scorers.

(** The two similarity scores of rapidfuzz, in percent, and the cosine of
    the two TF-IDF vectors scikit-learn builds from a pair of documents;
    [None] is the exception the vectorizer raises (an empty vocabulary,
    for one). *)
Variable fuzz_ratio : string -> string -> R.
Variable fuzz_partial_ratio : string -> string -> R.
Variable tfidf_cosine : string -> string -> option R.

Fixpoint _fuzzy_skill_match (skill : string) (resume_skills : list string)
         (threshold : R) : bool :=
  match resume_skills with
  | [] => false
  | resume_skill :: rest =>
      if Py.Rgeb (fuzz_ratio skill resume_skill) threshold then true
      else if Py.Rgeb (fuzz_partial_ratio skill resume_skill) threshold then true
      else _fuzzy_skill_match skill rest threshold
  end.

(** The skills of a list that match (the ones the loop appends to
    [matched_required]) and the ones that do not ([missing_required]). *)
Definition matched_of (skills have : list string) (threshold : R) : list string :=
  List.filter (fun skill => _fuzzy_skill_match skill have threshold) skills.

Definition missing_of (skills have : list string) (threshold : R) : list string :=
  List.filter (fun skill => negb (_fuzzy_skill_match skill have threshold)) skills.

(** The score of a skill list: the matched fraction of [full], all of
    [full] when the list is empty. *)
Definition coverage_score (matched skills : list string) (full : R) : R :=
  if Py.truthy skills then (Py.ratio_len matched skills * full)%R else full.

Definition experience_score (resume_exp min_exp max_exp : Z) : R :=
  if (resume_exp >=? min_exp)%Z then
    if (resume_exp <=? max_exp)%Z then 100%R else 80%R
  else
    if (min_exp >? 0)%Z then (IZR resume_exp / IZR min_exp * 100)%R else 100%R.

Definition calculate_hard_match (resume : Resume) (job_desc : Job) : HardMatch :=
  (* 1. skills *)
  let resume_skills := map Py.lower (default [] (resume_skills resume)) in
  let required_skills := map Py.lower (default [] (job_required_skills job_desc)) in
  let optional_skills := map Py.lower (default [] (job_optional_skills job_desc)) in
  let matched_required := matched_of required_skills resume_skills 80 in
  let missing_required := missing_of required_skills resume_skills 80 in
  let matched_optional := matched_of optional_skills resume_skills 80 in
  let required_score := coverage_score matched_required required_skills 70 in
  let optional_score := coverage_score matched_optional optional_skills 30 in
  let skills := (required_score + optional_score)%R in
  (* 2. experience *)
  let min_exp := default 0%Z (job_min_experience job_desc) in
  let max_exp :=
    default (if (min_exp >=? 0)%Z then (min_exp + 10)%Z else 10%Z)
            (job_max_experience job_desc) in
  let resume_exp := _extract_experience_years (default "" (resume_raw_text resume)) in
  let experience := experience_score resume_exp min_exp max_exp in
  (* 3. education *)
  let job_education := default [] (job_education_requirements job_desc) in
  let resume_education := default [] (resume_education resume) in
  let education :=
    if Py.truthy job_education && Py.truthy resume_education
    then (_match_education resume_education job_education * 100)%R
    else 100%R in
  (* 4. certifications *)
  let resume_certs := map Py.lower (default [] (resume_certifications resume)) in
  let required_certs := map Py.lower (default [] (job_certifications_required job_desc)) in
  let matched_certs := matched_of required_certs resume_certs 70 in
  let missing_certs := missing_of required_certs resume_certs 70 in
  let certification := coverage_score matched_certs required_certs 100 in
  (* 5. overall *)
  {| skills_match := skills;
     education_match := education;
     experience_match := experience;
     certification_match := certification;
     matched_skills := matched_required ++ matched_optional;
     missing_skills := missing_required;
     matched_certifications := matched_certs;
     missing_certifications := missing_certs;
     details_resume_experience := resume_exp;
     details_required_experience := pretty min_exp +:+ "-" +:+ pretty max_exp +:+ " years";
     overall_hard_match :=
       (skills * 0.5 + experience * 0.3 + education * 0.15 + certification * 0.05)%R |}.

(** [_cosine_similarity]: the dot product is taken first, so vectors of
    different lengths raise. *)
Definition _cosine_similarity (vec1 vec2 : list R) : option R :=
  dot_product ← np_dot vec1 vec2;
  let norm1 := np_norm vec1 in
  let norm2 := np_norm vec2 in
  if Py.Reqb norm1 0 || Py.Reqb norm2 0 then Some 0%R
  else Some (dot_product / (norm1 * norm2))%R.

Definition calculate_soft_match (resume_text job_text : string)
           (resume_embedding job_embedding : option (list R)) : option SoftMatch :=
  let tfidf :=
    match tfidf_cosine resume_text job_text with
    | Some similarity => (similarity * 100)%R
    | None => 0%R
    end in
  embedding ←
    match resume_embedding, job_embedding with
    | Some e1, Some e2 =>
        embedding_sim ← _cosine_similarity e1 e2; Some (embedding_sim * 100)%R
    | _, _ => Some 0%R
    end;
  let job_keywords := _extract_keywords job_text 20 in
  let keyword_matches :=
    List.filter (fun keyword => Py.str_in keyword (Py.lower resume_text)) job_keywords in
  let density :=
    if Py.truthy job_keywords
    then (Py.ratio_len keyword_matches job_keywords * 100)%R else 0%R in
  Some {| tfidf_similarity := tfidf;
          embedding_similarity := embedding;
          keyword_density := density;
          overall_soft_match := (tfidf * 0.3 + embedding * 0.5 + density * 0.2)%R |}.

End Scorers.

End Matching.

(** ** [backend/services/embedding.py] *)

Module Embedding.

(** FAISS's [IndexIDMap] over [IndexFlatIP]: the vectors in insertion order,
    each with the 64-bit id it was added under.  The index has a fixed
    dimension [index_d]; [add_with_ids] raises on a vector of another
    dimension and accepts an id that is already present. *)
Record FaissIndex : Type := mkIndex {
  index_d : nat;
  index_entries : list (Z * list R)
}.

Definition ntotal (index : FaissIndex) : nat := length (index_entries index).

Definition add_with_ids (index : FaissIndex) (vec : list R) (id : Z) : option FaissIndex :=
  if (length vec =? index_d index)%nat
  then Some {| index_d := index_d index;
               index_entries := index_entries index ++ [(id, vec)] |}
  else None.

(** An entry of a metadata map: [{'resume_id': ..., 'metadata': ...}]. *)
Record MetaEntry : Type := mkMeta {
  meta_record_id : string;
  meta_metadata : gmap string string
}.

(** The service object: the two live indexes, the two metadata dicts, and
    the four files as a store whose writes succeed leaves them.  A write
    that fails is not modelled ([_save_index] logs it and goes on,
    [_save_meta] raises once the dict and the index are updated): the
    statements about the stores speak of the live indexes and dicts. *)
Record Service : Type := mkService {
  resume_index : FaissIndex;
  job_index : FaissIndex;
  resume_meta : gmap string MetaEntry;
  job_meta : gmap string MetaEntry;
  resume_meta_file : option (gmap string MetaEntry);
  job_meta_file : option (gmap string MetaEntry);
  resume_index_file : option FaissIndex;
  job_index_file : option FaissIndex
}.

Section Service.

(** The sentence encoder and its dimension, and [_str_to_id]'s digest: the
    first 15 hexadecimal digits of the MD5 of the string, as an integer. *)
Variable encode : string -> list R.
Variable dim : nat.
Variable md5_hex15 : string -> Z.

Definition _str_to_id (s : string) : Z := md5_hex15 s.

(** [__init__]: an index file that is absent or unreadable gives an empty
    index of the encoder's dimension, a metadata file that is absent or
    unreadable gives an empty dict; [None] is such a file. *)
Definition load (resume_index_file job_index_file : option FaissIndex)
           (resume_meta_file job_meta_file : option (gmap string MetaEntry)) : Service :=
  {| resume_index := default (mkIndex dim []) resume_index_file;
     job_index := default (mkIndex dim []) job_index_file;
     resume_meta := default ∅ resume_meta_file;
     job_meta := default ∅ job_meta_file;
     resume_meta_file := resume_meta_file;
     job_meta_file := job_meta_file;
     resume_index_file := resume_index_file;
     job_index_file := job_index_file |}.

(** A service whose index files and metadata files do not exist. *)
Definition fresh : Service := load None None None None.

Definition generate_embeddings (text : string) : list R :=
  if String.eqb text "" then repeat 0%R dim else encode text.

Definition calculate_similarity (embedding1 embedding2 : list R) : option R :=
  let v1 := embedding1 in
  let v2 := embedding2 in
  if Py.Reqb (Matching.np_norm v1) 0 || Py.Reqb (Matching.np_norm v2) 0
  then Some 0%R
  else
    d ← Matching.np_dot v1 v2;
    let cosine := (d / (Matching.np_norm v1 * Matching.np_norm v2))%R in
    Some (cosine * 100)%R.

(** [_rebuild_index_from_meta]: its body is [pass]. *)
Definition _rebuild_index_from_meta (index : FaissIndex)
           (meta : gmap string MetaEntry) : FaissIndex := index.

(** The [try]/[except] around [add_with_ids]: on an exception the index is
    "rebuilt" and the insertion tried once more; the second exception
    escapes. *)
Definition add_or_rebuild (index : FaissIndex) (meta : gmap string MetaEntry)
           (embedding : list R) (id_int : Z) : option FaissIndex :=
  match add_with_ids index embedding id_int with
  | Some index' => Some index'
  | None =>
      let index' := _rebuild_index_from_meta index meta in
      add_with_ids index' embedding id_int
  end.

Definition store_resume_embedding (self : Service) (resume_id text : string)
           (metadata : option (gmap string string)) : Service * option (list R) :=
  let embedding := generate_embeddings text in
  let id_int := _str_to_id resume_id in
  match add_or_rebuild (resume_index self) (resume_meta self) embedding id_int with
  | None => (self, None)
  | Some index' =>
      let meta' :=
        <[pretty id_int := mkMeta resume_id (default ∅ metadata)]> (resume_meta self) in
      ({| resume_index := index';
          job_index := job_index self;
          resume_meta := meta';
          job_meta := job_meta self;
          resume_meta_file := Some meta';
          job_meta_file := job_meta_file self;
          resume_index_file := Some index';
          job_index_file := job_index_file self |},
       Some embedding)
  end.

Definition store_job_embedding (self : Service) (job_id text : string)
           (metadata : option (gmap string string)) : Service * option (list R) :=
  let embedding := generate_embeddings text in
  let id_int := _str_to_id job_id in
  match add_or_rebuild (job_index self) (job_meta self) embedding id_int with
  | None => (self, None)
  | Some index' =>
      let meta' :=
        <[pretty id_int := mkMeta job_id (default ∅ metadata)]> (job_meta self) in
      ({| resume_index := resume_index self;
          job_index := index';
          resume_meta := resume_meta self;
          job_meta := meta';
          resume_meta_file := resume_meta_file self;
          job_meta_file := Some meta';
          resume_index_file := resume_index_file self;
          job_index_file := Some index' |},
       Some embedding)
  end.

(** FAISS's [search] on the ID-mapped flat inner-product index: the [k]
    entries of the largest inner product with the query, the largest first,
    each with its id; the slots that are left when the index holds fewer
    than [k] vectors carry the id -1 ([None] here).  Entries of one score
    are taken in insertion order.  A query of another dimension than the
    index, or a [k] that is not positive, raises. *)
Definition inner_products (index : FaissIndex) (q : list R) : list (R * Z) :=
  map (fun e => (Matching.dot_aux q (snd e), fst e)) (index_entries index).

Definition search (index : FaissIndex) (q : list R) (k : nat)
  : option (list (option (R * Z))) :=
  if (length q =? index_d index)%nat && (0 <? k)%nat then
    let hits := firstn k (Py.sort_desc fst (inner_products index q)) in
    Some (map Some hits ++ repeat None (k - length hits))%list
  else None.

(** An entry of the result of [find_similar_resumes]. *)
Record Similar : Type := mkSimilar {
  similar_resume_id : option string;
  similarity_score : R;
  similar_metadata : gmap string string
}.

(** The loop over [zip(distances[0], ids[0])]: a slot of id -1 is skipped,
    an id without a metadata entry gives no [resume_id] and no metadata. *)
Definition similar_of (meta : gmap string MetaEntry) (hit : option (R * Z))
  : option Similar :=
  match hit with
  | None => None
  | Some (distance, id_val) =>
      if (id_val =? -1)%Z then None
      else
        let entry := meta !! pretty id_val in
        Some {| similar_resume_id := meta_record_id <$> entry;
                similarity_score := (distance * 100)%R;
                similar_metadata := default ∅ (meta_metadata <$> entry) |}
  end.

(** [find_similar_resumes]: the query is a vector, or a text that is
    embedded first; a search that raises gives the empty list. *)
Definition find_similar_resumes (self : Service) (job_embedding : string + list R)
           (top_k : nat) : list Similar :=
  if (size (resume_meta self) =? 0)%nat then []
  else
    let q := match job_embedding with
             | inl text => generate_embeddings text
             | inr vector => vector
             end in
    match search (resume_index self) q top_k with
    | None => []
    | Some slots => omap (similar_of (resume_meta self)) slots
    end.

(** A store operation, and a run of them from a state of the service. *)
Inductive StoreOp : Type :=
| StoreResume (resume_id text : string) (metadata : option (gmap string string))
| StoreJob (job_id text : string) (metadata : option (gmap string string)).

(** The resume identifiers, and the job identifiers, a run stores. *)
Definition stored_resume_ids (ops : list StoreOp) : list string :=
  omap (fun op => match op with StoreResume id _ _ => Some id | StoreJob _ _ _ => None end)
       ops.

Definition stored_job_ids (ops : list StoreOp) : list string :=
  omap (fun op => match op with StoreJob id _ _ => Some id | StoreResume _ _ _ => None end)
       ops.

Definition apply_op (self : Service) (op : StoreOp) : Service :=
  match op with
  | StoreResume id text md => fst (store_resume_embedding self id text md)
  | StoreJob id text md => fst (store_job_embedding self id text md)
  end.

Definition run_ops (self : Service) (ops : list StoreOp) : Service :=
  fold_left apply_op ops self.

End Service.

(** No metadata dict has more entries than its index has vectors. *)
Definition meta_within_index (self : Service) : Prop :=
  (size (resume_meta self) <= ntotal (resume_index self))%nat
  /\ (size (job_meta self) <= ntotal (job_index self))%nat.

(** A metadata dict and an index that describe the same records: every
    vector of the index has, under the decimal of its id, a metadata entry
    whose identifier has that id as its digest; and every metadata entry
    sits under the decimal of the digest of its identifier and has a
    vector in the index. *)
Definition meta_matches_index (md5_hex15 : string -> Z) (index : FaissIndex)
           (meta : gmap string MetaEntry) : Prop :=
  (forall id vec,
      In (id, vec) (index_entries index) ->
      exists entry,
        meta !! pretty id = Some entry
        /\ _str_to_id md5_hex15 (meta_record_id entry) = id)
  /\ (forall key entry,
         meta !! key = Some entry ->
         key = pretty (_str_to_id md5_hex15 (meta_record_id entry))
         /\ exists vec,
             In (_str_to_id md5_hex15 (meta_record_id entry), vec) (index_entries index)).

End Embedding.

(** ** [backend/config.py] *)

Record Config : Type := mkConfig {
  HARD_MATCH_WEIGHT : R;
  SOFT_MATCH_WEIGHT : R;
  HIGH_THRESHOLD : R;
  MEDIUM_THRESHOLD : R
}.

(** The values when the environment sets none of the four variables. *)
Definition default_config : Config :=
  {| HARD_MATCH_WEIGHT := 0.4;
     SOFT_MATCH_WEIGHT := 0.6;
     HIGH_THRESHOLD := 75.0;
     MEDIUM_THRESHOLD := 50.0 |}.

(** ** [backend/services/scoring.py] *)

Module Scoring.

Inductive Verdict : Type := HIGH | MEDIUM | LOW.

Record Feedback : Type := mkFeedback {
  strengths : list string;
  improvements : list string;
  suggestions : list string
}.

Record Evaluation : Type := mkEvaluation {
  eval_resume_id : string;
  eval_job_id : string;
  relevance_score : R;
  hard_match_score : R;
  soft_match_score : R;
  analysis_matched_skills : list string;
  analysis_missing_skills : list string;
  analysis_experience_details : Z * string;
  verdict : Verdict;
  feedback : Feedback
}.

(** The integer nearest to [y], a tie going to the even one. *)
Definition round_half_even (y : R) : Z :=
  let n := Int_part y in
  let f := (y - IZR n)%R in
  if Rlt_dec f (1 / 2) then n
  else if Rgt_dec f (1 / 2) then (n + 1)%Z
  else if Z.even n then n else (n + 1)%Z.

(** [round(x, 2)]. *)
Definition round2 (x : R) : R := (IZR (round_half_even (x * 100)) / 100)%R.

(** The two [if]s under the comment [# clamp]. *)
Definition clamp (relevance_score : R) : R :=
  let relevance_score :=
    if Py.Rgtb relevance_score 100 then 100.0%R else relevance_score in
  if Py.Rltb relevance_score 0 then 0.0%R else relevance_score.

(** The three-way test under [# 5. Determine verdict]. *)
Definition verdict_of (cfg : Config) (relevance_score : R) : Verdict :=
  if Py.Rgeb relevance_score (HIGH_THRESHOLD cfg) then HIGH
  else if Py.Rgeb relevance_score (MEDIUM_THRESHOLD cfg) then MEDIUM
  else LOW.

(** The order of the verdicts, from the lowest. *)
Definition verdict_rank (v : Verdict) : nat :=
  match v with LOW => 0 | MEDIUM => 1 | HIGH => 2 end.

Definition generate_feedback (matched missing : list string) : Feedback :=
  {| strengths :=
       if Py.truthy matched
       then ["Matched skills: " +:+ Py.join ", " (firstn 6 matched)] else [];
     improvements :=
       if Py.truthy missing
       then ["Missing key skills: " +:+ Py.join ", " (firstn 6 missing)] else [];
     suggestions :=
       if Py.truthy missing
       then ["Consider projects or a micro-course to demonstrate these skills."]
       else [] |}.

Section Engine.

Variable fuzz_ratio : string -> string -> R.
Variable fuzz_partial_ratio : string -> string -> R.
Variable encode : string -> list R.
Variable dim : nat.
Variable cfg : Config.

(** [d.get('embeddings') or generate_embeddings(d.get('processed_text', ''))]:
    an absent and an empty list both give the generated embedding. *)
Definition embedding_or_generate (embeddings : option (list R))
           (processed_text : option string) : list R :=
  match embeddings with
  | Some (x :: e) => x :: e
  | _ => Embedding.generate_embeddings encode dim (default "" processed_text)
  end.

(** The sum under [# 3. Combine using weights], before the clamp. *)
Definition combine (hard_score soft_score : R) : R :=
  (hard_score * HARD_MATCH_WEIGHT cfg + soft_score * SOFT_MATCH_WEIGHT cfg)%R.

Definition evaluate_resume (resume : Resume) (job_desc : Job) : option Evaluation :=
  let hard_match_results :=
    Matching.calculate_hard_match fuzz_ratio fuzz_partial_ratio resume job_desc in
  let resume_embedding :=
    embedding_or_generate (resume_embeddings resume) (resume_processed_text resume) in
  let job_embedding :=
    embedding_or_generate (job_embeddings job_desc) (job_processed_text job_desc) in
  soft_score ← Embedding.calculate_similarity resume_embedding job_embedding;
  let hard_score := overall_hard_match hard_match_results in
  let relevance_score := clamp (combine hard_score soft_score) in
  Some {| eval_resume_id := default "" (resume_id resume);
          eval_job_id := default "" (job_id job_desc);
          relevance_score := round2 relevance_score;
          hard_match_score := round2 hard_score;
          soft_match_score := round2 soft_score;
          analysis_matched_skills := matched_skills hard_match_results;
          analysis_missing_skills := missing_skills hard_match_results;
          analysis_experience_details :=
            (details_resume_experience hard_match_results,
             details_required_experience hard_match_results);
          verdict := verdict_of cfg relevance_score;
          feedback := generate_feedback (matched_skills hard_match_results)
                                        (missing_skills hard_match_results) |}.

(** The clamped score of an evaluation before [round]: the value of the
    local variable [relevance_score] when the verdict is chosen. *)
Definition clamped_relevance (resume : Resume) (job_desc : Job) : option R :=
  let hard_match_results :=
    Matching.calculate_hard_match fuzz_ratio fuzz_partial_ratio resume job_desc in
  soft_score ←
    Embedding.calculate_similarity
      (embedding_or_generate (resume_embeddings resume) (resume_processed_text resume))
      (embedding_or_generate (job_embeddings job_desc) (job_processed_text job_desc));
  Some (clamp (combine (overall_hard_match hard_match_results) soft_score)).

(** [batch_evaluate]: an evaluation that raises ends the loop; the
    evaluations are then sorted by [relevance_score], the largest first. *)
Definition batch_evaluate (resumes : list Resume) (job_desc : Job)
  : option (list Evaluation) :=
  evaluations ← mapM (fun resume => evaluate_resume resume job_desc) resumes;
  Some (Py.sort_desc relevance_score evaluations).

End Engine.

End Scoring.

(** ** [backend/services/parser.py] *)

Module Parser.

(** The class [a-zA-Z0-9]. *)
Definition is_alnum (c : ascii) : bool :=
  let n := nat_of_ascii c in
  (((48 <=? n) && (n <=? 57)) || ((65 <=? n) && (n <=? 90))
   || ((97 <=? n) && (n <=? 122)))%nat.

(** [re.sub(r'[^a-zA-Z0-9\s]', ' ', text)]. *)
Definition blank_punct (text : list ascii) : list ascii :=
  map (fun c => if is_alnum c || Re.is_space c then c else " "%char) text.

(** [preprocess_text]: lowercase, punctuation to spaces, white space
    collapsed to single spaces. *)
Definition preprocess_text (text : string) : string :=
  let text := Py.lower text in
  let text := blank_punct (list_ascii_of_string text) in
  Py.join " " (map string_of_list_ascii (Matching.split_ws [] text)).

(** The characters of a preprocessed word: digits and lowercase letters;
    and such a word, which is not empty. *)
Definition is_lower_alnum (c : ascii) : bool :=
  let n := nat_of_ascii c in
  (((48 <=? n) && (n <=? 57)) || ((97 <=? n) && (n <=? 122)))%nat.

Definition clean_word (w : list ascii) : Prop :=
  w <> [] /\ Forall (fun c => is_lower_alnum c = true) w.

(** The characters of [' '.join(words)]. *)
Fixpoint spaced (words : list (list ascii)) : list ascii :=
  match words with
  | [] => []
  | [w] => w
  | w :: words' => w ++ " "%char :: spaced words'
  end.

(** The skills [extract_skills] looks for in every text. *)
Definition tech_skills : list string :=
  ["Python"; "Java"; "JavaScript"; "C++"; "C#"; "SQL"; "NoSQL";
   "React"; "Angular"; "Vue"; "Node.js"; "Django"; "Flask"; "FastAPI";
   "MongoDB"; "PostgreSQL"; "MySQL"; "Redis"; "Docker"; "Kubernetes";
   "AWS"; "Azure"; "GCP"; "Machine Learning"; "Deep Learning";
   "NLP"; "Computer Vision"; "TensorFlow"; "PyTorch"; "Scikit-learn";
   "Git"; "CI/CD"; "Agile"; "Scrum"; "REST API"; "GraphQL"].

Definition is_newline (c : ascii) : bool := Ascii.eqb c "010"%char.
Definition not_newline (c : ascii) : bool := negb (is_newline c).

(** [[^\n]+(?:\n[^\n]+)*]: the lines up to the first empty one. *)
Definition lines_block : Re.regex :=
  Re.Seq (Re.Plus (Re.Chr not_newline))
         (Re.Star (Re.Seq (Re.Chr is_newline) (Re.Plus (Re.Chr not_newline)))).

(** An alternation [t1|t2|...], the first alternative first. *)
Fixpoint one_of (titles : list Re.regex) : Re.regex :=
  match titles with
  | [] => Re.Chr (fun _ => false)
  | [t] => t
  | t :: titles' => Re.Alt t (one_of titles')
  end.

(** [(?i)(t1|t2|...)[:\s]*(lines)], with the expression above for
    [lines]: a title, colons and white space, and the lines that follow.
    The callers read the second group only, the lines; it is the group of
    the expression here. *)
Definition section (titles : list Re.regex) : Re.regex :=
  Re.Seq (one_of titles)
         (Re.Seq (Re.Star (Re.Chr Matching.colon_or_space)) (Re.Group lines_block)).

(** [m = re.search(section, text)] and [m.group(2)]. *)
Definition section_text (titles : list Re.regex) (text : string) : option (list ascii) :=
  match Re.search (section titles) text with
  | Some cap => Some (default [] cap)
  | None => None
  end.

(** [re.split] on the class of [,], [;], [|] and the newline (its bullet
    is no ASCII character): the pieces between the separators, the empty
    ones included. *)
Definition is_item_sep (c : ascii) : bool :=
  Ascii.eqb c ","%char || Ascii.eqb c ";"%char || Ascii.eqb c "|"%char || is_newline c.

Fixpoint split_on (sep : ascii -> bool) (cur s : list ascii) : list (list ascii) :=
  match s with
  | [] => [rev cur]
  | c :: s' => if sep c then rev cur :: split_on sep [] s' else split_on sep (c :: cur) s'
  end.

(** [s.strip()]. *)
Fixpoint lstrip (s : list ascii) : list ascii :=
  match s with
  | [] => []
  | c :: s' => if Re.is_space c then lstrip s' else s
  end.

Definition strip (s : list ascii) : list ascii := rev (lstrip (rev (lstrip s))).

(** The loop over the pieces of a section: a piece is stripped and kept
    when it is not empty and shorter than the limit. *)
Definition listed_item (limit : nat) (piece : list ascii) : option string :=
  let item := strip piece in
  if negb (length item =? 0)%nat && (length item <? limit)%nat
  then Some (string_of_list_ascii item) else None.

Definition listed_items (limit : nat) (block : list ascii) : list string :=
  omap (listed_item limit) (split_on is_item_sep [] block).

(** The last loop of [extract_skills]: the first occurrence of every
    skill, two skills that differ by the case of letters being one. *)
Fixpoint unique_skills (seen : gset string) (skills : list string) : list string :=
  match skills with
  | [] => []
  | skill :: rest =>
      if negb (String.eqb skill "") && negb (bool_decide (Py.lower skill ∈ seen))
      then skill :: unique_skills ({[ Py.lower skill ]} ∪ seen) rest
      else unique_skills seen rest
  end.

Definition skill_titles : list Re.regex :=
  [Re.lit_ci "skills"; Re.lit_ci "technical skills"; Re.lit_ci "competencies"].

Definition extract_skills (text : string) : list string :=
  let text_lower := Py.lower text in
  let found :=
    List.filter (fun skill => Py.str_in (Py.lower skill) text_lower) tech_skills in
  let additional :=
    match section_text skill_titles text with
    | Some skills_text => listed_items 60 skills_text
    | None => []
    end in
  unique_skills ∅ (found ++ additional)%list.

Definition certification_titles : list Re.regex :=
  [Re.lit_ci "certifications"; Re.lit_ci "licenses"; Re.lit_ci "courses"].

Definition extract_certifications (text : string) : list string :=
  match section_text certification_titles text with
  | Some cert_text => listed_items 100 cert_text
  | None => []
  end.

(** The titles and the expression of [parse_job_description]. *)
Definition required_titles : list Re.regex :=
  [Re.lit_ci "required"; Re.lit_ci "must have"; Re.lit_ci "must.have";
   Re.lit_ci "mandatory"].

(** [nice.to.have]: the dot is any character but the newline. *)
Definition nice_to_have : Re.regex :=
  Re.Seq (Re.lit_ci "nice")
    (Re.Seq (Re.Chr not_newline)
       (Re.Seq (Re.lit_ci "to") (Re.Seq (Re.Chr not_newline) (Re.lit_ci "have")))).

Definition optional_titles : list Re.regex :=
  [Re.lit_ci "preferred"; Re.lit_ci "nice to have"; nice_to_have; Re.lit_ci "optional"].

Definition space_dash_plus (c : ascii) : bool :=
  Re.is_space c || Ascii.eqb c "-"%char || Ascii.eqb c "+"%char.

(** [(\d+)[\s\-+]+(?:years?|yrs?)] *)
Definition pattern_min_experience : Re.regex :=
  Re.Seq (Re.Group (Re.Plus (Re.Chr Re.is_digit)))
    (Re.Seq (Re.Plus (Re.Chr space_dash_plus))
       (Re.Alt (Re.Seq (Re.lit_ci "year") (Re.Opt (Re.chr_ci "s")))
               (Re.Seq (Re.lit_ci "yr") (Re.Opt (Re.chr_ci "s"))))).

(** [parse_job_description]: the dict it returns has no [max_experience],
    no [_id] and no [embeddings], and its lists of education requirements
    and certificates are empty. *)
Definition parse_job_description (text : string) : Job :=
  let required_skills :=
    match section_text required_titles text with
    | Some skills_text => extract_skills (string_of_list_ascii skills_text)
    | None => []
    end in
  let optional_skills :=
    match section_text optional_titles text with
    | Some skills_text => extract_skills (string_of_list_ascii skills_text)
    | None => []
    end in
  let min_experience :=
    match Re.search pattern_min_experience text with
    | Some cap => Re.int_of_digits (default [] cap)
    | None => 0%Z
    end in
  let processed_text := preprocess_text text in
  {| job_id := None;
     job_required_skills :=
       Some (if Py.truthy required_skills then required_skills
             else firstn 12 (extract_skills text));
     job_optional_skills := Some optional_skills;
     job_min_experience := Some min_experience;
     job_max_experience := None;
     job_education_requirements := Some [];
     job_certifications_required := Some [];
     job_raw_text := Some text;
     job_processed_text := Some processed_text;
     job_embeddings := None |}.

End Parser.

(** ** The two scores of rapidfuzz, for the examples

    [fuzz.ratio] is the normalized Indel similarity, [2 * lcs / (len1 + len2)]
    in percent; [fuzz.partial_ratio] is the best [ratio] of the shorter
    string against a window of the longer one (the substrings as long as
    the shorter string, and the shorter prefixes and suffixes).  A score is
    kept as a fraction of two naturals so that the best window is computed;
    the scorers take the functions as variables, and these are the instances
    the examples run on. *)

Module Rapidfuzz.

Fixpoint lcs_len (a b : list ascii) : nat :=
  match a with
  | [] => 0
  | x :: a' =>
      (fix inner (b : list ascii) : nat :=
         match b with
         | [] => 0
         | y :: b' =>
             if Ascii.eqb x y then S (lcs_len a' b')
             else Nat.max (lcs_len a' b) (inner b')
         end) b
  end.

(** The score as a fraction: numerator and denominator. *)
Definition ratio_frac (a b : list ascii) : nat * nat :=
  match (length a + length b)%nat with
  | O => (1, 1)%nat
  | S n => (2 * lcs_len a b, S n)%nat
  end.

Definition frac_leb (p q : nat * nat) : bool :=
  (fst p * snd q <=? fst q * snd p)%nat.

Definition frac_max (p q : nat * nat) : nat * nat :=
  if frac_leb p q then q else p.

(** The windows of [long] a string of length [m] is aligned with. *)
Definition windows (m : nat) (long : list ascii) : list (list ascii) :=
  map (fun i => firstn m (skipn i long)) (seq 0 (S (length long - m)))
  ++ map (fun k => firstn k long) (seq 1 (m - 1))
  ++ map (fun k => skipn (length long - k) long) (seq 1 (m - 1)).

Definition best_window (short long : list ascii) : nat * nat :=
  fold_right (fun w acc => frac_max (ratio_frac short w) acc) (0, 1)%nat
             (windows (length short) long).

Definition partial_ratio_frac (a b : list ascii) : nat * nat :=
  match a, b with
  | [], [] => (1, 1)%nat
  | [], _ | _, [] => (0, 1)%nat
  | _, _ =>
      if (length a <? length b)%nat then best_window a b
      else if (length b <? length a)%nat then best_window b a
      else frac_max (best_window a b) (best_window b a)
  end.

Definition percent (p : nat * nat) : R :=
  (100 * IZR (Z.of_nat (fst p)) / IZR (Z.of_nat (snd p)))%R.

Definition ratio (s1 s2 : string) : R :=
  percent (ratio_frac (list_ascii_of_string s1) (list_ascii_of_string s2)).

Definition partial_ratio (s1 s2 : string) : R :=
  percent (partial_ratio_frac (list_ascii_of_string s1) (list_ascii_of_string s2)).

End Rapidfuzz.

(** ** The specification's wording of two scores *)

Module Spec.

Section Wording.

Variable fuzz_ratio : string -> string -> R.
Variable fuzz_partial_ratio : string -> string -> R.

(** A skill is fuzzy-matched when, against some skill of the resume, the
    full-string ratio or the best-substring ratio clears the threshold. *)
Definition fuzzy_matched (threshold : R) (have : list string) (skill : string) : bool :=
  existsb (fun r => Py.Rgeb (fuzz_ratio skill r) threshold
                    || Py.Rgeb (fuzz_partial_ratio skill r) threshold) have.

(** The number of the skills of a list that are fuzzy-matched. *)
Definition matched_count (threshold : R) (have skills : list string) : nat :=
  length (List.filter (fuzzy_matched threshold have) skills).

(** The fraction of the skills of a list that are fuzzy-matched. *)
Definition fraction_matched (threshold : R) (have skills : list string) : R :=
  (INR (matched_count threshold have skills) / INR (length skills))%R.

(** Seventy points for the required skills and thirty for the optional
    ones, in proportion to the fraction matched; an empty list has its
    points in full. *)
Definition skills_match (have required optional : list string) : R :=
  ((match required with
    | [] => 70
    | _ => fraction_matched 80 have required * 70
    end)
   +
   (match optional with
    | [] => 30
    | _ => fraction_matched 80 have optional * 30
    end))%R.

End Wording.

(** The concatenation of the degree and context strings of a resume. *)
Definition education_text (education : list EduEntry) : string :=
  Py.join " "
    (flat_map (fun e => match e with
                        | EduDict d c => [Py.lower (default "" d); Py.lower (default "" c)]
                        | EduOther => []
                        end) education).

(** The fraction of the requirement strings that occur, whatever the case,
    in that concatenation. *)
Definition education_fraction (education : list EduEntry) (requirements : list string) : R :=
  (INR (length (List.filter (fun r => Py.str_in (Py.lower r) (education_text education))
                            requirements))
   / INR (length requirements))%R.

End Spec.

(** ** Inputs of the examples *)

Definition empty_resume : Resume :=
  mkResume None None None None None None None.

Definition empty_job : Job :=
  mkJob None None None None None None None None None None.

(** [job_desc['required_skills'].append(skill)]. *)
Definition add_required_skill (job_desc : Job) (skill : string) : Job :=
  mkJob (job_id job_desc)
        (Some (default [] (job_required_skills job_desc) ++ [skill])%list)
        (job_optional_skills job_desc)
        (job_min_experience job_desc) (job_max_experience job_desc)
        (job_education_requirements job_desc) (job_certifications_required job_desc)
        (job_raw_text job_desc) (job_processed_text job_desc) (job_embeddings job_desc).

Definition resume_python_aws : Resume :=
  mkResume None (Some ["Python"; "AWS"]) None None None None None.

Definition resume_python : Resume :=
  mkResume None (Some ["Python"]) None None None None None.

Definition job_python_aws : Job :=
  mkJob None (Some ["python"]) (Some ["AWS"]) None None None None None None None.

Definition job_python_sql_docker : Job :=
  mkJob None (Some ["python"; "sql"]) (Some ["docker"]) None None None None None None None.

Definition job_requires_phd : Job :=
  mkJob None None None None None (Some ["PhD"]) None None None None.

Definition resume_bachelor : Resume :=
  mkResume None None (Some [EduDict (Some "B.Tech") (Some "Computer Science, 2019")])
           None None None None.

Definition job_bachelor_or_master : Job :=
  mkJob None None None None None (Some ["b.tech"; "M.Tech"]) None None None None.

Definition resume_of_text (text : string) : Resume :=
  mkResume None None None None (Some text) None None.

Definition job_of_experience (min_exp max_exp : option Z) : Job :=
  mkJob None None None min_exp max_exp None None None None None.

Definition resume_with_embedding (text : string) (e : list R) : Resume :=
  mkResume None None None None (Some text) None (Some e).

Definition job_with_embedding (min_exp : option Z) (max_exp : option Z) (e : list R) : Job :=
  mkJob None None None min_exp max_exp None None None None (Some e).

(** A resume and a job whose combined score is just under 75. *)
Definition resume_near_high : Resume :=
  resume_with_embedding "1 year of experience" [15; 8]%R.

Definition job_near_high : Job :=
  job_with_embedding (Some 21%Z) None [5; 12]%R.

(** A resume and a job with the same embedding and no text. *)
Definition resume_unit : Resume := resume_with_embedding "" [1; 0]%R.

Definition job_unit : Job := job_with_embedding None None [1; 0]%R.

(** A vectorizer that raises on every pair of documents. *)
Definition tfidf_fails : string -> string -> option R := fun _ _ => None.


(** A digest for the examples: the length of the identifier. *)
Definition digest_of_length : string -> Z := fun s => Z.of_nat (String.length s).

(** An encoder of dimension 2. *)
Definition encode_unit : string -> list R := fun _ => [1; 0]%R.

(** * The functions on given inputs *)

Example years_from_phrase :
  Matching._extract_experience_years "I have 5+ years of experience in Python" = 5%Z.
Proof. vm_compute. reflexivity. Qed.

Example years_after_label :
  Matching._extract_experience_years "Experience: 12 Years" = 12%Z.
Proof. vm_compute. reflexivity. Qed.

Example years_working :
  Matching._extract_experience_years "7 years  working at a bank" = 7%Z.
Proof. vm_compute. reflexivity. Qed.

Example years_leftmost_match :
  Matching._extract_experience_years "3 yearsexperience, then 4 year experience" = 4%Z.
Proof. vm_compute. reflexivity. Qed.

Example years_from_span :
  Matching._extract_experience_years "Acme 2015 to 2021, intern in 2018" = 6%Z.
Proof. vm_compute. reflexivity. Qed.

Example years_not_found :
  Matching._extract_experience_years "Python developer since 2019" = 0%Z.
Proof. vm_compute. reflexivity. Qed.

Example keywords_of_sentence :
  Matching._extract_keywords
    "The Senior Python developer, with Python! and SQL skills; would be good." 20
  = ["senior"; "python"; "developer"; "with"; "skills"; "good"].
Proof. vm_compute. reflexivity. Qed.

Example ratio_of_equal_strings :
  Rapidfuzz.ratio_frac (list_ascii_of_string "python") (list_ascii_of_string "python")
  = (12, 12)%nat.
Proof. vm_compute. reflexivity. Qed.

Example partial_ratio_of_prefix :
  Rapidfuzz.partial_ratio_frac (list_ascii_of_string "java") (list_ascii_of_string "javascript")
  = (8, 8)%nat.
Proof. vm_compute. reflexivity. Qed.

(** * Properties *)

Local Open Scope list_scope.

(** ** Comparisons of reals *)

Lemma Rgeb_true (x y : R) : Py.Rgeb x y = true <-> (x >= y)%R.
Proof. unfold Py.Rgeb. destruct (Rge_dec x y); split; intros; auto; discriminate. Qed.

Lemma Rgeb_false (x y : R) : Py.Rgeb x y = false <-> (x < y)%R.
Proof.
  unfold Py.Rgeb. destruct (Rge_dec x y); split; intros; auto; try discriminate; lra.
Qed.

Lemma Rgtb_true (x y : R) : Py.Rgtb x y = true <-> (x > y)%R.
Proof. unfold Py.Rgtb. destruct (Rgt_dec x y); split; intros; auto; discriminate. Qed.

Lemma Rgtb_false (x y : R) : Py.Rgtb x y = false <-> (x <= y)%R.
Proof.
  unfold Py.Rgtb. destruct (Rgt_dec x y); split; intros; auto; try discriminate; lra.
Qed.

Lemma Rltb_true (x y : R) : Py.Rltb x y = true <-> (x < y)%R.
Proof. unfold Py.Rltb. destruct (Rlt_dec x y); split; intros; auto; discriminate. Qed.

Lemma Rltb_false (x y : R) : Py.Rltb x y = false <-> (x >= y)%R.
Proof.
  unfold Py.Rltb. destruct (Rlt_dec x y); split; intros; auto; try discriminate; lra.
Qed.

Lemma Reqb_true (x y : R) : Py.Reqb x y = true <-> x = y.
Proof. unfold Py.Reqb. destruct (Req_dec_T x y); split; intros; auto; discriminate. Qed.

Lemma Reqb_false (x y : R) : Py.Reqb x y = false <-> x <> y.
Proof.
  unfold Py.Reqb. destruct (Req_dec_T x y); split; intros; auto; try discriminate.
  contradiction.
Qed.

(** Decide the comparisons of the goal once both sides are numerals. *)
Ltac Rcompare :=
  repeat match goal with
    | |- context [Py.Rgeb ?x ?y] =>
        first [ rewrite (proj2 (Rgeb_true x y)) by lra
              | rewrite (proj2 (Rgeb_false x y)) by lra ]
    | |- context [Py.Rgtb ?x ?y] =>
        first [ rewrite (proj2 (Rgtb_true x y)) by lra
              | rewrite (proj2 (Rgtb_false x y)) by lra ]
    | |- context [Py.Rltb ?x ?y] =>
        first [ rewrite (proj2 (Rltb_true x y)) by lra
              | rewrite (proj2 (Rltb_false x y)) by lra ]
    | |- context [Py.Reqb ?x ?y] =>
        first [ rewrite (proj2 (Reqb_true x y)) by lra
              | rewrite (proj2 (Reqb_false x y)) by lra ]
    end.

(** ** The hard-match scorer: skills *)

Section SkillFacts.

Variable fuzz_ratio : string -> string -> R.
Variable fuzz_partial_ratio : string -> string -> R.

Local Abbreviation fuzzy := (Matching._fuzzy_skill_match fuzz_ratio fuzz_partial_ratio).
Local Abbreviation hard_match := (Matching.calculate_hard_match fuzz_ratio fuzz_partial_ratio).

(** The loop with its two early returns is the existential of the wording. *)
Lemma fuzzy_skill_match_exists (skill : string) (have : list string) (threshold : R) :
  fuzzy skill have threshold
  = Spec.fuzzy_matched fuzz_ratio fuzz_partial_ratio threshold have skill.
Proof.
  induction have as [|r have IH]; simpl; [reflexivity|].
  destruct (Py.Rgeb (fuzz_ratio skill r) threshold); simpl; [reflexivity|].
  destruct (Py.Rgeb (fuzz_partial_ratio skill r) threshold); simpl; [reflexivity|].
  exact IH.
Qed.

Lemma matched_of_filter (skills have : list string) (threshold : R) :
  Matching.matched_of fuzz_ratio fuzz_partial_ratio skills have threshold
  = List.filter (Spec.fuzzy_matched fuzz_ratio fuzz_partial_ratio threshold have) skills.
Proof.
  unfold Matching.matched_of. apply List.filter_ext. intros s.
  apply fuzzy_skill_match_exists.
Qed.

Lemma coverage_score_fraction (skills have : list string) (full : R) :
  Matching.coverage_score
    (Matching.matched_of fuzz_ratio fuzz_partial_ratio skills have 80) skills full
  = match skills with
    | [] => full
    | _ => (Spec.fraction_matched fuzz_ratio fuzz_partial_ratio 80 have skills * full)%R
    end.
Proof.
  unfold Matching.coverage_score, Spec.fraction_matched, Spec.matched_count, Py.ratio_len.
  rewrite matched_of_filter. destruct skills; reflexivity.
Qed.

Lemma skills_match_unfold (resume : Resume) (job_desc : Job) :
  skills_match (hard_match resume job_desc)
  = Spec.skills_match fuzz_ratio fuzz_partial_ratio
      (map Py.lower (default [] (resume_skills resume)))
      (map Py.lower (default [] (job_required_skills job_desc)))
      (map Py.lower (default [] (job_optional_skills job_desc))).
Proof.
  unfold Matching.calculate_hard_match, Spec.skills_match. simpl.
  rewrite !coverage_score_fraction. reflexivity.
Qed.

Lemma fuzzy_hit_first (skill r : string) (have : list string) (threshold : R) :
  (fuzz_ratio skill r >= threshold)%R -> fuzzy skill (r :: have) threshold = true.
Proof. intros H. simpl. rewrite (proj2 (Rgeb_true _ _) H). reflexivity. Qed.

Lemma fuzzy_miss_all (skill : string) (have : list string) (threshold : R) :
  (forall r, In r have ->
             (fuzz_ratio skill r < threshold)%R /\ (fuzz_partial_ratio skill r < threshold)%R) ->
  fuzzy skill have threshold = false.
Proof.
  induction have as [|r have IH]; intros H; simpl; [reflexivity|].
  destruct (H r (or_introl eq_refl)) as [H1 H2].
  rewrite (proj2 (Rgeb_false _ _) H1), (proj2 (Rgeb_false _ _) H2).
  apply IH. intros r' Hr'. apply H. right. exact Hr'.
Qed.

(** C4: the skills score is 70 times the matched fraction of the required
    skills plus 30 times the matched fraction of the optional skills, an
    empty list counting in full; the job asking for python and sql, with
    docker optional, scores 35 on the resume with Python and AWS as soon as
    python matches itself and sql and docker match neither skill of the
    resume; a job with no skill at all scores 100. *)
Theorem skills_match_weighted_coverage :
  (forall resume job_desc,
      skills_match (hard_match resume job_desc)
      = Spec.skills_match fuzz_ratio fuzz_partial_ratio
          (map Py.lower (default [] (resume_skills resume)))
          (map Py.lower (default [] (job_required_skills job_desc)))
          (map Py.lower (default [] (job_optional_skills job_desc))))
  /\ ((fuzz_ratio "python" "python" >= 80)%R ->
      (forall s r, In s ["sql"; "docker"] -> In r ["python"; "aws"] ->
                   (fuzz_ratio s r < 80)%R /\ (fuzz_partial_ratio s r < 80)%R) ->
      skills_match (hard_match resume_python_aws job_python_sql_docker) = 35%R)
  /\ (forall resume job_desc,
         default [] (job_required_skills job_desc) = [] ->
         default [] (job_optional_skills job_desc) = [] ->
         skills_match (hard_match resume job_desc) = 100%R).
Proof.
  split; [exact skills_match_unfold|]. split.
  - intros Hpy Hmiss.
    rewrite skills_match_unfold.
    change (map Py.lower (default [] (resume_skills resume_python_aws)))
      with ["python"; "aws"].
    change (map Py.lower (default [] (job_required_skills job_python_sql_docker)))
      with ["python"; "sql"].
    change (map Py.lower (default [] (job_optional_skills job_python_sql_docker)))
      with ["docker"].
    unfold Spec.skills_match, Spec.fraction_matched, Spec.matched_count.
    cbn [List.filter]. rewrite <- !fuzzy_skill_match_exists.
    rewrite (fuzzy_hit_first "python" "python" ["aws"] 80 Hpy).
    rewrite (fuzzy_miss_all "sql" ["python"; "aws"] 80)
      by (intros r Hr; apply Hmiss; simpl; tauto).
    rewrite (fuzzy_miss_all "docker" ["python"; "aws"] 80)
      by (intros r Hr; apply Hmiss; simpl; tauto).
    simpl. lra.
  - intros resume job_desc Hreq Hopt.
    rewrite skills_match_unfold, Hreq, Hopt. unfold Spec.skills_match. simpl. lra.
Qed.


Lemma fraction_grows (m n : R) :
  (0 <= m <= n)%R -> (0 < n)%R -> (m / n <= (m + 1) / (n + 1))%R.
Proof.
  intros Hm Hn.
  apply (Rmult_le_reg_r (n * (n + 1))); [nra|].
  replace (m / n * (n * (n + 1)))%R with (m * (n + 1))%R by (field; lra).
  replace ((m + 1) / (n + 1) * (n * (n + 1)))%R with ((m + 1) * n)%R by (field; lra).
  nra.
Qed.

Lemma matched_of_length (skills have : list string) (threshold : R) :
  (length (Matching.matched_of fuzz_ratio fuzz_partial_ratio skills have threshold)
   <= length skills)%nat.
Proof. unfold Matching.matched_of. apply List.filter_length_le. Qed.

Lemma matched_of_snoc (skills have : list string) (skill : string) (threshold : R) :
  fuzzy skill have threshold = true ->
  Matching.matched_of fuzz_ratio fuzz_partial_ratio (skills ++ [skill]) have threshold
  = Matching.matched_of fuzz_ratio fuzz_partial_ratio skills have threshold ++ [skill].
Proof.
  intros H. unfold Matching.matched_of. rewrite List.filter_app. simpl. rewrite H.
  reflexivity.
Qed.

(** The score of a list does not go down when a matched skill is appended,
    the empty list with its points in full included. *)
Lemma coverage_score_snoc (skills have : list string) (skill : string) (full : R) :
  (0 <= full)%R ->
  fuzzy skill have 80 = true ->
  (Matching.coverage_score
     (Matching.matched_of fuzz_ratio fuzz_partial_ratio skills have 80) skills full
   <= Matching.coverage_score
        (Matching.matched_of fuzz_ratio fuzz_partial_ratio (skills ++ [skill]) have 80)
        (skills ++ [skill]) full)%R.
Proof.
  intros Hfull H. rewrite (matched_of_snoc skills have skill 80 H).
  unfold Matching.coverage_score, Py.ratio_len.
  rewrite !length_app. simpl length. rewrite !Nat.add_1_r, !S_INR.
  pose proof (matched_of_length skills have 80) as Hle.
  apply le_INR in Hle.
  pose proof (pos_INR (length (Matching.matched_of fuzz_ratio fuzz_partial_ratio skills have 80)))
    as Hm0.
  destruct skills as [|s0 skills].
  - simpl. replace ((0 + 1) / (0 + 1))%R with 1%R by field. lra.
  - replace (Py.truthy ((s0 :: skills) ++ [skill])) with true by reflexivity.
    cbn [Py.truthy].
    assert (0 < INR (length (s0 :: skills)))%R as Hn.
    { apply lt_0_INR. simpl. lia. }
    apply Rmult_le_compat_r; [exact Hfull|].
    apply fraction_grows; [split; assumption | exact Hn].
Qed.

(** C9: appending to the required skills of a job a skill that fuzzy-matches
    a skill of the resume never lowers the skills score, a job that had no
    required skill included. *)
Theorem required_skill_monotone (resume : Resume) (job_desc : Job) (skill : string) :
  fuzzy (Py.lower skill) (map Py.lower (default [] (resume_skills resume))) 80 = true ->
  (skills_match (hard_match resume job_desc)
   <= skills_match (hard_match resume (add_required_skill job_desc skill)))%R.
Proof.
  intros H. unfold Matching.calculate_hard_match. cbn [skills_match].
  change (default [] (job_required_skills (add_required_skill job_desc skill)))
    with (default [] (job_required_skills job_desc) ++ [skill])%list.
  change (job_optional_skills (add_required_skill job_desc skill))
    with (job_optional_skills job_desc).
  rewrite map_app. cbn [map].
  apply Rplus_le_compat_r.
  apply coverage_score_snoc; [lra | exact H].
Qed.

End SkillFacts.

(** The scores of the rapidfuzz instance on given strings: the fractions
    are computed, the comparison is left to [lra]. *)
Ltac fuzz_scores :=
  unfold Rapidfuzz.ratio, Rapidfuzz.partial_ratio, Rapidfuzz.percent;
  repeat match goal with
    | |- context [Z.of_nat ?t] =>
        let v := eval vm_compute in (Z.of_nat t) in change (Z.of_nat t) with v
    end;
  lra.

Lemma skills_match_weighted_coverage_witness :
  skills_match (Matching.calculate_hard_match Rapidfuzz.ratio Rapidfuzz.partial_ratio
                  resume_python_aws job_python_sql_docker) = 35%R
  /\ skills_match (Matching.calculate_hard_match Rapidfuzz.ratio Rapidfuzz.partial_ratio
                     empty_resume empty_job) = 100%R.
Proof.
  destruct (skills_match_weighted_coverage Rapidfuzz.ratio Rapidfuzz.partial_ratio)
    as (_ & Hscenario & Hempty).
  split.
  - apply Hscenario.
    + fuzz_scores.
    + intros s r Hs Hr. simpl in Hs, Hr.
      destruct Hs as [<-|[<-|[]]]; destruct Hr as [<-|[<-|[]]]; split; fuzz_scores.
  - apply Hempty; reflexivity.
Defined.

Lemma required_skill_monotone_witness :
  Matching._fuzzy_skill_match Rapidfuzz.ratio Rapidfuzz.partial_ratio
    (Py.lower "Python") (map Py.lower (default [] (resume_skills resume_python_aws))) 80 = true
  /\ (skills_match (Matching.calculate_hard_match Rapidfuzz.ratio Rapidfuzz.partial_ratio
                      resume_python_aws empty_job)
      <= skills_match (Matching.calculate_hard_match Rapidfuzz.ratio Rapidfuzz.partial_ratio
                         resume_python_aws (add_required_skill empty_job "Python")))%R.
Proof.
  assert (Matching._fuzzy_skill_match Rapidfuzz.ratio Rapidfuzz.partial_ratio
            (Py.lower "Python") (map Py.lower (default [] (resume_skills resume_python_aws))) 80
          = true) as H.
  { change (Py.lower "Python") with "python".
    change (map Py.lower (default [] (resume_skills resume_python_aws)))
      with ["python"; "aws"].
    apply fuzzy_hit_first. fuzz_scores. }
  split; [exact H|].
  apply (required_skill_monotone Rapidfuzz.ratio Rapidfuzz.partial_ratio
           resume_python_aws empty_job "Python" H).
Defined.

(** ** The regular expressions: what a group captures *)

Lemma run_digits_only (r : Re.regex) :
  Re.digits_only r ->
  forall (A : Type) s cap (k : list ascii -> option (list ascii) -> option A) x,
    Re.run r s cap k = Some x ->
    exists pre s',
      s = pre ++ s' /\ Forall (fun c => Re.is_digit c = true) pre /\ k s' cap = Some x.
Proof.
  induction 1 as [|p Hp|r1 r2 _ IH1 _ IH2|r1 r2 _ IH1 _ IH2|r _ IH];
    intros A s cap k x Hrun; simpl in Hrun.
  - exists [], s. auto.
  - destruct s as [|c s']; [discriminate|].
    destruct (p c) eqn:Hc; [|discriminate].
    exists [c], s'. auto.
  - apply IH1 in Hrun. destruct Hrun as (pre1 & s1 & -> & Hd1 & Hrun).
    apply IH2 in Hrun. destruct Hrun as (pre2 & s2 & -> & Hd2 & Hk).
    exists (pre1 ++ pre2), s2. rewrite <- app_assoc.
    split; [reflexivity|]. split; [apply Forall_app; auto | exact Hk].
  - destruct (Re.run r1 s cap k) eqn:H1.
    + inversion Hrun; subst. apply IH1 in H1. exact H1.
    + apply IH2 in Hrun. exact Hrun.
  - remember (length s) as n eqn:Hn. clear Hn.
    revert s Hrun. induction n as [|n IHn]; intros s Hrun.
    + exists [], s. auto.
    + match type of Hrun with
      | match ?t with _ => _ end = _ => destruct t eqn:Hbody
      end.
      * inversion Hrun; subst. apply IH in Hbody.
        destruct Hbody as (pre1 & s1 & -> & Hd1 & Hk).
        destruct (length s1 <? length (pre1 ++ s1))%nat; [|discriminate].
        apply IHn in Hk. destruct Hk as (pre2 & s2 & -> & Hd2 & Hk).
        exists (pre1 ++ pre2), s2. rewrite <- app_assoc.
        split; [reflexivity|]. split; [apply Forall_app; auto | exact Hk].
      * exists [], s. auto.
Qed.

Lemma run_captures_digits (r : Re.regex) :
  Re.captures_digits r ->
  forall (A : Type) s cap (k : list ascii -> option (list ascii) -> option A) x,
    Re.digit_capture cap ->
    Re.run r s cap k = Some x ->
    exists s' cap', Re.digit_capture cap' /\ k s' cap' = Some x.
Proof.
  induction 1 as [|p|r1 r2 _ IH1 _ IH2|r1 r2 _ IH1 _ IH2|r _ IH|r Hr];
    intros A s cap k x Hcap Hrun; simpl in Hrun.
  - eauto.
  - destruct s as [|c s']; [discriminate|].
    destruct (p c); [eauto | discriminate].
  - apply IH1 in Hrun; [|exact Hcap]. destruct Hrun as (s1 & cap1 & Hcap1 & Hrun).
    apply IH2 in Hrun; [|exact Hcap1]. exact Hrun.
  - destruct (Re.run r1 s cap k) eqn:H1.
    + inversion Hrun; subst. eapply IH1; eauto.
    + eapply IH2; eauto.
  - remember (length s) as n eqn:Hn. clear Hn.
    revert s cap Hcap Hrun. induction n as [|n IHn]; intros s cap Hcap Hrun.
    + eauto.
    + match type of Hrun with
      | match ?t with _ => _ end = _ => destruct t eqn:Hbody
      end.
      * inversion Hrun; subst. apply IH in Hbody; [|exact Hcap].
        destruct Hbody as (s1 & cap1 & Hcap1 & Hk).
        destruct (length s1 <? length s)%nat; [|discriminate].
        eapply IHn; eauto.
      * eauto.
  - apply (run_digits_only r Hr) in Hrun.
    destruct Hrun as (pre & s' & -> & Hd & Hk).
    eexists _, _. split; [|exact Hk].
    simpl. rewrite length_app.
    replace (length pre + length s' - length s')%nat with (length pre) by lia.
    rewrite firstn_app, Nat.sub_diag, firstn_all. simpl. rewrite app_nil_r. exact Hd.
Qed.

Lemma search_from_digits (r : Re.regex) (s : list ascii) (cap : option (list ascii)) :
  Re.captures_digits r -> Re.search_from r s = Some cap -> Re.digit_capture cap.
Proof.
  intros Hr. induction s as [|c s IH]; simpl; intros Hs.
  - destruct (Re.run r [] None _) eqn:Hrun; [|discriminate].
    inversion Hs; subst.
    apply (run_captures_digits r Hr) in Hrun; [|exact I].
    destruct Hrun as (s' & cap' & Hcap & Heq). inversion Heq; subst. exact Hcap.
  - destruct (Re.run r (c :: s) None _) eqn:Hrun.
    + inversion Hs; subst.
      apply (run_captures_digits r Hr) in Hrun; [|exact I].
      destruct Hrun as (s' & cap' & Hcap & Heq). inversion Heq; subst. exact Hcap.
    + apply IH. exact Hs.
Qed.

Lemma int_of_digits_acc (ds : list ascii) (acc : Z) :
  Forall (fun c => Re.is_digit c = true) ds -> (0 <= acc)%Z ->
  (0 <= fold_left (fun acc c => (10 * acc + (Z.of_nat (nat_of_ascii c) - 48))%Z) ds acc)%Z.
Proof.
  intros Hds. revert acc. induction Hds as [|c ds Hc _ IH]; intros acc Hacc; simpl.
  - exact Hacc.
  - apply IH. unfold Re.is_digit in Hc.
    apply andb_true_iff in Hc. destruct Hc as [Hlo _].
    apply Nat.leb_le in Hlo. lia.
Qed.

Lemma int_of_digits_nonneg (ds : list ascii) :
  Forall (fun c => Re.is_digit c = true) ds -> (0 <= Re.int_of_digits ds)%Z.
Proof. intros Hds. apply int_of_digits_acc; [exact Hds | lia]. Qed.

Lemma lit_ci_captures (s : string) : Re.captures_digits (Re.lit_ci s).
Proof. induction s; simpl; repeat constructor; assumption. Qed.

Lemma digit_run_only : Re.digits_only (Re.Plus (Re.Chr Re.is_digit)).
Proof. repeat constructor; auto. Qed.

Ltac captures :=
  repeat match goal with
    | |- Re.captures_digits (Re.lit_ci _) => apply lit_ci_captures
    | |- Re.captures_digits (Re.Group _) => apply Re.captures_group, digit_run_only
    | |- Re.captures_digits (Re.Plus _) => apply Re.captures_seq
    | |- Re.captures_digits (Re.Opt _) => apply Re.captures_alt
    | |- Re.captures_digits (Re.chr_ci _) => apply Re.captures_chr
    | |- Re.captures_digits (Re.Seq _ _) => apply Re.captures_seq
    | |- Re.captures_digits (Re.Alt _ _) => apply Re.captures_alt
    | |- Re.captures_digits (Re.Star _) => apply Re.captures_star
    | |- Re.captures_digits (Re.Chr _) => apply Re.captures_chr
    | |- Re.captures_digits Re.Eps => apply Re.captures_eps
    end.

Lemma patterns_capture_digits : Forall Re.captures_digits Matching.patterns.
Proof.
  unfold Matching.patterns, Matching.pattern_years_experience,
    Matching.pattern_experience_years, Matching.pattern_years_working.
  repeat (match goal with |- Forall _ _ => constructor end); captures.
Qed.

Lemma first_pattern_match_nonneg (ps : list Re.regex) (text : string) (n : Z) :
  Forall Re.captures_digits ps ->
  Matching.first_pattern_match ps text = Some n -> (0 <= n)%Z.
Proof.
  induction 1 as [|p ps Hp _ IH]; simpl; [discriminate|].
  destruct (Re.search p text) as [cap|] eqn:Hs.
  - intros Hn. inversion Hn; subst.
    apply int_of_digits_nonneg.
    apply (search_from_digits p _ cap Hp) in Hs.
    destruct cap; simpl; [exact Hs | constructor].
  - exact IH.
Qed.

(** In a sorted list the first element is at most the last one. *)
Lemma sorted_hd_le_last (l : list Z) :
  StronglySorted Z.le l -> (List.hd 0 l <= List.last l 0)%Z.
Proof.
  destruct l as [|x l]; [simpl; lia|].
  intros Hs. apply StronglySorted_inv in Hs. destruct Hs as [_ Hall].
  cbn [List.hd].
  destruct l as [|y l]; [simpl; lia|].
  rewrite List.Forall_forall in Hall. apply Hall.
  change (List.last (x :: y :: l) 0%Z) with (List.last (y :: l) 0%Z).
  destruct (exists_last (l:=y :: l)) as (l' & z & Heq); [discriminate|].
  rewrite Heq, last_last. apply in_or_app. right. left. reflexivity.
Qed.

(** The years [_extract_experience_years] returns are never negative. *)
Lemma extract_experience_years_nonneg (text : string) :
  (0 <= Matching._extract_experience_years text)%Z.
Proof.
  unfold Matching._extract_experience_years.
  destruct (Matching.first_pattern_match Matching.patterns text) as [n|] eqn:Hp.
  - exact (first_pattern_match_nonneg _ _ _ patterns_capture_digits Hp).
  - destruct (2 <=? _)%nat; [|lia].
    pose proof (sorted_hd_le_last
                  (Matching.sorted (map Re.int_of_digits
                                        (Re.findall_20dd (list_ascii_of_string text))))) as H.
    unfold Matching.sorted in *.
    specialize (H (StronglySorted_merge_sort Z.le _)). lia.
Qed.

(** ** The hard-match scorer: education and experience *)

Section HardMatchFacts.

Variable fuzz_ratio : string -> string -> R.
Variable fuzz_partial_ratio : string -> string -> R.

Local Abbreviation hard_match :=
  (Matching.calculate_hard_match fuzz_ratio fuzz_partial_ratio).

Lemma resume_degrees_text (education : list EduEntry) :
  Py.join " " (Matching.resume_degrees education) = Spec.education_text education.
Proof.
  unfold Spec.education_text. f_equal.
  induction education as [|[d c|] education IH]; simpl; [reflexivity| |exact IH].
  rewrite IH. reflexivity.
Qed.

Lemma match_education_fraction (education : list EduEntry) (requirements : list string) :
  requirements <> [] ->
  Matching._match_education education requirements
  = Spec.education_fraction education requirements.
Proof.
  intros Hreq. unfold Matching._match_education, Spec.education_fraction,
    Matching.education_hits.
  rewrite resume_degrees_text.
  destruct requirements; [contradiction | reflexivity].
Qed.

Lemma education_match_unfold (resume : Resume) (job_desc : Job) :
  education_match (hard_match resume job_desc)
  = if Py.truthy (default [] (job_education_requirements job_desc))
       && Py.truthy (default [] (resume_education resume))
    then (Matching._match_education (default [] (resume_education resume))
            (default [] (job_education_requirements job_desc)) * 100)%R
    else 100%R.
Proof. reflexivity. Qed.

(** C5, as the code has it: the education score is 100 when the job lists
    no requirement or the resume has no education entry; otherwise it is
    100 times the fraction of the requirements that occur, whatever the
    case, in the degree and context strings of the resume joined by
    spaces, and so 0 when none occurs. *)
Theorem education_match_fraction (resume : Resume) (job_desc : Job) :
  let requirements := default [] (job_education_requirements job_desc) in
  let education := default [] (resume_education resume) in
  (requirements = [] \/ education = [] ->
   education_match (hard_match resume job_desc) = 100%R)
  /\ (requirements <> [] -> education <> [] ->
      education_match (hard_match resume job_desc)
      = (Spec.education_fraction education requirements * 100)%R)
  /\ (requirements <> [] -> education <> [] ->
      (forall r, In r requirements ->
                 Py.str_in (Py.lower r) (Spec.education_text education) = false) ->
      education_match (hard_match resume job_desc) = 0%R).
Proof.
  intros requirements education. rewrite education_match_unfold.
  fold requirements education.
  assert (requirements <> [] -> education <> [] ->
          (if Py.truthy requirements && Py.truthy education
           then (Matching._match_education education requirements * 100)%R
           else 100%R)
          = (Spec.education_fraction education requirements * 100)%R) as Hboth.
  { intros Hreq Hedu. rewrite (match_education_fraction _ _ Hreq).
    destruct requirements; [contradiction|]. destruct education; [contradiction|].
    reflexivity. }
  split; [|split].
  - intros [-> | ->]; [reflexivity|]. destruct requirements; reflexivity.
  - exact Hboth.
  - intros Hreq Hedu Hnone. rewrite (Hboth Hreq Hedu).
    unfold Spec.education_fraction.
    replace (List.filter _ requirements) with (@nil string).
    + simpl. unfold Rdiv. rewrite !Rmult_0_l. reflexivity.
    + symmetry. clear Hboth Hreq.
      induction requirements as [|r requirements IH]; [reflexivity|].
      simpl. rewrite (Hnone r (or_introl eq_refl)).
      apply IH. intros r' Hr'. apply Hnone. right. exact Hr'.
Qed.

Lemma experience_match_unfold (resume : Resume) (job_desc : Job) :
  experience_match (hard_match resume job_desc)
  = Matching.experience_score
      (Matching._extract_experience_years (default "" (resume_raw_text resume)))
      (default 0%Z (job_min_experience job_desc))
      (default (if (default 0 (job_min_experience job_desc) >=? 0)%Z
                then (default 0 (job_min_experience job_desc) + 10)%Z else 10%Z)
               (job_max_experience job_desc)).
Proof. reflexivity. Qed.

Lemma experience_score_within (y m M : Z) :
  (m <= y <= M)%Z -> Matching.experience_score y m M = 100%R.
Proof.
  intros [H1 H2]. unfold Matching.experience_score.
  rewrite (proj2 (Z.geb_le y m) H1), (proj2 (Z.leb_le y M) H2). reflexivity.
Qed.

Lemma experience_score_above (y m M : Z) :
  (m <= M)%Z -> (M < y)%Z -> Matching.experience_score y m M = 80%R.
Proof.
  intros H1 H2. unfold Matching.experience_score.
  rewrite (proj2 (Z.geb_le y m)) by lia.
  rewrite (proj2 (Z.leb_gt y M) H2). reflexivity.
Qed.

Lemma experience_score_below (y m M : Z) :
  (0 < m)%Z -> (y < m)%Z ->
  Matching.experience_score y m M = (IZR y / IZR m * 100)%R.
Proof.
  intros H1 H2. unfold Matching.experience_score.
  destruct (y >=? m)%Z eqn:Hge; [apply Z.geb_le in Hge; lia|].
  destruct (m >? 0)%Z eqn:Hgt; [reflexivity|].
  rewrite Z.gtb_ltb in Hgt. apply Z.ltb_ge in Hgt. lia.
Qed.

(** C8, as the code has it: the experience score is 100 when the years
    found in the resume lie between the minimum and the maximum, 80 when
    they exceed the maximum, the years over the minimum times 100 when
    they are below a positive minimum.  The minimum 0 is never undercut,
    and gives no score of its own: the score is then 100 up to the
    maximum and 80 above it; it is 100 for a text where no pattern and
    fewer than two years are found, the maximum being absent or not
    negative.  An absent maximum is the minimum plus 10. *)
Theorem experience_match_cases (resume : Resume) (job_desc : Job) :
  let text := default "" (resume_raw_text resume) in
  let y := Matching._extract_experience_years text in
  let m := default 0%Z (job_min_experience job_desc) in
  let M := default (if (m >=? 0)%Z then (m + 10)%Z else 10%Z)
                   (job_max_experience job_desc) in
  ((m <= y <= M)%Z -> experience_match (hard_match resume job_desc) = 100%R)
  /\ ((m <= M)%Z -> (M < y)%Z -> experience_match (hard_match resume job_desc) = 80%R)
  /\ ((0 < m)%Z -> (y < m)%Z ->
      experience_match (hard_match resume job_desc) = (IZR y / IZR m * 100)%R)
  /\ (m = 0%Z -> (y <= M)%Z -> experience_match (hard_match resume job_desc) = 100%R)
  /\ (m = 0%Z -> (M < y)%Z -> experience_match (hard_match resume job_desc) = 80%R)
  /\ (m = 0%Z ->
      Matching.first_pattern_match Matching.patterns text = None ->
      (length (Re.findall_20dd (list_ascii_of_string text)) < 2)%nat ->
      (job_max_experience job_desc = None \/ (0 <= M)%Z) ->
      experience_match (hard_match resume job_desc) = 100%R)
  /\ (job_max_experience job_desc = None -> (0 <= m)%Z -> M = (m + 10)%Z).
Proof.
  intros text y m M. rewrite experience_match_unfold. fold text y m M.
  pose proof (extract_experience_years_nonneg text) as Hy. fold y in Hy.
  repeat split.
  - apply experience_score_within.
  - apply experience_score_above.
  - apply experience_score_below.
  - intros Hm HM. apply experience_score_within. lia.
  - intros Hm HM. unfold Matching.experience_score.
    rewrite (proj2 (Z.geb_le y m)) by lia.
    rewrite (proj2 (Z.leb_gt y M) HM). reflexivity.
  - intros Hm Hpat Hyears Hmax.
    assert (y = 0%Z) as Hy0.
    { unfold y, Matching._extract_experience_years. rewrite Hpat.
      destruct (2 <=? _)%nat eqn:Hlen; [apply Nat.leb_le in Hlen; lia | reflexivity]. }
    apply experience_score_within. rewrite Hy0, Hm.
    destruct Hmax as [Hnone | HM]; [|lia].
    unfold M. rewrite Hnone, Hm. simpl. lia.
  - intros Hnone Hm. unfold M. rewrite Hnone. simpl.
    rewrite (proj2 (Z.geb_le m 0) Hm). reflexivity.
Qed.

End HardMatchFacts.

Lemma education_match_fraction_witness :
  education_match (Matching.calculate_hard_match Rapidfuzz.ratio Rapidfuzz.partial_ratio
                     empty_resume job_requires_phd) = 100%R
  /\ education_match (Matching.calculate_hard_match Rapidfuzz.ratio Rapidfuzz.partial_ratio
                        resume_bachelor job_bachelor_or_master)
     = (Spec.education_fraction (default [] (resume_education resume_bachelor))
          (default [] (job_education_requirements job_bachelor_or_master)) * 100)%R
  /\ education_match (Matching.calculate_hard_match Rapidfuzz.ratio Rapidfuzz.partial_ratio
                        resume_bachelor job_requires_phd) = 0%R.
Proof.
  split; [|split].
  - apply (education_match_fraction Rapidfuzz.ratio Rapidfuzz.partial_ratio
             empty_resume job_requires_phd).
    right. reflexivity.
  - apply (education_match_fraction Rapidfuzz.ratio Rapidfuzz.partial_ratio
             resume_bachelor job_bachelor_or_master); simpl; discriminate.
  - apply (education_match_fraction Rapidfuzz.ratio Rapidfuzz.partial_ratio
             resume_bachelor job_requires_phd); simpl; try discriminate.
    intros r [<-|[]]. vm_compute. reflexivity.
Defined.

(** C5, as the specification states it, fails on a resume without education
    entries: the job asks for a PhD, none is found, the fraction found is 0
    and the score is 100. *)
Lemma education_match_no_entries_is_full :
  education_match (Matching.calculate_hard_match Rapidfuzz.ratio Rapidfuzz.partial_ratio
                     empty_resume job_requires_phd) = 100%R
  /\ (Spec.education_fraction (default [] (resume_education empty_resume))
        (default [] (job_education_requirements job_requires_phd)) * 100)%R = 0%R
  /\ education_match (Matching.calculate_hard_match Rapidfuzz.ratio Rapidfuzz.partial_ratio
                        empty_resume job_requires_phd) <> 0%R.
Proof.
  assert (education_match (Matching.calculate_hard_match Rapidfuzz.ratio
                             Rapidfuzz.partial_ratio empty_resume job_requires_phd) = 100%R)
    as H by (rewrite education_match_unfold; reflexivity).
  split; [exact H|]. split.
  - unfold Spec.education_fraction.
    change (List.filter _ (default [] (job_education_requirements job_requires_phd)))
      with (@nil string).
    simpl. lra.
  - rewrite H. lra.
Qed.

Lemma experience_match_cases_witness :
  experience_match (Matching.calculate_hard_match Rapidfuzz.ratio Rapidfuzz.partial_ratio
                      (resume_of_text "5 years of experience")
                      (job_of_experience (Some 3%Z) (Some 8%Z))) = 100%R
  /\ experience_match (Matching.calculate_hard_match Rapidfuzz.ratio Rapidfuzz.partial_ratio
                         (resume_of_text "12 years of experience")
                         (job_of_experience (Some 3%Z) (Some 8%Z))) = 80%R
  /\ experience_match (Matching.calculate_hard_match Rapidfuzz.ratio Rapidfuzz.partial_ratio
                         resume_near_high job_near_high)
     = (IZR (Matching._extract_experience_years "1 year of experience") / 21 * 100)%R
  /\ experience_match (Matching.calculate_hard_match Rapidfuzz.ratio Rapidfuzz.partial_ratio
                         (resume_of_text "8 years of experience") empty_job) = 100%R
  /\ experience_match (Matching.calculate_hard_match Rapidfuzz.ratio Rapidfuzz.partial_ratio
                         (resume_of_text "15 years of experience")
                         (job_of_experience (Some 0%Z) None)) = 80%R
  /\ experience_match (Matching.calculate_hard_match Rapidfuzz.ratio Rapidfuzz.partial_ratio
                         (resume_of_text "Python developer") empty_job) = 100%R
  /\ default (if (3 >=? 0)%Z then (3 + 10)%Z else 10%Z)
             (job_max_experience (job_of_experience (Some 3%Z) None)) = 13%Z.
Proof.
  pose proof (experience_match_cases Rapidfuzz.ratio Rapidfuzz.partial_ratio) as H.
  cbv zeta in H.
  split; [|split; [|split; [|split; [|split; [|split]]]]].
  - destruct (H (resume_of_text "5 years of experience")
                (job_of_experience (Some 3%Z) (Some 8%Z))) as (Hin & _).
    apply Hin. vm_compute. split; discriminate.
  - destruct (H (resume_of_text "12 years of experience")
                (job_of_experience (Some 3%Z) (Some 8%Z))) as (_ & Habove & _).
    apply Habove; vm_compute; first [reflexivity | discriminate].
  - destruct (H resume_near_high job_near_high) as (_ & _ & Hbelow & _).
    apply Hbelow; vm_compute; reflexivity.
  - destruct (H (resume_of_text "8 years of experience") empty_job)
      as (_ & _ & _ & Hzero & _).
    apply Hzero; vm_compute; first [reflexivity | discriminate].
  - destruct (H (resume_of_text "15 years of experience")
                (job_of_experience (Some 0%Z) None)) as (_ & _ & _ & _ & Habove & _).
    apply Habove; vm_compute; reflexivity.
  - destruct (H (resume_of_text "Python developer") empty_job)
      as (_ & _ & _ & _ & _ & Hnone & _).
    apply Hnone.
    + reflexivity.
    + vm_compute. reflexivity.
    + vm_compute. lia.
    + left. reflexivity.
  - destruct (H empty_resume (job_of_experience (Some 3%Z) None))
      as (_ & _ & _ & _ & _ & _ & Hdefault).
    apply Hdefault.
    + reflexivity.
    + vm_compute. discriminate.
Defined.

(** C8, as the specification states it, fails on a job with the minimum
    0 and no maximum against a resume with 15 years of experience: the
    years exceed the default maximum 10, and the score is 80, not 100. *)
Lemma experience_match_min_zero_above_max :
  default 0%Z (job_min_experience (job_of_experience (Some 0%Z) None)) = 0%Z
  /\ Matching._extract_experience_years "15 years of experience" = 15%Z
  /\ experience_match
       (Matching.calculate_hard_match Rapidfuzz.ratio Rapidfuzz.partial_ratio
          (resume_of_text "15 years of experience")
          (job_of_experience (Some 0%Z) None)) = 80%R
  /\ experience_match
       (Matching.calculate_hard_match Rapidfuzz.ratio Rapidfuzz.partial_ratio
          (resume_of_text "15 years of experience")
          (job_of_experience (Some 0%Z) None)) <> 100%R.
Proof.
  assert (experience_match
            (Matching.calculate_hard_match Rapidfuzz.ratio Rapidfuzz.partial_ratio
               (resume_of_text "15 years of experience")
               (job_of_experience (Some 0%Z) None)) = 80%R) as H.
  { rewrite experience_match_unfold.
    replace (Matching._extract_experience_years
               (default "" (resume_raw_text (resume_of_text "15 years of experience"))))
      with 15%Z by (vm_compute; reflexivity).
    simpl. rewrite experience_score_above by lia. reflexivity. }
  split; [reflexivity|]. split; [vm_compute; reflexivity|].
  split; [exact H|]. rewrite H. lra.
Qed.

(** ** Rounding and clamping *)

Lemma Int_part_bounds (y : R) : (IZR (Int_part y) <= y < IZR (Int_part y) + 1)%R.
Proof. destruct (base_Int_part y) as [H1 H2]. lra. Qed.

(** A number less than a half away from an integer rounds to it. *)
Lemma round_half_even_near (y : R) (z : Z) :
  (IZR z - 1 / 2 < y < IZR z + 1 / 2)%R -> Scoring.round_half_even y = z.
Proof.
  intros [Hlo Hhi]. unfold Scoring.round_half_even.
  destruct (Int_part_bounds y) as [Hn1 Hn2].
  assert (Int_part y <= z)%Z as Hle.
  { apply Z.lt_succ_r, lt_IZR. rewrite succ_IZR. lra. }
  assert (z <= Int_part y + 1)%Z as Hge.
  { apply Z.lt_succ_r, lt_IZR. rewrite succ_IZR, plus_IZR. lra. }
  assert (Int_part y = z \/ Int_part y = (z - 1)%Z) as [Hn | Hn] by lia.
  - rewrite Hn in *. destruct (Rlt_dec (y - IZR z) (1 / 2)); [reflexivity | lra].
  - rewrite Hn in *. rewrite minus_IZR in *.
    destruct (Rlt_dec (y - (IZR z - 1)) (1 / 2)); [lra|].
    destruct (Rgt_dec (y - (IZR z - 1)) (1 / 2)); [lia | lra].
Qed.

Lemma round_half_even_IZR (z : Z) : Scoring.round_half_even (IZR z) = z.
Proof. apply round_half_even_near. lra. Qed.

(** Rounding stays between two integers that bound the number. *)
Lemma round_half_even_bounds (y : R) (a b : Z) :
  (IZR a <= y <= IZR b)%R -> (a <= Scoring.round_half_even y <= b)%Z.
Proof.
  intros [Ha Hb]. unfold Scoring.round_half_even.
  destruct (Int_part_bounds y) as [Hn1 Hn2].
  assert (a <= Int_part y)%Z as Hlo.
  { apply Z.lt_succ_r, lt_IZR. rewrite succ_IZR. lra. }
  assert (Int_part y <= b)%Z as Hhi.
  { apply le_IZR. lra. }
  destruct (Rlt_dec (y - IZR (Int_part y)) (1 / 2)); [lia|].
  assert (Int_part y + 1 <= b)%Z.
  { apply Z.lt_succ_r, lt_IZR. rewrite succ_IZR, plus_IZR. lra. }
  destruct (Rgt_dec (y - IZR (Int_part y)) (1 / 2)); [lia|].
  destruct (Z.even (Int_part y)); lia.
Qed.

Lemma round2_bounds (x : R) : (0 <= x <= 100)%R -> (0 <= Scoring.round2 x <= 100)%R.
Proof.
  intros Hx. unfold Scoring.round2.
  destruct (round_half_even_bounds (x * 100) 0 10000) as [H1 H2]; [lra|].
  apply IZR_le in H1, H2. lra.
Qed.

(** A number with two decimals is left as it is. *)
Lemma round2_hundredths (z : Z) : Scoring.round2 (IZR z / 100) = (IZR z / 100)%R.
Proof.
  unfold Scoring.round2.
  replace (IZR z / 100 * 100)%R with (IZR z) by (field; lra).
  rewrite round_half_even_IZR. reflexivity.
Qed.

Lemma round2_100 : Scoring.round2 100 = 100%R.
Proof. replace 100%R with (IZR 10000 / 100)%R by lra. apply round2_hundredths. Qed.

Lemma round2_near (x : R) (z : Z) :
  (IZR z - 1 / 2 < x * 100 < IZR z + 1 / 2)%R -> Scoring.round2 x = (IZR z / 100)%R.
Proof. intros H. unfold Scoring.round2. rewrite (round_half_even_near _ z H). reflexivity. Qed.

Lemma clamp_bounds (x : R) : (0 <= Scoring.clamp x <= 100)%R.
Proof.
  unfold Scoring.clamp, Py.Rgtb, Py.Rltb.
  destruct (Rgt_dec x 100); [destruct (Rlt_dec 100.0 0); lra|].
  destruct (Rlt_dec x 0); lra.
Qed.

Lemma clamp_inside (x : R) : (0 <= x <= 100)%R -> Scoring.clamp x = x.
Proof.
  intros Hx. unfold Scoring.clamp, Py.Rgtb, Py.Rltb.
  destruct (Rgt_dec x 100); [lra|]. destruct (Rlt_dec x 0); [lra | reflexivity].
Qed.

Lemma clamp_above (x : R) : (100 < x)%R -> Scoring.clamp x = 100%R.
Proof.
  intros Hx. unfold Scoring.clamp, Py.Rgtb, Py.Rltb.
  destruct (Rgt_dec x 100); [|lra]. destruct (Rlt_dec 100.0 0); lra.
Qed.

Lemma clamp_below (x : R) : (x < 0)%R -> Scoring.clamp x = 0%R.
Proof.
  intros Hx. unfold Scoring.clamp, Py.Rgtb, Py.Rltb.
  destruct (Rgt_dec x 100); [lra|]. destruct (Rlt_dec x 0); lra.
Qed.

(** The clamp is the one of the specification, [min(max(x, 0), 100)]. *)
Lemma clamp_min_max (x : R) : Scoring.clamp x = Rmin (Rmax x 0) 100.
Proof.
  unfold Rmin, Rmax.
  destruct (Rle_dec x 0), (Rle_dec _ 100); try lra.
  - destruct (Req_dec x 0) as [->|]; [rewrite clamp_inside; lra | rewrite clamp_below; lra].
  - apply clamp_inside. lra.
  - apply clamp_above. lra.
Qed.

(** ** The verdict *)

Lemma verdict_of_high (cfg : Config) (x : R) :
  Scoring.verdict_of cfg x = Scoring.HIGH <-> (x >= HIGH_THRESHOLD cfg)%R.
Proof.
  unfold Scoring.verdict_of, Py.Rgeb.
  destruct (Rge_dec x (HIGH_THRESHOLD cfg)); [tauto|].
  destruct (Rge_dec x (MEDIUM_THRESHOLD cfg)); split; intros; try discriminate; lra.
Qed.

Lemma verdict_of_medium (cfg : Config) (x : R) :
  Scoring.verdict_of cfg x = Scoring.MEDIUM
  <-> (x < HIGH_THRESHOLD cfg)%R /\ (x >= MEDIUM_THRESHOLD cfg)%R.
Proof.
  unfold Scoring.verdict_of, Py.Rgeb.
  destruct (Rge_dec x (HIGH_THRESHOLD cfg)); [split; [discriminate | lra]|].
  destruct (Rge_dec x (MEDIUM_THRESHOLD cfg)); split; intros; try discriminate;
    try lra; auto.
Qed.

Lemma verdict_of_low (cfg : Config) (x : R) :
  Scoring.verdict_of cfg x = Scoring.LOW
  <-> (x < HIGH_THRESHOLD cfg)%R /\ (x < MEDIUM_THRESHOLD cfg)%R.
Proof.
  unfold Scoring.verdict_of, Py.Rgeb.
  destruct (Rge_dec x (HIGH_THRESHOLD cfg)); [split; [discriminate | lra]|].
  destruct (Rge_dec x (MEDIUM_THRESHOLD cfg)); split; intros; try discriminate;
    try lra; auto.
Qed.

(** ** The embedding similarity *)

Lemma np_dot_same_length (v1 v2 : list R) :
  length v1 = length v2 -> Matching.np_dot v1 v2 = Some (Matching.dot_aux v1 v2).
Proof. intros H. unfold Matching.np_dot. rewrite H, Nat.eqb_refl. reflexivity. Qed.

(** Vectors of one length never make [calculate_similarity] raise. *)
Lemma calculate_similarity_total (v1 v2 : list R) :
  length v1 = length v2 -> exists s, Embedding.calculate_similarity v1 v2 = Some s.
Proof.
  intros H. unfold Embedding.calculate_similarity.
  destruct (Py.Reqb (Matching.np_norm v1) 0 || Py.Reqb (Matching.np_norm v2) 0);
    [eauto|].
  rewrite (np_dot_same_length v1 v2 H). simpl. eauto.
Qed.

Lemma calculate_similarity_zero_norm (v1 v2 : list R) :
  Matching.np_norm v1 = 0%R \/ Matching.np_norm v2 = 0%R ->
  Embedding.calculate_similarity v1 v2 = Some 0%R.
Proof.
  intros H. unfold Embedding.calculate_similarity.
  replace (Py.Reqb (Matching.np_norm v1) 0 || Py.Reqb (Matching.np_norm v2) 0) with true;
    [reflexivity|].
  symmetry. apply orb_true_iff.
  destruct H as [H | H]; [left | right]; apply Reqb_true; exact H.
Qed.

Lemma calculate_similarity_cosine (v1 v2 : list R) :
  length v1 = length v2 ->
  Matching.np_norm v1 <> 0%R -> Matching.np_norm v2 <> 0%R ->
  Embedding.calculate_similarity v1 v2
  = Some (Matching.dot_aux v1 v2 / (Matching.np_norm v1 * Matching.np_norm v2) * 100)%R.
Proof.
  intros Hlen H1 H2. unfold Embedding.calculate_similarity.
  rewrite (proj2 (Reqb_false _ _) H1), (proj2 (Reqb_false _ _) H2).
  rewrite (np_dot_same_length v1 v2 Hlen). reflexivity.
Qed.

(** The norm of a vector whose squares sum to the square of [n]. *)
Lemma np_norm_of_square (v : list R) (n : R) :
  (0 <= n)%R -> Matching.dot_aux v v = (n * n)%R -> Matching.np_norm v = n.
Proof. intros Hn Hv. unfold Matching.np_norm. rewrite Hv. apply sqrt_square. exact Hn. Qed.

(** When the soft-match scorer returns, its embedding sub-score is the
    similarity of the embedding service. *)
Lemma soft_match_embedding_similarity
      (tfidf_cosine : string -> string -> option R)
      (resume_text job_text : string) (e1 e2 : list R) (sm : SoftMatch) :
  Matching.calculate_soft_match tfidf_cosine resume_text job_text (Some e1) (Some e2)
  = Some sm ->
  Embedding.calculate_similarity e1 e2 = Some (embedding_similarity sm).
Proof.
  unfold Matching.calculate_soft_match, Matching._cosine_similarity,
    Embedding.calculate_similarity.
  destruct (Matching.np_dot e1 e2) as [d|] eqn:Hd; simpl; [|discriminate].
  destruct (Py.Reqb (Matching.np_norm e1) 0 || Py.Reqb (Matching.np_norm e2) 0);
    simpl; intros H; inversion H; subst; simpl; f_equal; lra.
Qed.

(** ** The fusion and verdict engine *)

Section EngineFacts.

Variable fuzz_ratio : string -> string -> R.
Variable fuzz_partial_ratio : string -> string -> R.
Variable encode : string -> list R.
Variable dim : nat.
Variable cfg : Config.

Local Abbreviation hard_match :=
  (Matching.calculate_hard_match fuzz_ratio fuzz_partial_ratio).
Local Abbreviation evaluate :=
  (Scoring.evaluate_resume fuzz_ratio fuzz_partial_ratio encode dim cfg).
Local Abbreviation embedding_of :=
  (Scoring.embedding_or_generate encode dim).

(** What an evaluation holds, when [evaluate_resume] returns one. *)
Lemma evaluate_resume_inv (resume : Resume) (job_desc : Job) (ev : Scoring.Evaluation) :
  evaluate resume job_desc = Some ev ->
  exists soft,
    Embedding.calculate_similarity
      (embedding_of (resume_embeddings resume) (resume_processed_text resume))
      (embedding_of (job_embeddings job_desc) (job_processed_text job_desc)) = Some soft
    /\ ev = {| Scoring.eval_resume_id := default "" (resume_id resume);
               Scoring.eval_job_id := default "" (job_id job_desc);
               Scoring.relevance_score :=
                 Scoring.round2
                   (Scoring.clamp
                      (Scoring.combine cfg (overall_hard_match (hard_match resume job_desc)) soft));
               Scoring.hard_match_score :=
                 Scoring.round2 (overall_hard_match (hard_match resume job_desc));
               Scoring.soft_match_score := Scoring.round2 soft;
               Scoring.analysis_matched_skills := matched_skills (hard_match resume job_desc);
               Scoring.analysis_missing_skills := missing_skills (hard_match resume job_desc);
               Scoring.analysis_experience_details :=
                 (details_resume_experience (hard_match resume job_desc),
                  details_required_experience (hard_match resume job_desc));
               Scoring.verdict :=
                 Scoring.verdict_of cfg
                   (Scoring.clamp
                      (Scoring.combine cfg (overall_hard_match (hard_match resume job_desc)) soft));
               Scoring.feedback :=
                 Scoring.generate_feedback (matched_skills (hard_match resume job_desc))
                                           (missing_skills (hard_match resume job_desc)) |}.
Proof.
  unfold Scoring.evaluate_resume.
  destruct (Embedding.calculate_similarity _ _) as [soft|]; simpl; [|discriminate].
  intros H. inversion H. exists soft. split; reflexivity.
Qed.

Lemma evaluate_resume_total (resume : Resume) (job_desc : Job) :
  length (embedding_of (resume_embeddings resume) (resume_processed_text resume))
  = length (embedding_of (job_embeddings job_desc) (job_processed_text job_desc)) ->
  exists ev, evaluate resume job_desc = Some ev.
Proof.
  intros Hlen. unfold Scoring.evaluate_resume.
  destruct (calculate_similarity_total _ _ Hlen) as [soft Hs]. rewrite Hs. simpl. eauto.
Qed.


(** C2, as the code has it: the relevance score of an evaluation is the
    weighted sum of the hard and the soft score, with the configured weights
    as they are, clamped to the interval from 0 to 100 and then rounded to
    two decimals; clamped and rounded, it lies between 0 and 100.  The
    weights default to 0.4 and 0.6.  An evaluation exists as soon as the
    two embeddings have one length. *)
Theorem relevance_score_rounded_clamp (resume : Resume) (job_desc : Job) :
  (length (embedding_of (resume_embeddings resume) (resume_processed_text resume))
   = length (embedding_of (job_embeddings job_desc) (job_processed_text job_desc)) ->
   exists ev, evaluate resume job_desc = Some ev)
  /\ (forall ev,
         evaluate resume job_desc = Some ev ->
         exists soft,
           Embedding.calculate_similarity
             (embedding_of (resume_embeddings resume) (resume_processed_text resume))
             (embedding_of (job_embeddings job_desc) (job_processed_text job_desc))
           = Some soft
           /\ let hard := overall_hard_match (hard_match resume job_desc) in
              let clamped :=
                Rmin (Rmax (hard * HARD_MATCH_WEIGHT cfg + soft * SOFT_MATCH_WEIGHT cfg) 0) 100 in
              Scoring.relevance_score ev = Scoring.round2 clamped
              /\ (0 <= clamped <= 100)%R
              /\ (0 <= Scoring.relevance_score ev <= 100)%R)
  /\ HARD_MATCH_WEIGHT default_config = 0.4%R
  /\ SOFT_MATCH_WEIGHT default_config = 0.6%R.
Proof.
  split; [apply evaluate_resume_total|]. split; [|split; reflexivity].
  intros ev Hev. destruct (evaluate_resume_inv resume job_desc ev Hev) as (soft & Hs & ->).
  exists soft. split; [exact Hs|]. cbv zeta. cbn [Scoring.relevance_score].
  rewrite <- clamp_min_max. fold (Scoring.combine cfg (overall_hard_match (hard_match resume job_desc)) soft).
  pose proof (clamp_bounds
                (Scoring.combine cfg (overall_hard_match (hard_match resume job_desc)) soft)) as Hc.
  split; [reflexivity|]. split; [exact Hc|]. apply round2_bounds. exact Hc.
Qed.

(** C1, as the code has it: the soft score of an evaluation is the
    similarity the embedding service computes from the two embeddings, the
    cosine in percent; it is the embedding sub-score of the soft-match
    scorer, whose weighted [overall_soft_match] the engine never reads. *)
Theorem soft_score_is_embedding_similarity
        (resume : Resume) (job_desc : Job) (ev : Scoring.Evaluation) :
  evaluate resume job_desc = Some ev ->
  let e1 := embedding_of (resume_embeddings resume) (resume_processed_text resume) in
  let e2 := embedding_of (job_embeddings job_desc) (job_processed_text job_desc) in
  exists soft,
    Embedding.calculate_similarity e1 e2 = Some soft
    /\ Scoring.soft_match_score ev = Scoring.round2 soft
    /\ Scoring.relevance_score ev
       = Scoring.round2
           (Scoring.clamp
              (overall_hard_match (hard_match resume job_desc) * HARD_MATCH_WEIGHT cfg
               + soft * SOFT_MATCH_WEIGHT cfg))
    /\ (Matching.np_norm e1 <> 0%R -> Matching.np_norm e2 <> 0%R ->
        soft = (Matching.dot_aux e1 e2 / (Matching.np_norm e1 * Matching.np_norm e2) * 100)%R)
    /\ (forall tfidf_cosine resume_text job_text sm,
           Matching.calculate_soft_match tfidf_cosine resume_text job_text (Some e1) (Some e2)
           = Some sm ->
           soft = embedding_similarity sm).
Proof.
  intros Hev e1 e2.
  destruct (evaluate_resume_inv resume job_desc ev Hev) as (soft & Hs & ->).
  fold e1 e2 in Hs. exists soft.
  split; [exact Hs|]. split; [reflexivity|]. split; [reflexivity|]. split.
  - intros H1 H2. unfold Embedding.calculate_similarity in Hs.
    rewrite (proj2 (Reqb_false _ _) H1), (proj2 (Reqb_false _ _) H2) in Hs. simpl in Hs.
    unfold Matching.np_dot in Hs.
    destruct (length e1 =? length e2)%nat; simpl in Hs; [|discriminate].
    inversion Hs. reflexivity.
  - intros tfidf_cosine resume_text job_text sm Hsm.
    apply soft_match_embedding_similarity in Hsm. congruence.
Qed.

(** C3, as the code has it: the verdict of an evaluation is read off the
    clamped score before it is rounded: HIGH when that score is at least
    the high threshold, MEDIUM when it is below it and at least the medium
    threshold, LOW otherwise; a score equal to a threshold is in the
    higher tier; with the default thresholds 75.0 is HIGH, 74.999 is
    MEDIUM, 50.0 is MEDIUM and 49.999 is LOW.  The relevance score the
    evaluation stores is that score rounded to two decimals, and the
    verdict is not a function of it. *)
Theorem verdict_tiers :
  (forall resume job_desc ev,
      evaluate resume job_desc = Some ev ->
      exists soft,
        Embedding.calculate_similarity
          (embedding_of (resume_embeddings resume) (resume_processed_text resume))
          (embedding_of (job_embeddings job_desc) (job_processed_text job_desc))
        = Some soft
        /\ let score :=
             Scoring.clamp
               (overall_hard_match (hard_match resume job_desc) * HARD_MATCH_WEIGHT cfg
                + soft * SOFT_MATCH_WEIGHT cfg) in
           Scoring.relevance_score ev = Scoring.round2 score
           /\ (Scoring.verdict ev = Scoring.HIGH <-> (score >= HIGH_THRESHOLD cfg)%R)
           /\ (Scoring.verdict ev = Scoring.MEDIUM
               <-> (score < HIGH_THRESHOLD cfg)%R /\ (score >= MEDIUM_THRESHOLD cfg)%R)
           /\ (Scoring.verdict ev = Scoring.LOW
               <-> (score < HIGH_THRESHOLD cfg)%R /\ (score < MEDIUM_THRESHOLD cfg)%R))
  /\ Scoring.verdict_of cfg (HIGH_THRESHOLD cfg) = Scoring.HIGH
  /\ ((MEDIUM_THRESHOLD cfg < HIGH_THRESHOLD cfg)%R ->
      Scoring.verdict_of cfg (MEDIUM_THRESHOLD cfg) = Scoring.MEDIUM)
  /\ Scoring.verdict_of cfg (MEDIUM_THRESHOLD cfg) <> Scoring.LOW
  /\ Scoring.verdict_of default_config 75.0 = Scoring.HIGH
  /\ Scoring.verdict_of default_config 74.999 = Scoring.MEDIUM
  /\ Scoring.verdict_of default_config 50.0 = Scoring.MEDIUM
  /\ Scoring.verdict_of default_config 49.999 = Scoring.LOW.
Proof.
  split.
  { intros resume job_desc ev Hev.
    destruct (evaluate_resume_inv resume job_desc ev Hev) as (soft & Hs & ->).
    exists soft. split; [exact Hs|]. cbv zeta.
    cbn [Scoring.verdict Scoring.relevance_score]. split; [reflexivity|].
    split; [apply verdict_of_high|]. split; [apply verdict_of_medium | apply verdict_of_low]. }
  split; [apply verdict_of_high; lra|].
  split; [intros H; apply verdict_of_medium; lra|].
  split; [rewrite verdict_of_low; lra|].
  split; [apply verdict_of_high; simpl; lra|].
  split; [apply verdict_of_medium; simpl; lra|].
  split; [apply verdict_of_medium; simpl; lra|].
  apply verdict_of_low; simpl; lra.
Qed.

End EngineFacts.

(** ** Two evaluations worked out *)

Section Examples.

Variable fuzz_ratio : string -> string -> R.
Variable fuzz_partial_ratio : string -> string -> R.
Variable encode : string -> list R.
Variable dim : nat.

Local Abbreviation hard_match :=
  (Matching.calculate_hard_match fuzz_ratio fuzz_partial_ratio).
Local Abbreviation evaluate :=
  (Scoring.evaluate_resume fuzz_ratio fuzz_partial_ratio encode dim default_config).

Lemma overall_hard_match_unfold (resume : Resume) (job_desc : Job) :
  overall_hard_match (hard_match resume job_desc)
  = (skills_match (hard_match resume job_desc) * 0.5
     + experience_match (hard_match resume job_desc) * 0.3
     + education_match (hard_match resume job_desc) * 0.15
     + certification_match (hard_match resume job_desc) * 0.05)%R.
Proof. reflexivity. Qed.

Lemma certification_match_unfold (resume : Resume) (job_desc : Job) :
  certification_match (hard_match resume job_desc)
  = Matching.coverage_score
      (Matching.matched_of fuzz_ratio fuzz_partial_ratio
         (map Py.lower (default [] (job_certifications_required job_desc)))
         (map Py.lower (default [] (resume_certifications resume))) 70)
      (map Py.lower (default [] (job_certifications_required job_desc))) 100.
Proof. reflexivity. Qed.

(** A job that lists no skill, no education requirement and no
    certificate leaves the experience score to decide. *)
Lemma overall_hard_match_experience_only (resume : Resume) (job_desc : Job) :
  default [] (job_required_skills job_desc) = [] ->
  default [] (job_optional_skills job_desc) = [] ->
  default [] (job_education_requirements job_desc) = [] ->
  default [] (job_certifications_required job_desc) = [] ->
  overall_hard_match (hard_match resume job_desc)
  = (70 + experience_match (hard_match resume job_desc) * 0.3)%R.
Proof.
  intros Hreq Hopt Hedu Hcert.
  rewrite overall_hard_match_unfold, (skills_match_unfold fuzz_ratio fuzz_partial_ratio),
    (education_match_unfold fuzz_ratio fuzz_partial_ratio), certification_match_unfold.
  rewrite Hreq, Hopt, Hedu, Hcert.
  unfold Spec.skills_match, Matching.coverage_score, Matching.matched_of. simpl. lra.
Qed.

Lemma overall_hard_near_high :
  overall_hard_match (hard_match resume_near_high job_near_high) = (1500 / 21)%R.
Proof.
  rewrite overall_hard_match_experience_only by reflexivity.
  rewrite (experience_match_unfold fuzz_ratio fuzz_partial_ratio).
  replace (Matching._extract_experience_years (default "" (resume_raw_text resume_near_high)))
    with 1%Z by (vm_compute; reflexivity).
  simpl. rewrite experience_score_below by lia. lra.
Qed.

Lemma overall_hard_unit :
  overall_hard_match (hard_match resume_unit job_unit) = 100%R.
Proof.
  rewrite overall_hard_match_experience_only by reflexivity.
  rewrite (experience_match_unfold fuzz_ratio fuzz_partial_ratio).
  replace (Matching._extract_experience_years (default "" (resume_raw_text resume_unit)))
    with 0%Z by (vm_compute; reflexivity).
  simpl. rewrite experience_score_within by lia. lra.
Qed.

Lemma similarity_near_high :
  Embedding.calculate_similarity [15; 8]%R [5; 12]%R = Some (17100 / 221)%R.
Proof.
  assert (Matching.np_norm [15; 8]%R = 17%R) as H1
      by (apply np_norm_of_square; simpl; lra).
  assert (Matching.np_norm [5; 12]%R = 13%R) as H2
      by (apply np_norm_of_square; simpl; lra).
  rewrite calculate_similarity_cosine by (rewrite ?H1, ?H2; simpl; first [reflexivity | lra]).
  rewrite H1, H2. simpl. f_equal. lra.
Qed.

Lemma similarity_unit :
  Embedding.calculate_similarity [1; 0]%R [1; 0]%R = Some 100%R.
Proof.
  assert (Matching.np_norm [1; 0]%R = 1%R) as H1
      by (apply np_norm_of_square; simpl; lra).
  rewrite calculate_similarity_cosine by (rewrite ?H1; simpl; first [reflexivity | lra]).
  rewrite H1. simpl. f_equal. lra.
Qed.

(** The resume with one year of experience against the job asking for 21:
    the weighted sum is 348060/4641, just under 75; the score stored is
    75.0 and the verdict is MEDIUM. *)
Lemma evaluate_near_high :
  exists ev,
    evaluate resume_near_high job_near_high = Some ev
    /\ Scoring.combine default_config
         (overall_hard_match (hard_match resume_near_high job_near_high)) (17100 / 221)
       = (348060 / 4641)%R
    /\ Scoring.relevance_score ev = 75.0%R
    /\ Scoring.verdict ev = Scoring.MEDIUM.
Proof.
  assert (Scoring.combine default_config
            (overall_hard_match (hard_match resume_near_high job_near_high)) (17100 / 221)
          = (348060 / 4641)%R) as Hraw.
  { rewrite overall_hard_near_high. unfold Scoring.combine. simpl. lra. }
  unfold Scoring.evaluate_resume.
  change (Scoring.embedding_or_generate encode dim (resume_embeddings resume_near_high)
            (resume_processed_text resume_near_high)) with [15; 8]%R.
  change (Scoring.embedding_or_generate encode dim (job_embeddings job_near_high)
            (job_processed_text job_near_high)) with [5; 12]%R.
  rewrite similarity_near_high. cbn [mbind option_bind].
  eexists. split; [reflexivity|]. split; [exact Hraw|].
  cbn [Scoring.relevance_score Scoring.verdict]. rewrite Hraw.
  rewrite clamp_inside by lra. split.
  - rewrite (round2_near _ 7500) by lra. lra.
  - apply verdict_of_medium. simpl. lra.
Qed.

(** The resume and the job with the same embedding and nothing else: both
    scores are 100, and so is the relevance score. *)
Lemma evaluate_unit :
  exists ev,
    evaluate resume_unit job_unit = Some ev
    /\ Scoring.soft_match_score ev = 100%R
    /\ Scoring.relevance_score ev = 100%R
    /\ Scoring.verdict ev = Scoring.HIGH.
Proof.
  unfold Scoring.evaluate_resume.
  change (Scoring.embedding_or_generate encode dim (resume_embeddings resume_unit)
            (resume_processed_text resume_unit)) with [1; 0]%R.
  change (Scoring.embedding_or_generate encode dim (job_embeddings job_unit)
            (job_processed_text job_unit)) with [1; 0]%R.
  rewrite similarity_unit. cbn [mbind option_bind].
  eexists. split; [reflexivity|].
  cbn [Scoring.relevance_score Scoring.soft_match_score Scoring.verdict].
  rewrite overall_hard_unit.
  assert (Scoring.combine default_config 100 100 = 100%R) as Hraw
      by (unfold Scoring.combine; simpl; lra).
  rewrite Hraw, clamp_inside by lra.
  rewrite round2_100.
  split; [reflexivity|]. split; [reflexivity|]. apply verdict_of_high. simpl. lra.
Qed.

End Examples.

(** C10: the verdict of an evaluation is computed from the clamped score,
    the [relevance_score] field is that score rounded to two decimals; the
    resume with one year of experience and the job asking for 21, whose
    weighted sum 348060/4641 lies between 74.995 and 75, has the field
    75.0, which is in the HIGH tier, and the verdict MEDIUM. *)
Theorem verdict_before_rounding
        (fuzz_ratio fuzz_partial_ratio : string -> string -> R)
        (encode : string -> list R) (dim : nat) :
  (forall cfg resume job_desc ev,
      Scoring.evaluate_resume fuzz_ratio fuzz_partial_ratio encode dim cfg resume job_desc
      = Some ev ->
      exists soft,
        Embedding.calculate_similarity
          (Scoring.embedding_or_generate encode dim (resume_embeddings resume)
             (resume_processed_text resume))
          (Scoring.embedding_or_generate encode dim (job_embeddings job_desc)
             (job_processed_text job_desc)) = Some soft
        /\ let score :=
             Scoring.clamp
               (overall_hard_match
                  (Matching.calculate_hard_match fuzz_ratio fuzz_partial_ratio resume job_desc)
                * HARD_MATCH_WEIGHT cfg + soft * SOFT_MATCH_WEIGHT cfg) in
           Scoring.verdict ev = Scoring.verdict_of cfg score
           /\ Scoring.relevance_score ev = Scoring.round2 score)
  /\ (exists ev,
         Scoring.evaluate_resume fuzz_ratio fuzz_partial_ratio encode dim default_config
           resume_near_high job_near_high = Some ev
         /\ Embedding.calculate_similarity [15; 8]%R [5; 12]%R = Some (17100 / 221)%R
         /\ (74.995
             <= overall_hard_match
                  (Matching.calculate_hard_match fuzz_ratio fuzz_partial_ratio
                     resume_near_high job_near_high) * 0.4 + 17100 / 221 * 0.6
             < 75)%R
         /\ Scoring.relevance_score ev = 75.0%R
         /\ Scoring.verdict_of default_config (Scoring.relevance_score ev) = Scoring.HIGH
         /\ Scoring.verdict ev = Scoring.MEDIUM).
Proof.
  split.
  - intros cfg resume job_desc ev Hev.
    destruct (evaluate_resume_inv _ _ _ _ _ _ _ _ Hev) as (soft & Hs & ->).
    exists soft. split; [exact Hs|]. split; reflexivity.
  - destruct (evaluate_near_high fuzz_ratio fuzz_partial_ratio encode dim)
      as (ev & Hev & Hraw & Hscore & Hverdict).
    exists ev. split; [exact Hev|]. split; [apply similarity_near_high|].
    unfold Scoring.combine in Hraw.
    change (HARD_MATCH_WEIGHT default_config) with 0.4%R in Hraw.
    change (SOFT_MATCH_WEIGHT default_config) with 0.6%R in Hraw.
    split; [rewrite Hraw; lra|].
    split; [exact Hscore|]. split; [|exact Hverdict].
    rewrite Hscore. apply verdict_of_high. simpl. lra.
Qed.

Lemma verdict_before_rounding_witness :
  exists ev soft,
    Scoring.evaluate_resume Rapidfuzz.ratio Rapidfuzz.partial_ratio encode_unit 2
      default_config resume_unit job_unit = Some ev
    /\ Embedding.calculate_similarity [1; 0]%R [1; 0]%R = Some soft
    /\ Scoring.verdict ev
       = Scoring.verdict_of default_config
           (Scoring.clamp
              (overall_hard_match
                 (Matching.calculate_hard_match Rapidfuzz.ratio Rapidfuzz.partial_ratio
                    resume_unit job_unit) * 0.4 + soft * 0.6))
    /\ Scoring.relevance_score ev
       = Scoring.round2
           (Scoring.clamp
              (overall_hard_match
                 (Matching.calculate_hard_match Rapidfuzz.ratio Rapidfuzz.partial_ratio
                    resume_unit job_unit) * 0.4 + soft * 0.6)).
Proof.
  destruct (evaluate_unit Rapidfuzz.ratio Rapidfuzz.partial_ratio encode_unit 2)
    as (ev & Hev & _).
  destruct (verdict_before_rounding Rapidfuzz.ratio Rapidfuzz.partial_ratio encode_unit 2)
    as (Hall & _).
  destruct (Hall default_config resume_unit job_unit ev Hev) as (soft & Hs & Hv & Hr).
  exists ev, soft. split; [exact Hev|]. split; [exact Hs|]. split; [exact Hv | exact Hr].
Defined.

Lemma relevance_score_rounded_clamp_witness :
  exists ev soft,
    Scoring.evaluate_resume Rapidfuzz.ratio Rapidfuzz.partial_ratio encode_unit 2
      default_config resume_near_high job_near_high = Some ev
    /\ Embedding.calculate_similarity [15; 8]%R [5; 12]%R = Some soft
    /\ (0 <= Scoring.relevance_score ev <= 100)%R.
Proof.
  destruct (relevance_score_rounded_clamp Rapidfuzz.ratio Rapidfuzz.partial_ratio
              encode_unit 2 default_config resume_near_high job_near_high)
    as (Htotal & Hall & _).
  destruct (Htotal eq_refl) as (ev & Hev).
  destruct (Hall ev Hev) as (soft & Hs & _ & _ & Hbounds).
  exists ev, soft. split; [exact Hev|]. split; [exact Hs | exact Hbounds].
Defined.

(** C2, as the specification states it, fails on the resume with one year
    of experience and the job asking for 21: the clamped sum is
    348060/4641 and the relevance score of the evaluation is 75.0. *)
Lemma relevance_score_is_rounded :
  Scoring.relevance_score
    <$> Scoring.evaluate_resume Rapidfuzz.ratio Rapidfuzz.partial_ratio encode_unit 2
          default_config resume_near_high job_near_high = Some 75.0%R
  /\ Scoring.clamped_relevance Rapidfuzz.ratio Rapidfuzz.partial_ratio encode_unit 2
       default_config resume_near_high job_near_high = Some (348060 / 4641)%R
  /\ (348060 / 4641)%R <> 75.0%R.
Proof.
  destruct (evaluate_near_high Rapidfuzz.ratio Rapidfuzz.partial_ratio encode_unit 2)
    as (ev & Hev & Hraw & Hscore & _).
  split; [rewrite Hev; simpl; f_equal; exact Hscore|]. split; [|lra].
  unfold Scoring.clamped_relevance.
  change (Scoring.embedding_or_generate encode_unit 2 (resume_embeddings resume_near_high)
            (resume_processed_text resume_near_high)) with [15; 8]%R.
  change (Scoring.embedding_or_generate encode_unit 2 (job_embeddings job_near_high)
            (job_processed_text job_near_high)) with [5; 12]%R.
  rewrite similarity_near_high. cbn [mbind option_bind].
  rewrite Hraw, clamp_inside by lra. reflexivity.
Qed.

Lemma soft_score_is_embedding_similarity_witness :
  exists ev soft,
    Scoring.evaluate_resume Rapidfuzz.ratio Rapidfuzz.partial_ratio encode_unit 2
      default_config resume_unit job_unit = Some ev
    /\ Embedding.calculate_similarity [1; 0]%R [1; 0]%R = Some soft
    /\ Scoring.soft_match_score ev = Scoring.round2 soft.
Proof.
  destruct (evaluate_unit Rapidfuzz.ratio Rapidfuzz.partial_ratio encode_unit 2)
    as (ev & Hev & _).
  destruct (soft_score_is_embedding_similarity Rapidfuzz.ratio Rapidfuzz.partial_ratio
              encode_unit 2 default_config resume_unit job_unit ev Hev)
    as (soft & Hs & Hsoft & _).
  exists ev, soft. split; [exact Hev|]. split; [exact Hs | exact Hsoft].
Defined.

(** The soft-match scorer on the resume and the job with the same embedding
    and no text: the vectorizer raises, no keyword is found, the embedding
    sub-score is 100 and the weighted score 50. *)
Lemma soft_match_unit :
  overall_soft_match
    <$> Matching.calculate_soft_match tfidf_fails
          (default "" (resume_processed_text resume_unit))
          (default "" (job_processed_text job_unit))
          (Some [1; 0]%R) (Some [1; 0]%R) = Some 50%R.
Proof.
  assert (Matching.np_norm [1; 0]%R = 1%R) as H1
      by (apply np_norm_of_square; simpl; lra).
  unfold Matching.calculate_soft_match, Matching._cosine_similarity.
  rewrite np_dot_same_length by reflexivity. cbn [mbind option_bind].
  rewrite H1. rewrite (proj2 (Reqb_false 1 0)) by lra.
  cbn [orb mbind option_bind].
  change (Matching._extract_keywords (default "" (job_processed_text job_unit)) 20)
    with (@nil string).
  unfold tfidf_fails. simpl. f_equal. lra.
Qed.

(** C1, as the specification states it, fails on that resume and job: the
    soft score of the evaluation is 100, the embedding similarity, and the
    [overall_soft_match] of the soft-match scorer is 50; the relevance
    score is 100, the one of the soft score 100, and it would be 70 with
    the soft score 50. *)
Lemma soft_score_is_not_overall_soft_match :
  Scoring.soft_match_score
    <$> Scoring.evaluate_resume Rapidfuzz.ratio Rapidfuzz.partial_ratio encode_unit 2
          default_config resume_unit job_unit = Some 100%R
  /\ overall_soft_match
       <$> Matching.calculate_soft_match tfidf_fails
             (default "" (resume_processed_text resume_unit))
             (default "" (job_processed_text job_unit))
             (Some [1; 0]%R) (Some [1; 0]%R) = Some 50%R
  /\ Scoring.relevance_score
       <$> Scoring.evaluate_resume Rapidfuzz.ratio Rapidfuzz.partial_ratio encode_unit 2
             default_config resume_unit job_unit = Some 100%R
  /\ Scoring.round2
       (Scoring.clamp
          (Scoring.combine default_config
             (overall_hard_match
                (Matching.calculate_hard_match Rapidfuzz.ratio Rapidfuzz.partial_ratio
                   resume_unit job_unit)) 50)) = 70%R
  /\ Scoring.round2 50 <> 100%R.
Proof.
  destruct (evaluate_unit Rapidfuzz.ratio Rapidfuzz.partial_ratio encode_unit 2)
    as (ev & Hev & Hsoft & Hscore & _).
  split; [rewrite Hev; simpl; f_equal; exact Hsoft|].
  split; [exact soft_match_unit|].
  split; [rewrite Hev; simpl; f_equal; exact Hscore|].
  split.
  - rewrite overall_hard_unit.
    assert (Scoring.combine default_config 100 50 = 70%R) as Hraw
        by (unfold Scoring.combine; simpl; lra).
    rewrite Hraw, clamp_inside by lra.
    replace 70%R with (IZR 7000 / 100)%R by lra. apply round2_hundredths.
  - replace 50%R with (IZR 5000 / 100)%R by lra. rewrite round2_hundredths. lra.
Qed.

Lemma verdict_tiers_witness :
  (exists ev soft,
      Scoring.evaluate_resume Rapidfuzz.ratio Rapidfuzz.partial_ratio encode_unit 2
        default_config resume_near_high job_near_high = Some ev
      /\ Embedding.calculate_similarity [15; 8]%R [5; 12]%R = Some soft
      /\ Scoring.relevance_score ev
         = Scoring.round2
             (Scoring.clamp
                (overall_hard_match
                   (Matching.calculate_hard_match Rapidfuzz.ratio Rapidfuzz.partial_ratio
                      resume_near_high job_near_high) * 0.4 + soft * 0.6))
      /\ (Scoring.verdict ev = Scoring.MEDIUM
          <-> (Scoring.clamp
                 (overall_hard_match
                    (Matching.calculate_hard_match Rapidfuzz.ratio Rapidfuzz.partial_ratio
                       resume_near_high job_near_high) * 0.4 + soft * 0.6) < 75.0)%R
              /\ (Scoring.clamp
                    (overall_hard_match
                       (Matching.calculate_hard_match Rapidfuzz.ratio Rapidfuzz.partial_ratio
                          resume_near_high job_near_high) * 0.4 + soft * 0.6) >= 50.0)%R))
  /\ Scoring.verdict_of default_config 50.0 = Scoring.MEDIUM.
Proof.
  destruct (verdict_tiers Rapidfuzz.ratio Rapidfuzz.partial_ratio encode_unit 2 default_config)
    as (Hall & _ & Hboundary & _).
  split.
  - destruct (evaluate_near_high Rapidfuzz.ratio Rapidfuzz.partial_ratio encode_unit 2)
      as (ev & Hev & _).
    destruct (Hall resume_near_high job_near_high ev Hev)
      as (soft & Hs & Hfield & _ & Hmedium & _).
    exists ev, soft. split; [exact Hev|]. split; [exact Hs|].
    split; [exact Hfield | exact Hmedium].
  - apply Hboundary. simpl. lra.
Defined.

(** C3, as the specification states it, fails on the resume with one year
    of experience against the job asking for 21: the relevance score of
    the evaluation is 75.0, which is at least the high threshold, and the
    verdict is MEDIUM, not HIGH. *)
Lemma verdict_tier_of_stored_score_fails :
  exists ev,
    Scoring.evaluate_resume Rapidfuzz.ratio Rapidfuzz.partial_ratio encode_unit 2
      default_config resume_near_high job_near_high = Some ev
    /\ Scoring.relevance_score ev = 75.0%R
    /\ (Scoring.relevance_score ev >= HIGH_THRESHOLD default_config)%R
    /\ Scoring.verdict ev = Scoring.MEDIUM
    /\ Scoring.verdict ev <> Scoring.HIGH.
Proof.
  destruct (evaluate_near_high Rapidfuzz.ratio Rapidfuzz.partial_ratio encode_unit 2)
    as (ev & Hev & _ & Hscore & Hverdict).
  exists ev. split; [exact Hev|]. split; [exact Hscore|].
  split; [rewrite Hscore; simpl; lra|].
  split; [exact Hverdict|]. rewrite Hverdict. discriminate.
Qed.

(** ** The embedding similarity: its range *)

(** The inequality of Cauchy and Schwarz on the dot product of two lists. *)
Lemma dot_aux_nonneg (v : list R) : (0 <= Matching.dot_aux v v)%R.
Proof. induction v as [|x v IH]; simpl; [lra | nra]. Qed.

Lemma cauchy_schwarz_step (a x s u w : R) :
  (0 <= u)%R -> (0 <= w)%R -> (s * s <= u * w)%R ->
  ((a * x + s) * (a * x + s) <= (a * a + u) * (x * x + w))%R.
Proof.
  intros Hu Hw Hs.
  assert (2 * (a * x) * s <= a * a * w + x * x * u)%R as Hmid.
  { destruct (Rle_dec (2 * (a * x) * s) 0) as [Hneg | Hpos].
    - nra.
    - apply Rnot_le_lt in Hpos.
      assert (0 <= a * a * w + x * x * u)%R as Hsum by nra.
      apply Rsqr_incr_0_var; [|exact Hsum]. unfold Rsqr.
      assert (4 * (a * a * w) * (x * x * u)
              <= (a * a * w + x * x * u) * (a * a * w + x * x * u))%R as Hamgm.
      { pose proof (Rle_0_sqr (a * a * w - x * x * u)) as Hsq. unfold Rsqr in Hsq. lra. }
      assert ((a * a) * (x * x) * (s * s) <= (a * a) * (x * x) * (u * w))%R as Hprod.
      { apply Rmult_le_compat_l; [|exact Hs].
        apply Rmult_le_pos; apply Rle_0_sqr. }
      replace (2 * (a * x) * s * (2 * (a * x) * s))%R
        with (4 * ((a * a) * (x * x) * (s * s)))%R by ring.
      lra. }
  nra.
Qed.

Lemma cauchy_schwarz (v1 v2 : list R) :
  (Matching.dot_aux v1 v2 * Matching.dot_aux v1 v2
   <= Matching.dot_aux v1 v1 * Matching.dot_aux v2 v2)%R.
Proof.
  revert v2. induction v1 as [|a v1 IH]; intros v2.
  - simpl. pose proof (dot_aux_nonneg v2). lra.
  - destruct v2 as [|x v2].
    + simpl. pose proof (dot_aux_nonneg (a :: v1)). simpl in *. lra.
    + simpl. apply cauchy_schwarz_step;
        [apply dot_aux_nonneg | apply dot_aux_nonneg | apply IH].
Qed.

(** A similarity that is returned is between -100 and 100. *)
Lemma calculate_similarity_range (v1 v2 : list R) (s : R) :
  Embedding.calculate_similarity v1 v2 = Some s -> (-100 <= s <= 100)%R.
Proof.
  unfold Embedding.calculate_similarity.
  destruct (Py.Reqb (Matching.np_norm v1) 0) eqn:H1; simpl;
    [intros H; inversion H; lra|].
  destruct (Py.Reqb (Matching.np_norm v2) 0) eqn:H2; simpl;
    [intros H; inversion H; lra|].
  destruct (Matching.np_dot v1 v2) as [d|] eqn:Hd; simpl; [|discriminate].
  intros H. inversion H. subst s. clear H.
  unfold Matching.np_dot in Hd.
  destruct (length v1 =? length v2)%nat; [|discriminate]. inversion Hd. subst d.
  apply Reqb_false in H1, H2.
  pose proof (sqrt_pos (Matching.dot_aux v1 v1)) as Hn1.
  pose proof (sqrt_pos (Matching.dot_aux v2 v2)) as Hn2.
  fold (Matching.np_norm v1) in Hn1. fold (Matching.np_norm v2) in Hn2.
  set (n := (Matching.np_norm v1 * Matching.np_norm v2)%R).
  assert (0 < n)%R as Hn by (unfold n; nra).
  assert (n * n = Matching.dot_aux v1 v1 * Matching.dot_aux v2 v2)%R as Hnn.
  { unfold n, Matching.np_norm.
    pose proof (sqrt_sqrt _ (dot_aux_nonneg v1)). pose proof (sqrt_sqrt _ (dot_aux_nonneg v2)).
    nra. }
  pose proof (cauchy_schwarz v1 v2) as Hcs. rewrite <- Hnn in Hcs.
  assert (- n <= Matching.dot_aux v1 v2 <= n)%R as [Hlo Hhi] by (split; nra).
  assert (Matching.dot_aux v1 v2 / n * 100 = Matching.dot_aux v1 v2 * 100 / n)%R as ->
      by (field; lra).
  split.
  - apply (Rmult_le_reg_r n); [exact Hn|].
    replace (Matching.dot_aux v1 v2 * 100 / n * n)%R with (Matching.dot_aux v1 v2 * 100)%R
      by (field; lra).
    lra.
  - apply (Rmult_le_reg_r n); [exact Hn|].
    replace (Matching.dot_aux v1 v2 * 100 / n * n)%R with (Matching.dot_aux v1 v2 * 100)%R
      by (field; lra).
    lra.
Qed.

(** C6 fails on two opposite vectors: neither norm is zero, no exception
    is raised, and the similarity is -100, below the interval from 0 to
    100. *)
Theorem calculate_similarity_opposite :
  Embedding.calculate_similarity [1; 0]%R [-1; 0]%R = Some (-100)%R
  /\ ~ (0 <= -100 <= 100)%R.
Proof.
  split; [|lra].
  assert (Matching.np_norm [1; 0]%R = 1%R) as H1
      by (apply np_norm_of_square; simpl; lra).
  assert (Matching.np_norm [-1; 0]%R = 1%R) as H2
      by (apply np_norm_of_square; simpl; lra).
  rewrite calculate_similarity_cosine by (rewrite ?H1, ?H2; simpl; first [reflexivity | lra]).
  rewrite H1, H2. simpl. f_equal. lra.
Qed.

(** ** The embedding store *)

Section StoreFacts.

Variable encode : string -> list R.
Variable dim : nat.
Variable md5_hex15 : string -> Z.

Local Abbreviation store_resume := (Embedding.store_resume_embedding encode dim md5_hex15).
Local Abbreviation store_job := (Embedding.store_job_embedding encode dim md5_hex15).
Local Abbreviation run_ops := (Embedding.run_ops encode dim md5_hex15).
Local Abbreviation apply_op := (Embedding.apply_op encode dim md5_hex15).

Lemma generate_embeddings_empty :
  Embedding.generate_embeddings encode dim "" = repeat 0%R dim.
Proof. reflexivity. Qed.

(** The retry after the "rebuild" is the first attempt again. *)
Lemma add_or_rebuild_add (index : Embedding.FaissIndex)
      (meta : gmap string Embedding.MetaEntry) (embedding : list R) (id_int : Z) :
  Embedding.add_or_rebuild index meta embedding id_int
  = Embedding.add_with_ids index embedding id_int.
Proof.
  unfold Embedding.add_or_rebuild, Embedding._rebuild_index_from_meta.
  destruct (Embedding.add_with_ids index embedding id_int); reflexivity.
Qed.

Lemma add_with_ids_ok (index : Embedding.FaissIndex) (vec : list R) (id : Z) :
  length vec = Embedding.index_d index ->
  Embedding.add_with_ids index vec id
  = Some (Embedding.mkIndex (Embedding.index_d index)
            (Embedding.index_entries index ++ [(id, vec)])).
Proof. intros H. unfold Embedding.add_with_ids. rewrite H, Nat.eqb_refl. reflexivity. Qed.

Lemma add_with_ids_raises (index : Embedding.FaissIndex) (vec : list R) (id : Z) :
  length vec <> Embedding.index_d index -> Embedding.add_with_ids index vec id = None.
Proof.
  intros H. unfold Embedding.add_with_ids.
  destruct (Nat.eqb_spec (length vec) (Embedding.index_d index)); [contradiction | reflexivity].
Qed.

(** A store whose insertion succeeds adds one vector and writes one key. *)
Lemma store_resume_ok (self : Embedding.Service) (resume_id text : string)
      (metadata : option (gmap string string)) :
  length (Embedding.generate_embeddings encode dim text)
  = Embedding.index_d (Embedding.resume_index self) ->
  let self' := fst (store_resume self resume_id text metadata) in
  Embedding.ntotal (Embedding.resume_index self')
  = S (Embedding.ntotal (Embedding.resume_index self))
  /\ Embedding.index_d (Embedding.resume_index self')
     = Embedding.index_d (Embedding.resume_index self)
  /\ Embedding.resume_meta self'
     = <[pretty (md5_hex15 resume_id) :=
           Embedding.mkMeta resume_id (default ∅ metadata)]> (Embedding.resume_meta self).
Proof.
  intros Hlen. unfold Embedding.store_resume_embedding.
  rewrite add_or_rebuild_add, (add_with_ids_ok _ _ _ Hlen). simpl.
  unfold Embedding.ntotal. simpl. rewrite length_app. simpl.
  split; [lia|]. split; reflexivity.
Qed.

(** A store whose insertion fails fails again after the "rebuild": the
    exception escapes and the service is as before. *)
Lemma store_resume_raises (self : Embedding.Service) (resume_id text : string)
      (metadata : option (gmap string string)) :
  length (Embedding.generate_embeddings encode dim text)
  <> Embedding.index_d (Embedding.resume_index self) ->
  store_resume self resume_id text metadata = (self, None).
Proof.
  intros Hlen. unfold Embedding.store_resume_embedding.
  rewrite add_or_rebuild_add, (add_with_ids_raises _ _ _ Hlen). reflexivity.
Qed.

(** C7 fails in two ways.  Storing a resume identifier twice in a new service
    leaves two vectors in the index and one entry in the metadata dict.
    In a service whose index file has another dimension than the encoder
    and whose metadata file has one entry, a store raises, the index is not
    rebuilt, and the empty index still faces one metadata entry. *)
Theorem index_and_metadata_sizes_diverge :
  (let self :=
     run_ops (Embedding.fresh dim)
       [Embedding.StoreResume "r1" "" None; Embedding.StoreResume "r1" "" None] in
   Embedding.ntotal (Embedding.resume_index self) = 2%nat
   /\ size (Embedding.resume_meta self) = 1%nat)
  /\ (let self :=
        Embedding.load dim (Some (Embedding.mkIndex (S dim) [])) None
          (Some {[ "7" := Embedding.mkMeta "r0" ∅ ]}) None in
      store_resume self "r1" "" None = (self, None)
      /\ Embedding._rebuild_index_from_meta
           (Embedding.resume_index self) (Embedding.resume_meta self)
         = Embedding.resume_index self
      /\ Embedding.ntotal (Embedding.resume_index self) = 0%nat
      /\ size (Embedding.resume_meta self) = 1%nat).
Proof.
  split.
  - cbv zeta. unfold Embedding.run_ops. cbn [fold_left Embedding.apply_op].
    destruct (store_resume_ok (Embedding.fresh dim) "r1" "" None) as (Hn1 & Hd1 & Hm1).
    { rewrite generate_embeddings_empty, repeat_length. reflexivity. }
    destruct (store_resume_ok (fst (store_resume (Embedding.fresh dim) "r1" "" None))
                "r1" "" None) as (Hn2 & _ & Hm2).
    { rewrite Hd1, generate_embeddings_empty, repeat_length. reflexivity. }
    cbv zeta in *. rewrite Hn2, Hn1, Hm2, Hm1. split; [reflexivity|].
    rewrite insert_insert_eq. simpl. rewrite insert_empty. apply map_size_singleton.
  - cbv zeta. split; [|split; [reflexivity | split; [reflexivity|]]].
    + apply store_resume_raises. rewrite generate_embeddings_empty, repeat_length.
      simpl. lia.
    + simpl. apply map_size_singleton.
Qed.

Lemma store_job_ok (self : Embedding.Service) (job_id text : string)
      (metadata : option (gmap string string)) :
  length (Embedding.generate_embeddings encode dim text)
  = Embedding.index_d (Embedding.job_index self) ->
  let self' := fst (store_job self job_id text metadata) in
  Embedding.ntotal (Embedding.job_index self')
  = S (Embedding.ntotal (Embedding.job_index self))
  /\ Embedding.job_meta self'
     = <[pretty (md5_hex15 job_id) :=
           Embedding.mkMeta job_id (default ∅ metadata)]> (Embedding.job_meta self)
  /\ Embedding.resume_index self' = Embedding.resume_index self
  /\ Embedding.resume_meta self' = Embedding.resume_meta self.
Proof.
  intros Hlen. unfold Embedding.store_job_embedding.
  rewrite add_or_rebuild_add, (add_with_ids_ok _ _ _ Hlen). simpl.
  unfold Embedding.ntotal. simpl. rewrite length_app. simpl.
  split; [lia|]. repeat split.
Qed.

Lemma store_job_raises (self : Embedding.Service) (job_id text : string)
      (metadata : option (gmap string string)) :
  length (Embedding.generate_embeddings encode dim text)
  <> Embedding.index_d (Embedding.job_index self) ->
  store_job self job_id text metadata = (self, None).
Proof.
  intros Hlen. unfold Embedding.store_job_embedding.
  rewrite add_or_rebuild_add, (add_with_ids_raises _ _ _ Hlen). reflexivity.
Qed.

Lemma size_insert_le {A : Type} (k : string) (x : A) (m : gmap string A) :
  (size (<[k := x]> m) <= S (size m))%nat.
Proof. rewrite map_size_insert. destruct (m !! k); simpl; lia. Qed.

(** What does hold: a store operation adds a vector whenever it writes a
    key, so that a metadata dict that has no more entries than its index has
    vectors keeps it so, whatever the operations. *)
Lemma apply_op_meta_within_index (self : Embedding.Service) (op : Embedding.StoreOp) :
  Embedding.meta_within_index self -> Embedding.meta_within_index (apply_op self op).
Proof.
  intros [Hr Hj]. destruct op as [id text md | id text md]; unfold Embedding.apply_op.
  - destruct (Nat.eq_dec (length (Embedding.generate_embeddings encode dim text))
                         (Embedding.index_d (Embedding.resume_index self))) as [Hlen | Hlen].
    + destruct (store_resume_ok self id text md Hlen) as (Hn & _ & Hm).
      cbv zeta in *. split.
      * rewrite Hn, Hm. pose proof (size_insert_le (pretty (md5_hex15 id))
                                      (Embedding.mkMeta id (default ∅ md))
                                      (Embedding.resume_meta self)). lia.
      * unfold Embedding.store_resume_embedding.
        rewrite add_or_rebuild_add, (add_with_ids_ok _ _ _ Hlen). exact Hj.
    + rewrite (store_resume_raises self id text md Hlen). split; assumption.
  - destruct (Nat.eq_dec (length (Embedding.generate_embeddings encode dim text))
                         (Embedding.index_d (Embedding.job_index self))) as [Hlen | Hlen].
    + destruct (store_job_ok self id text md Hlen) as (Hn & Hm & Hri & Hrm).
      cbv zeta in *. split.
      * rewrite Hri, Hrm. exact Hr.
      * rewrite Hn, Hm. pose proof (size_insert_le (pretty (md5_hex15 id))
                                      (Embedding.mkMeta id (default ∅ md))
                                      (Embedding.job_meta self)). lia.
    + rewrite (store_job_raises self id text md Hlen). split; assumption.
Qed.

(** X21: whatever the resumes and jobs stored, under identifiers that
    repeat or not, with stores that raise or not, a service in which no
    metadata dict has more entries than its index has vectors stays so. *)
Lemma run_ops_meta_within_index (ops : list Embedding.StoreOp) (self : Embedding.Service) :
  Embedding.meta_within_index self -> Embedding.meta_within_index (run_ops self ops).
Proof.
  revert self. induction ops as [|op ops IH]; intros self H; [exact H|].
  unfold Embedding.run_ops. simpl. apply IH, apply_op_meta_within_index, H.
Qed.

End StoreFacts.

(** ** The hard-match scorer: the range of its scores *)

Lemma fraction_unit (a b : R) : (0 <= a <= b)%R -> (0 < b)%R -> (0 <= a / b <= 1)%R.
Proof.
  intros [Ha Hab] Hb. split.
  - apply Rmult_le_reg_r with b; [exact Hb|].
    replace (a / b * b)%R with a by (field; lra). lra.
  - apply Rmult_le_reg_r with b; [exact Hb|].
    replace (a / b * b)%R with a by (field; lra). lra.
Qed.

Lemma ratio_len_filter_bounds {A : Type} (f : A -> bool) (l : list A) :
  l <> [] -> (0 <= Py.ratio_len (List.filter f l) l <= 1)%R.
Proof.
  intros Hl. unfold Py.ratio_len. apply fraction_unit.
  - split; [apply pos_INR | apply le_INR, List.filter_length_le].
  - destruct l; [contradiction|]. apply lt_0_INR. simpl. lia.
Qed.

Section HardMatchRange.

Variable fuzz_ratio : string -> string -> R.
Variable fuzz_partial_ratio : string -> string -> R.

Local Abbreviation hard_match :=
  (Matching.calculate_hard_match fuzz_ratio fuzz_partial_ratio).
Local Abbreviation matched := (Matching.matched_of fuzz_ratio fuzz_partial_ratio).

Lemma coverage_score_bounds (skills have : list string) (threshold full : R) :
  (0 <= full)%R ->
  (0 <= Matching.coverage_score (matched skills have threshold) skills full <= full)%R.
Proof.
  intros Hfull. unfold Matching.coverage_score, Matching.matched_of.
  destruct skills as [|s skills]; [simpl; lra|].
  cbn [Py.truthy].
  pose proof (ratio_len_filter_bounds
                (fun skill => Matching._fuzzy_skill_match fuzz_ratio fuzz_partial_ratio
                                skill have threshold) (s :: skills)) as H.
  specialize (H ltac:(discriminate)). nra.
Qed.

Lemma experience_score_bounds (y m M : Z) :
  (0 <= y)%Z -> (0 <= Matching.experience_score y m M <= 100)%R.
Proof.
  intros Hy. unfold Matching.experience_score.
  destruct (y >=? m)%Z eqn:Hge.
  - destruct (y <=? M)%Z; lra.
  - destruct (m >? 0)%Z eqn:Hgt; [|lra].
    rewrite Z.geb_leb in Hge. apply Z.leb_gt in Hge.
    assert (0 <= IZR y / IZR m <= 1)%R as H.
    { apply fraction_unit.
      - split; [apply IZR_le; lia | apply IZR_le; lia].
      - apply IZR_lt. lia. }
    lra.
Qed.

Lemma match_education_bounds (education : list EduEntry) (requirements : list string) :
  (0 <= Matching._match_education education requirements <= 1)%R.
Proof.
  unfold Matching._match_education, Matching.education_hits.
  destruct requirements as [|r requirements]; [simpl; lra|].
  cbn [Py.truthy]. cbv zeta.
  apply (ratio_len_filter_bounds _ (r :: requirements)). discriminate.
Qed.

Lemma skills_match_range (resume : Resume) (job_desc : Job) :
  (0 <= skills_match (hard_match resume job_desc) <= 100)%R.
Proof.
  unfold Matching.calculate_hard_match. cbn [skills_match].
  pose proof (coverage_score_bounds
                (map Py.lower (default [] (job_required_skills job_desc)))
                (map Py.lower (default [] (resume_skills resume))) 80 70).
  pose proof (coverage_score_bounds
                (map Py.lower (default [] (job_optional_skills job_desc)))
                (map Py.lower (default [] (resume_skills resume))) 80 30).
  lra.
Qed.

Lemma experience_match_range (resume : Resume) (job_desc : Job) :
  (0 <= experience_match (hard_match resume job_desc) <= 100)%R.
Proof.
  unfold Matching.calculate_hard_match. cbn [experience_match].
  apply experience_score_bounds, extract_experience_years_nonneg.
Qed.

Lemma education_match_range (resume : Resume) (job_desc : Job) :
  (0 <= education_match (hard_match resume job_desc) <= 100)%R.
Proof.
  unfold Matching.calculate_hard_match. cbn [education_match].
  destruct (Py.truthy _ && Py.truthy _); [|lra].
  pose proof (match_education_bounds (default [] (resume_education resume))
                (default [] (job_education_requirements job_desc))).
  lra.
Qed.

Lemma certification_match_range (resume : Resume) (job_desc : Job) :
  (0 <= certification_match (hard_match resume job_desc) <= 100)%R.
Proof.
  unfold Matching.calculate_hard_match. cbn [certification_match].
  apply coverage_score_bounds. lra.
Qed.

Lemma overall_hard_match_range (resume : Resume) (job_desc : Job) :
  (0 <= overall_hard_match (hard_match resume job_desc) <= 100)%R.
Proof.
  pose proof (skills_match_range resume job_desc).
  pose proof (experience_match_range resume job_desc).
  pose proof (education_match_range resume job_desc).
  pose proof (certification_match_range resume job_desc).
  change (overall_hard_match (hard_match resume job_desc))
    with (skills_match (hard_match resume job_desc) * 0.5
          + experience_match (hard_match resume job_desc) * 0.3
          + education_match (hard_match resume job_desc) * 0.15
          + certification_match (hard_match resume job_desc) * 0.05)%R.
  lra.
Qed.

(** X1: whatever the resume, the job and the scores of rapidfuzz, each of
    the four scores of [calculate_hard_match] and their weighted sum
    [overall_hard_match] lie between 0 and 100. *)
Theorem hard_match_scores_bounded (resume : Resume) (job_desc : Job) :
  let scores := hard_match resume job_desc in
  (0 <= skills_match scores <= 100)%R
  /\ (0 <= experience_match scores <= 100)%R
  /\ (0 <= education_match scores <= 100)%R
  /\ (0 <= certification_match scores <= 100)%R
  /\ (0 <= overall_hard_match scores <= 100)%R.
Proof.
  cbv zeta.
  split; [apply skills_match_range|].
  split; [apply experience_match_range|].
  split; [apply education_match_range|].
  split; [apply certification_match_range | apply overall_hard_match_range].
Qed.

End HardMatchRange.

(** ** The hard-match scorer: matched and missing skills *)

Lemma filter_length_mono {A : Type} (f g : A -> bool) (l : list A) :
  (forall x, In x l -> f x = true -> g x = true) ->
  (length (List.filter f l) <= length (List.filter g l))%nat.
Proof.
  induction l as [|x l IH]; intros H; simpl; [lia|].
  assert (length (List.filter f l) <= length (List.filter g l))%nat as Hl.
  { apply IH. intros y Hy. apply H. right. exact Hy. }
  destruct (f x) eqn:Hf.
  - rewrite (H x (or_introl eq_refl) Hf). simpl. lia.
  - destruct (g x); simpl; lia.
Qed.

Lemma filter_all {A : Type} (f : A -> bool) (l : list A) :
  (forall x, In x l -> f x = true) -> List.filter f l = l.
Proof.
  induction l as [|x l IH]; intros H; simpl; [reflexivity|].
  rewrite (H x (or_introl eq_refl)). f_equal. apply IH.
  intros y Hy. apply H. right. exact Hy.
Qed.

Lemma filter_none {A : Type} (f : A -> bool) (l : list A) :
  (forall x, In x l -> f x = true) -> List.filter (fun x => negb (f x)) l = [].
Proof.
  induction l as [|x l IH]; intros H; simpl; [reflexivity|].
  rewrite (H x (or_introl eq_refl)). simpl. apply IH.
  intros y Hy. apply H. right. exact Hy.
Qed.

Section SkillLists.

Variable fuzz_ratio : string -> string -> R.
Variable fuzz_partial_ratio : string -> string -> R.

Local Abbreviation fuzzy := (Matching._fuzzy_skill_match fuzz_ratio fuzz_partial_ratio).
Local Abbreviation hard_match :=
  (Matching.calculate_hard_match fuzz_ratio fuzz_partial_ratio).
Local Abbreviation matched := (Matching.matched_of fuzz_ratio fuzz_partial_ratio).
Local Abbreviation missing := (Matching.missing_of fuzz_ratio fuzz_partial_ratio).

(** The loop answers [True] exactly when some skill of the resume clears
    the threshold on one of the two scores. *)
Lemma fuzzy_true_iff (skill : string) (have : list string) (threshold : R) :
  fuzzy skill have threshold = true
  <-> exists r, In r have
                /\ ((fuzz_ratio skill r >= threshold)%R
                    \/ (fuzz_partial_ratio skill r >= threshold)%R).
Proof.
  rewrite fuzzy_skill_match_exists. unfold Spec.fuzzy_matched.
  rewrite existsb_exists. split.
  - intros (r & Hr & H). exists r. split; [exact Hr|].
    apply orb_true_iff in H. destruct H as [H | H]; apply Rgeb_true in H; auto.
  - intros (r & Hr & H). exists r. split; [exact Hr|].
    apply orb_true_iff. destruct H as [H | H]; apply Rgeb_true in H; auto.
Qed.

Lemma fuzzy_monotone (skill : string) (have have' : list string) (t t' : R) :
  (t' <= t)%R -> (forall r, In r have -> In r have') ->
  fuzzy skill have t = true -> fuzzy skill have' t' = true.
Proof.
  intros Ht Hsub H. apply fuzzy_true_iff in H. destruct H as (r & Hr & H).
  apply fuzzy_true_iff. exists r. split; [apply Hsub, Hr|].
  destruct H as [H | H]; [left | right]; lra.
Qed.

(** X2: the lists [matched_skills] and [missing_skills] of
    [calculate_hard_match] divide the job's required skills, lowercased:
    every required skill is in one of the two lists, no skill is in both,
    and a missing skill is always a required one, never an optional one
    that is not also required. *)
Theorem matched_and_missing_skills_partition (resume : Resume) (job_desc : Job) :
  let scores := hard_match resume job_desc in
  let required := map Py.lower (default [] (job_required_skills job_desc)) in
  (forall skill, In skill required ->
                 In skill (matched_skills scores) \/ In skill (missing_skills scores))
  /\ (forall skill, ~ (In skill (matched_skills scores) /\ In skill (missing_skills scores)))
  /\ (forall skill, In skill (missing_skills scores) -> In skill required)
  /\ (length (missing_skills scores)
      + length (matched (map Py.lower (default [] (job_required_skills job_desc)))
                        (map Py.lower (default [] (resume_skills resume))) 80)
      = length required)%nat.
Proof.
  cbv zeta. unfold Matching.calculate_hard_match. cbn [matched_skills missing_skills].
  unfold Matching.matched_of, Matching.missing_of.
  set (have := map Py.lower (default [] (resume_skills resume))).
  set (required := map Py.lower (default [] (job_required_skills job_desc))).
  set (optional := map Py.lower (default [] (job_optional_skills job_desc))).
  split; [|split; [|split]].
  - intros skill Hin. destruct (fuzzy skill have 80) eqn:Hf.
    + left. apply in_or_app. left. apply List.filter_In. auto.
    + right. apply List.filter_In. rewrite Hf. auto.
  - intros skill [Hm Hmiss].
    apply List.filter_In in Hmiss. destruct Hmiss as [_ Hmiss].
    apply in_app_or in Hm.
    destruct Hm as [Hm | Hm]; apply List.filter_In in Hm; destruct Hm as [_ Hm];
      rewrite Hm in Hmiss; discriminate.
  - intros skill Hmiss. apply List.filter_In in Hmiss. tauto.
  - induction required as [|s required IH]; simpl; [reflexivity|].
    destruct (fuzzy s have 80); simpl; lia.
Qed.

Lemma coverage_score_mono (skills have have' : list string) (threshold full : R) :
  (0 <= full)%R -> (forall r, In r have -> In r have') ->
  (Matching.coverage_score (matched skills have threshold) skills full
   <= Matching.coverage_score (matched skills have' threshold) skills full)%R.
Proof.
  intros Hfull Hsub. unfold Matching.coverage_score, Py.ratio_len, Matching.matched_of.
  destruct skills as [|s skills]; [simpl; lra|].
  cbn [Py.truthy].
  apply Rmult_le_compat_r; [exact Hfull|].
  apply Rmult_le_compat_r.
  - left. apply Rinv_0_lt_compat, lt_0_INR. simpl. lia.
  - apply le_INR, filter_length_mono. intros x _ Hx.
    apply (fuzzy_monotone x have have' threshold threshold); [lra | exact Hsub | exact Hx].
Qed.

(** X3: a resume that lists every skill another resume lists scores at
    least as much on [skills_match] against every job, and misses no
    required skill the other resume has. *)
Theorem skills_match_monotone_in_resume (resume resume' : Resume) (job_desc : Job) :
  (forall s, In s (default [] (resume_skills resume)) ->
             In s (default [] (resume_skills resume'))) ->
  (skills_match (hard_match resume job_desc)
   <= skills_match (hard_match resume' job_desc))%R
  /\ (forall skill, In skill (missing_skills (hard_match resume' job_desc)) ->
                    In skill (missing_skills (hard_match resume job_desc))).
Proof.
  intros Hsub.
  assert (forall r, In r (map Py.lower (default [] (resume_skills resume))) ->
                    In r (map Py.lower (default [] (resume_skills resume')))) as Hlow.
  { intros r Hr. apply in_map_iff in Hr. destruct Hr as (s & <- & Hs).
    apply in_map, Hsub, Hs. }
  unfold Matching.calculate_hard_match. cbn [skills_match missing_skills]. split.
  - apply Rplus_le_compat; apply coverage_score_mono; (lra || exact Hlow).
  - unfold Matching.missing_of. intros skill Hin.
    apply List.filter_In in Hin. destruct Hin as [Hin Hf].
    apply List.filter_In. split; [exact Hin|].
    destruct (fuzzy skill (map Py.lower (default [] (resume_skills resume))) 80) eqn:Hm;
      [|reflexivity].
    rewrite (fuzzy_monotone skill _ _ 80 80 ltac:(lra) Hlow Hm) in Hf. discriminate.
Qed.

Lemma coverage_score_all (skills have : list string) (threshold full : R) :
  (forall s, In s skills -> fuzzy s have threshold = true) ->
  Matching.coverage_score (matched skills have threshold) skills full = full.
Proof.
  intros Hall. unfold Matching.coverage_score, Matching.matched_of, Py.ratio_len.
  rewrite (filter_all _ skills Hall).
  destruct skills as [|s skills]; [reflexivity|].
  cbn [Py.truthy].
  assert (0 < INR (length (s :: skills)))%R as Hn by (apply lt_0_INR; simpl; lia).
  field. lra.
Qed.

(** X4: when rapidfuzz scores a string against itself at 80 or more (it
    scores 100), a resume that lists every required and optional skill of
    the job, whatever the letter case, has [skills_match] 100 and no
    missing skill. *)
Theorem listed_skills_score_in_full (resume : Resume) (job_desc : Job) :
  (forall s, (fuzz_ratio s s >= 80)%R) ->
  (forall s, In s (default [] (job_required_skills job_desc)
                   ++ default [] (job_optional_skills job_desc)) ->
             In (Py.lower s) (map Py.lower (default [] (resume_skills resume)))) ->
  skills_match (hard_match resume job_desc) = 100%R
  /\ missing_skills (hard_match resume job_desc) = [].
Proof.
  intros Hself Hall.
  assert (forall skills,
             (forall s, In s skills ->
                        In s (default [] (job_required_skills job_desc)
                              ++ default [] (job_optional_skills job_desc))) ->
             forall s, In s (map Py.lower skills) ->
                       fuzzy s (map Py.lower (default [] (resume_skills resume))) 80 = true)
    as Hmatch.
  { intros skills Hsk s Hs. apply in_map_iff in Hs. destruct Hs as (s0 & <- & Hs0).
    apply fuzzy_true_iff. exists (Py.lower s0). split; [apply Hall, Hsk, Hs0|].
    left. apply Hself. }
  unfold Matching.calculate_hard_match. cbn [skills_match missing_skills]. split.
  - rewrite !coverage_score_all; [lra | |].
    + apply Hmatch. intros s Hs. apply in_or_app. right. exact Hs.
    + apply Hmatch. intros s Hs. apply in_or_app. left. exact Hs.
  - unfold Matching.missing_of. apply filter_none.
    apply Hmatch. intros s Hs. apply in_or_app. left. exact Hs.
Qed.

End SkillLists.

(** The rapidfuzz instance scores a string against itself at 100. *)
Lemma lcs_len_refl (a : list ascii) : Rapidfuzz.lcs_len a a = length a.
Proof.
  induction a as [|x a IH]; [reflexivity|].
  cbn [Rapidfuzz.lcs_len]. rewrite Ascii.eqb_refl, IH. reflexivity.
Qed.

Lemma rapidfuzz_ratio_refl (s : string) : Rapidfuzz.ratio s s = 100%R.
Proof.
  unfold Rapidfuzz.ratio, Rapidfuzz.ratio_frac, Rapidfuzz.percent.
  rewrite lcs_len_refl.
  destruct (length (list_ascii_of_string s)) as [|n] eqn:Hn.
  - cbn [Nat.add fst snd]. change (Z.of_nat 1) with 1%Z. lra.
  - cbn [Nat.add fst snd].
    replace (2 * S n)%nat with (S (n + S n)) by lia.
    assert (0 < IZR (Z.of_nat (S (n + S n))))%R as Hpos by (apply IZR_lt; lia).
    field. lra.
Qed.

Lemma skills_match_monotone_in_resume_witness :
  (forall s, In s (default [] (resume_skills resume_python)) ->
             In s (default [] (resume_skills resume_python_aws)))
  /\ (skills_match (Matching.calculate_hard_match Rapidfuzz.ratio Rapidfuzz.partial_ratio
                      resume_python job_python_aws)
      <= skills_match (Matching.calculate_hard_match Rapidfuzz.ratio Rapidfuzz.partial_ratio
                         resume_python_aws job_python_aws))%R.
Proof.
  assert (forall s, In s (default [] (resume_skills resume_python)) ->
                    In s (default [] (resume_skills resume_python_aws))) as Hsub.
  { simpl. intros s [<-|[]]. left. reflexivity. }
  split; [exact Hsub|].
  exact (proj1 (skills_match_monotone_in_resume Rapidfuzz.ratio Rapidfuzz.partial_ratio
                  resume_python resume_python_aws job_python_aws Hsub)).
Defined.

Lemma listed_skills_score_in_full_witness :
  skills_match (Matching.calculate_hard_match Rapidfuzz.ratio Rapidfuzz.partial_ratio
                  resume_python_aws job_python_aws) = 100%R
  /\ missing_skills (Matching.calculate_hard_match Rapidfuzz.ratio Rapidfuzz.partial_ratio
                       resume_python_aws job_python_aws) = [].
Proof.
  apply (listed_skills_score_in_full Rapidfuzz.ratio Rapidfuzz.partial_ratio
           resume_python_aws job_python_aws).
  - intros s. rewrite rapidfuzz_ratio_refl. lra.
  - simpl. intros s [<-|[<-|[]]]; simpl; tauto.
Defined.

(** ** The years of experience: texts without digits, and the span of years *)

(** A continuation that fails on every string without digits makes the
    whole run fail on such a string. *)
Lemma run_fails (r : Re.regex) :
  forall (A : Type) s cap (k : list ascii -> option (list ascii) -> option A),
    Re.digit_free s ->
    (forall s' cap', Re.digit_free s' -> k s' cap' = None) ->
    Re.run r s cap k = None.
Proof.
  induction r as [|p|r1 IH1 r2 IH2|r1 IH1 r2 IH2|r IH|r IH];
    intros A s cap k Hs Hk; simpl.
  - apply Hk, Hs.
  - destruct s as [|c s']; [reflexivity|].
    destruct (p c); [|reflexivity].
    apply Hk. inversion Hs; assumption.
  - apply IH1; [exact Hs|]. intros s' cap' Hs'. apply IH2; assumption.
  - rewrite IH1 by assumption. apply IH2; assumption.
  - remember (length s) as n eqn:Hn. clear Hn.
    revert s cap Hs. induction n as [|n IHn]; intros s cap Hs.
    + apply Hk, Hs.
    + rewrite IH; [apply Hk, Hs | exact Hs |].
      intros s' cap' Hs'. destruct (length s' <? length s)%nat; [|reflexivity].
      apply IHn, Hs'.
  - apply IH; [exact Hs|]. intros s' cap' Hs'. apply Hk, Hs'.
Qed.

Lemma run_needs_digit (r : Re.regex) :
  Re.needs_digit r ->
  forall (A : Type) s cap (k : list ascii -> option (list ascii) -> option A),
    Re.digit_free s -> Re.run r s cap k = None.
Proof.
  induction 1 as [p Hp|r1 r2 _ IH|r1 r2 _ IH|r1 r2 _ IH1 _ IH2|r _ IH];
    intros A s cap k Hs; simpl.
  - destruct s as [|c s']; [reflexivity|].
    destruct (p c) eqn:Hc; [|reflexivity].
    apply Hp in Hc. inversion Hs as [|? ? Hfree _]. congruence.
  - apply IH, Hs.
  - apply run_fails; [exact Hs|]. intros s' cap' Hs'. apply IH, Hs'.
  - rewrite IH1 by exact Hs. apply IH2, Hs.
  - apply IH, Hs.
Qed.

Lemma search_from_needs_digit (r : Re.regex) (s : list ascii) :
  Re.needs_digit r -> Re.digit_free s -> Re.search_from r s = None.
Proof.
  intros Hr. induction s as [|c s IH]; intros Hs; simpl.
  - rewrite (run_needs_digit r Hr) by exact Hs. reflexivity.
  - rewrite (run_needs_digit r Hr) by exact Hs. apply IH. inversion Hs; assumption.
Qed.

Lemma digit_run_needs : Re.needs_digit (Re.Group (Re.Plus (Re.Chr Re.is_digit))).
Proof. apply Re.needs_group, Re.needs_seq_l, Re.needs_chr. auto. Qed.

Lemma patterns_need_digit : Forall Re.needs_digit Matching.patterns.
Proof.
  unfold Matching.patterns, Matching.pattern_years_experience,
    Matching.pattern_experience_years, Matching.pattern_years_working.
  repeat (match goal with |- Forall _ _ => constructor end).
  - apply Re.needs_seq_l, digit_run_needs.
  - do 2 apply Re.needs_seq_r. apply Re.needs_seq_l, digit_run_needs.
  - apply Re.needs_seq_l, digit_run_needs.
Qed.

Lemma first_pattern_match_needs_digit (ps : list Re.regex) (text : string) :
  Forall Re.needs_digit ps -> Re.digit_free (list_ascii_of_string text) ->
  Matching.first_pattern_match ps text = None.
Proof.
  intros Hps Hs. induction Hps as [|p ps Hp _ IH]; simpl; [reflexivity|].
  unfold Re.search. rewrite (search_from_needs_digit p _ Hp Hs). exact IH.
Qed.

Lemma findall_20dd_digit_free (s : list ascii) :
  Re.digit_free s -> Re.findall_20dd s = [].
Proof.
  induction s as [|c0 tl IH]; intros Hs; [reflexivity|].
  inversion Hs as [|? ? Hc0 Htl]; subst.
  assert (Ascii.eqb c0 "2" = false) as H2.
  { destruct (Ascii.eqb_spec c0 "2"%char) as [->|]; [discriminate Hc0 | reflexivity]. }
  cbn [Re.findall_20dd]. rewrite H2. cbn [andb].
  destruct tl as [|c1 [|d1 [|d2 rest]]]; apply IH, Htl.
Qed.

(** X5: in a text without a decimal digit [_extract_experience_years]
    finds 0 years, and [calculate_hard_match] then scores the experience
    at 0 against every job that asks for a positive [min_experience]. *)
Theorem experience_years_need_a_digit
        (fuzz_ratio fuzz_partial_ratio : string -> string -> R)
        (resume : Resume) (job_desc : Job) :
  Re.digit_free (list_ascii_of_string (default "" (resume_raw_text resume))) ->
  (0 < default 0 (job_min_experience job_desc))%Z ->
  Matching._extract_experience_years (default "" (resume_raw_text resume)) = 0%Z
  /\ experience_match
       (Matching.calculate_hard_match fuzz_ratio fuzz_partial_ratio resume job_desc)
     = 0%R.
Proof.
  intros Hfree Hmin.
  assert (Matching._extract_experience_years (default "" (resume_raw_text resume)) = 0%Z)
    as Hy.
  { unfold Matching._extract_experience_years.
    rewrite (first_pattern_match_needs_digit _ _ patterns_need_digit Hfree).
    rewrite (findall_20dd_digit_free _ Hfree). reflexivity. }
  split; [exact Hy|].
  rewrite experience_match_unfold, Hy.
  rewrite experience_score_below by lia. lra.
Qed.

Lemma experience_years_need_a_digit_witness :
  Matching._extract_experience_years
    (default "" (resume_raw_text (resume_of_text "Seasoned engineer"))) = 0%Z
  /\ experience_match
       (Matching.calculate_hard_match Rapidfuzz.ratio Rapidfuzz.partial_ratio
          (resume_of_text "Seasoned engineer") (job_of_experience (Some 2%Z) None))
     = 0%R.
Proof.
  apply (experience_years_need_a_digit Rapidfuzz.ratio Rapidfuzz.partial_ratio
           (resume_of_text "Seasoned engineer") (job_of_experience (Some 2%Z) None)).
  - unfold Re.digit_free. simpl. repeat constructor.
  - simpl. lia.
Defined.

(** Every match of [20\d{2}] reads as a year from 2000 to 2099. *)
Lemma findall_20dd_years (n : nat) (s : list ascii) :
  (length s <= n)%nat ->
  Forall (fun y => (2000 <= y <= 2099)%Z) (map Re.int_of_digits (Re.findall_20dd s)).
Proof.
  revert s. induction n as [|n IH]; intros s Hlen.
  - destruct s; [constructor | simpl in Hlen; lia].
  - destruct s as [|c0 tl]; [constructor|].
    assert (Forall (fun y => (2000 <= y <= 2099)%Z)
                   (map Re.int_of_digits (Re.findall_20dd tl))) as Htl.
    { apply IH. simpl in Hlen. lia. }
    cbn [Re.findall_20dd].
    destruct tl as [|c1 [|d1 [|d2 rest]]]; try exact Htl.
    destruct (Ascii.eqb c0 "2" && Ascii.eqb c1 "0" && Re.is_digit d1 && Re.is_digit d2)
      eqn:Hm; [|exact Htl].
    apply andb_true_iff in Hm. destruct Hm as [Hm Hd2].
    apply andb_true_iff in Hm. destruct Hm as [Hm Hd1].
    apply andb_true_iff in Hm. destruct Hm as [Hc0 Hc1].
    apply Ascii.eqb_eq in Hc0, Hc1. subst c0 c1.
    cbn [map]. constructor.
    + unfold Re.is_digit in Hd1, Hd2.
      apply andb_true_iff in Hd1, Hd2. destruct Hd1 as [Hl1 Hh1], Hd2 as [Hl2 Hh2].
      apply Nat.leb_le in Hl1, Hh1, Hl2, Hh2.
      unfold Re.int_of_digits. cbn [fold_left].
      change (Z.of_nat (nat_of_ascii "2")) with 50%Z.
      change (Z.of_nat (nat_of_ascii "0")) with 48%Z. lia.
    + apply IH. simpl in Hlen. simpl. lia.
Qed.

Lemma Forall_hd_last {A : Type} (P : A -> Prop) (d : A) (l : list A) :
  Forall P l -> l <> [] -> P (List.hd d l) /\ P (List.last l d).
Proof.
  intros Hall Hl. destruct l as [|x l]; [contradiction|]. split.
  - inversion Hall; assumption.
  - clear Hl. revert x Hall. induction l as [|y l IH]; intros x Hall.
    + inversion Hall; assumption.
    + change (List.last (x :: y :: l) d) with (List.last (y :: l) d).
      apply IH. inversion Hall; assumption.
Qed.

Lemma sorted_le_last (l : list Z) :
  StronglySorted Z.le l -> forall y, In y l -> (y <= List.last l 0)%Z.
Proof.
  induction l as [|x l IH]; intros Hs y Hy; [destruct Hy|].
  apply StronglySorted_inv in Hs. destruct Hs as [Hs Hall].
  destruct l as [|x' l].
  - destruct Hy as [<-|[]]. simpl. lia.
  - change (List.last (x :: x' :: l) 0%Z) with (List.last (x' :: l) 0%Z).
    destruct Hy as [<- | Hy]; [|exact (IH Hs y Hy)].
    rewrite List.Forall_forall in Hall.
    pose proof (Hall x' (or_introl eq_refl)) as Hxx'.
    pose proof (IH Hs x' (or_introl eq_refl)). lia.
Qed.

Lemma sorted_hd_le (l : list Z) (y : Z) :
  StronglySorted Z.le l -> In y l -> (List.hd 0 l <= y)%Z.
Proof.
  destruct l as [|x l]; intros Hs Hy; [destruct Hy|].
  apply StronglySorted_inv in Hs. destruct Hs as [_ Hall].
  destruct Hy as [<- | Hy]; [simpl; lia|].
  rewrite List.Forall_forall in Hall. exact (Hall y Hy).
Qed.

(** X6: when none of the three phrases about years of experience occurs
    in the text, [_extract_experience_years] returns 0 if the text holds
    fewer than two year numbers 20xx, and otherwise the span of them: the
    largest of the numbers found minus the smallest.  Every number found
    is between 2000 and 2099, so that the result is at least 0 and at
    most 99. *)
Theorem experience_years_from_span_bounded (text : string) :
  Matching.first_pattern_match Matching.patterns text = None ->
  let years := map Re.int_of_digits (Re.findall_20dd (list_ascii_of_string text)) in
  Forall (fun y => (2000 <= y <= 2099)%Z) years
  /\ ((length years < 2)%nat -> Matching._extract_experience_years text = 0%Z)
  /\ ((2 <= length years)%nat ->
      exists lo hi,
        In lo years /\ In hi years
        /\ Forall (fun y => (lo <= y <= hi)%Z) years
        /\ Matching._extract_experience_years text = (hi - lo)%Z)
  /\ (0 <= Matching._extract_experience_years text <= 99)%Z.
Proof.
  intros Hnone years.
  assert (Forall (fun y => (2000 <= y <= 2099)%Z) years) as Hrange
      by apply (findall_20dd_years _ _ (le_n _)).
  assert (length years = length (Re.findall_20dd (list_ascii_of_string text))) as Hlen
      by apply length_map.
  assert ((length years < 2)%nat -> Matching._extract_experience_years text = 0%Z) as Hfew.
  { intros Hlt. unfold Matching._extract_experience_years. rewrite Hnone.
    destruct (2 <=? _)%nat eqn:H2; [apply Nat.leb_le in H2; lia | reflexivity]. }
  assert ((2 <= length years)%nat ->
          exists lo hi,
            In lo years /\ In hi years
            /\ Forall (fun y => (lo <= y <= hi)%Z) years
            /\ Matching._extract_experience_years text = (hi - lo)%Z) as Hspan.
  { intros Hge. unfold Matching._extract_experience_years. rewrite Hnone.
    rewrite (proj2 (Nat.leb_le _ _)) by lia. cbv zeta. fold years.
    pose proof (merge_sort_Permutation Z.le years) as Hperm.
    pose proof (StronglySorted_merge_sort Z.le years) as Hsorted.
    fold (Matching.sorted years) in Hperm, Hsorted.
    assert (Matching.sorted years <> []) as Hne.
    { intros Heq. apply Permutation_length in Hperm. rewrite Heq in Hperm.
      simpl in Hperm. lia. }
    exists (List.hd 0%Z (Matching.sorted years)), (List.last (Matching.sorted years) 0%Z).
    destruct (Forall_hd_last (fun y => In y (Matching.sorted years)) 0%Z
                (Matching.sorted years)) as [Hhd Hlast];
      [apply List.Forall_forall; auto | exact Hne|].
    split; [exact (Permutation_in _ Hperm Hhd)|].
    split; [exact (Permutation_in _ Hperm Hlast)|].
    split; [|reflexivity].
    apply List.Forall_forall. intros y Hy.
    apply (Permutation_in _ (Permutation_sym Hperm)) in Hy.
    split; [apply sorted_hd_le | apply sorted_le_last]; assumption. }
  split; [exact Hrange|]. split; [exact Hfew|]. split; [exact Hspan|].
  destruct (Nat.lt_ge_cases (length years) 2) as [Hlt | Hge].
  - rewrite (Hfew Hlt). lia.
  - destruct (Hspan Hge) as (lo & hi & Hlo & Hhi & Hall & ->).
    rewrite List.Forall_forall in Hrange, Hall.
    pose proof (Hrange lo Hlo). pose proof (Hrange hi Hhi).
    pose proof (Hall lo Hlo). lia.
Qed.

Lemma experience_years_from_span_bounded_witness :
  Matching.first_pattern_match Matching.patterns "Intern 2019, engineer 2021 to 2024" = None
  /\ map Re.int_of_digits
       (Re.findall_20dd (list_ascii_of_string "Intern 2019, engineer 2021 to 2024"))
     = [2019; 2021; 2024]%Z
  /\ Matching._extract_experience_years "Intern 2019, engineer 2021 to 2024" = 5%Z
  /\ (exists lo hi,
         In lo [2019; 2021; 2024]%Z /\ In hi [2019; 2021; 2024]%Z
         /\ Forall (fun y => (lo <= y <= hi)%Z) [2019; 2021; 2024]%Z
         /\ Matching._extract_experience_years "Intern 2019, engineer 2021 to 2024"
            = (hi - lo)%Z).
Proof.
  assert (Matching.first_pattern_match Matching.patterns
            "Intern 2019, engineer 2021 to 2024" = None) as H by (vm_compute; reflexivity).
  split; [exact H|]. split; [vm_compute; reflexivity|].
  split; [vm_compute; reflexivity|].
  destruct (experience_years_from_span_bounded "Intern 2019, engineer 2021 to 2024" H)
    as (_ & _ & Hspan & _).
  apply Hspan. vm_compute. lia.
Defined.

(** ** The soft-match scorer *)

Lemma dedup_first_spec (l seen : list string) :
  NoDup (Matching.dedup_first seen l)
  /\ (forall x, x ∈ Matching.dedup_first seen l -> x ∈ l /\ x ∉ seen).
Proof.
  revert seen. induction l as [|x l IH]; intros seen; simpl.
  - split; [constructor | intros x Hx; inversion Hx].
  - destruct (bool_decide (x ∈ seen)) eqn:Hb.
    + apply bool_decide_eq_true in Hb. destruct (IH seen) as [Hnd Hin].
      split; [exact Hnd|]. intros y Hy. destruct (Hin y Hy) as [H1 H2].
      split; [right; exact H1 | exact H2].
    + apply bool_decide_eq_false in Hb. destruct (IH (x :: seen)) as [Hnd Hin].
      split.
      * apply NoDup_cons_2; [|exact Hnd].
        intros Hx. destruct (Hin x Hx) as [_ Hns]. apply Hns. left.
      * intros y Hy. apply elem_of_cons in Hy. destruct Hy as [-> | Hy].
        -- split; [left | exact Hb].
        -- destruct (Hin y Hy) as [H1 H2]. split; [right; exact H1|].
           intros H. apply H2. right. exact H.
Qed.

Lemma NoDup_firstn {A : Type} (n : nat) (l : list A) : NoDup l -> NoDup (firstn n l).
Proof.
  intros H. rewrite <- (take_drop n l) in H. apply NoDup_app in H. tauto.
Qed.

(** X7: the keywords [_extract_keywords] returns are pairwise distinct,
    at most [top_n] in number, each longer than three characters and none
    of them a stop word. *)
Theorem extract_keywords_wellformed (text : string) (top_n : nat) :
  let keywords := Matching._extract_keywords text top_n in
  NoDup keywords
  /\ (length keywords <= top_n)%nat
  /\ Forall (fun w => (3 < String.length w)%nat /\ w ∉ Matching.stop_words) keywords.
Proof.
  cbv zeta. unfold Matching._extract_keywords.
  set (cleaned := map _ _).
  split; [|split].
  - apply NoDup_firstn, dedup_first_spec.
  - apply firstn_le_length.
  - apply Forall_take, Forall_forall. intros w Hw.
    apply (proj2 (dedup_first_spec _ [])) in Hw. destruct Hw as [Hw _].
    apply list_elem_of_filter in Hw. tauto.
Qed.

Section SoftMatchFacts.

Variable tfidf_cosine : string -> string -> option R.

Local Abbreviation soft_match := (Matching.calculate_soft_match tfidf_cosine).

Lemma np_dot_raises (v1 v2 : list R) :
  Matching.np_dot v1 v2 = None <-> length v1 <> length v2.
Proof.
  unfold Matching.np_dot. destruct (Nat.eqb_spec (length v1) (length v2)); split;
    (discriminate || contradiction || auto).
Qed.

Lemma cosine_similarity_raises (v1 v2 : list R) :
  Matching._cosine_similarity v1 v2 = None <-> length v1 <> length v2.
Proof.
  unfold Matching._cosine_similarity.
  destruct (Matching.np_dot v1 v2) as [d|] eqn:Hd; cbn [mbind option_bind].
  - split.
    + destruct (Py.Reqb _ 0 || Py.Reqb _ 0); discriminate.
    + intros Hlen. apply np_dot_raises in Hlen. congruence.
  - split; [intros _; apply np_dot_raises, Hd | reflexivity].
Qed.


(** X8: [calculate_soft_match] raises exactly when both embeddings are
    given and their lengths differ; a vectorizer that raises, an embedding
    that is [None] and texts without keywords never make it raise. *)
Theorem soft_match_raises_on_length_mismatch_only
        (resume_text job_text : string) (resume_embedding job_embedding : option (list R)) :
  Matching.calculate_soft_match tfidf_cosine resume_text job_text
    resume_embedding job_embedding = None
  <-> exists v1 v2, resume_embedding = Some v1 /\ job_embedding = Some v2
                    /\ length v1 <> length v2.
Proof.
  unfold Matching.calculate_soft_match.
  destruct resume_embedding as [v1|], job_embedding as [v2|]; cbn [mbind option_bind].
  - destruct (Matching._cosine_similarity v1 v2) as [c|] eqn:Hc; cbn [mbind option_bind].
    + split; [discriminate|]. intros (w1 & w2 & H1 & H2 & Hlen).
      inversion H1; inversion H2; subst.
      apply cosine_similarity_raises in Hlen. congruence.
    + split; [|reflexivity]. intros _. exists v1, v2.
      split; [reflexivity|]. split; [reflexivity|].
      apply cosine_similarity_raises, Hc.
  - split; [discriminate | intros (w1 & w2 & _ & H & _); discriminate].
  - split; [discriminate | intros (w1 & w2 & H & _); discriminate].
  - split; [discriminate | intros (w1 & w2 & H & _); discriminate].
Qed.

(** The cosine the soft-match scorer computes is the hundredth of the
    similarity of the embedding service. *)
Lemma cosine_similarity_scaled (v1 v2 : list R) (c : R) :
  Matching._cosine_similarity v1 v2 = Some c ->
  Embedding.calculate_similarity v1 v2 = Some (c * 100)%R.
Proof.
  unfold Matching._cosine_similarity, Embedding.calculate_similarity.
  destruct (Matching.np_dot v1 v2) as [d|]; cbn [mbind option_bind]; [|discriminate].
  destruct (Py.Reqb (Matching.np_norm v1) 0 || Py.Reqb (Matching.np_norm v2) 0);
    intros H; inversion H; subst; f_equal; lra.
Qed.


End SoftMatchFacts.


(** ** The embedding similarity: symmetry, scaling, empty texts *)

(** X10: the cosine of the soft-match scorer and the similarity of the
    embedding service agree wherever the first returns: the similarity is
    100 times the cosine; and on vectors of one length the first returns
    whenever the second does.  They part on a zero vector against a vector
    of another length: the scorer takes the dot product first and raises,
    the service tests the norms first and returns 0. *)
Theorem cosine_similarity_agrees_with_service :
  (forall v1 v2 c,
      Matching._cosine_similarity v1 v2 = Some c ->
      Embedding.calculate_similarity v1 v2 = Some (c * 100)%R)
  /\ (forall v1 v2 s,
         length v1 = length v2 ->
         Embedding.calculate_similarity v1 v2 = Some s ->
         exists c, Matching._cosine_similarity v1 v2 = Some c /\ s = (c * 100)%R)
  /\ (forall v1 v2,
         Matching.np_norm v1 = 0%R -> length v1 <> length v2 ->
         Matching._cosine_similarity v1 v2 = None
         /\ Embedding.calculate_similarity v1 v2 = Some 0%R).
Proof.
  split; [|split].
  - intros v1 v2 c H. exact (cosine_similarity_scaled v1 v2 c H).
  - intros v1 v2 s Hlen Hs.
    destruct (Matching._cosine_similarity v1 v2) as [c|] eqn:Hc.
    + exists c. split; [reflexivity|].
      apply cosine_similarity_scaled in Hc. congruence.
    + apply cosine_similarity_raises in Hc. contradiction.
  - intros v1 v2 Hn Hlen. split.
    + apply cosine_similarity_raises, Hlen.
    + apply calculate_similarity_zero_norm. left. exact Hn.
Qed.

Lemma cosine_similarity_agrees_with_service_witness :
  Matching._cosine_similarity [1; 0]%R [1; 0]%R = Some 1%R
  /\ Embedding.calculate_similarity [1; 0]%R [1; 0]%R = Some (1 * 100)%R.
Proof.
  assert (Matching._cosine_similarity [1; 0]%R [1; 0]%R = Some 1%R) as H.
  { assert (Matching.np_norm [1; 0]%R = 1%R) as H1
        by (apply np_norm_of_square; simpl; lra).
    unfold Matching._cosine_similarity.
    rewrite np_dot_same_length by reflexivity. cbn [mbind option_bind].
    rewrite H1, (proj2 (Reqb_false 1 0)) by lra. cbn [orb]. simpl. f_equal. lra. }
  split; [exact H|].
  exact (proj1 cosine_similarity_agrees_with_service [1; 0]%R [1; 0]%R 1%R H).
Defined.

Lemma dot_aux_comm (v1 v2 : list R) : Matching.dot_aux v1 v2 = Matching.dot_aux v2 v1.
Proof.
  revert v2. induction v1 as [|x v1 IH]; intros [|y v2]; simpl; try reflexivity.
  rewrite IH. lra.
Qed.

Lemma calculate_similarity_symmetric_aux (v1 v2 : list R) :
  Embedding.calculate_similarity v1 v2 = Embedding.calculate_similarity v2 v1.
Proof.
  unfold Embedding.calculate_similarity, Matching.np_dot.
  rewrite (orb_comm (Py.Reqb (Matching.np_norm v1) 0)).
  rewrite (Nat.eqb_sym (length v1)), (dot_aux_comm v1 v2).
  rewrite (Rmult_comm (Matching.np_norm v1)). reflexivity.
Qed.

(** X11: the similarity of two embeddings does not depend on their
    order: [calculate_similarity] and [_cosine_similarity] give the same
    result, or raise alike, when the two vectors are exchanged. *)
Theorem similarity_is_symmetric (v1 v2 : list R) :
  Embedding.calculate_similarity v1 v2 = Embedding.calculate_similarity v2 v1
  /\ Matching._cosine_similarity v1 v2 = Matching._cosine_similarity v2 v1.
Proof.
  split; [apply calculate_similarity_symmetric_aux|].
  unfold Matching._cosine_similarity, Matching.np_dot.
  rewrite (Nat.eqb_sym (length v1)), (dot_aux_comm v1 v2).
  destruct (length v2 =? length v1)%nat; [|reflexivity].
  cbn [mbind option_bind].
  rewrite (orb_comm (Py.Reqb (Matching.np_norm v1) 0)).
  rewrite (Rmult_comm (Matching.np_norm v1)). reflexivity.
Qed.

Lemma dot_aux_zeros (n : nat) : Matching.dot_aux (repeat 0%R n) (repeat 0%R n) = 0%R.
Proof. induction n as [|n IH]; simpl; [reflexivity|]. rewrite IH. lra. Qed.

Lemma np_norm_zeros (n : nat) : Matching.np_norm (repeat 0%R n) = 0%R.
Proof. unfold Matching.np_norm. rewrite dot_aux_zeros. apply sqrt_0. Qed.

Section EmptyText.

Variable fuzz_ratio : string -> string -> R.
Variable fuzz_partial_ratio : string -> string -> R.
Variable encode : string -> list R.
Variable dim : nat.

Local Abbreviation hard_match :=
  (Matching.calculate_hard_match fuzz_ratio fuzz_partial_ratio).
Local Abbreviation embedding_of := (Scoring.embedding_or_generate encode dim).

Lemma similarity_of_empty_text (v : list R) :
  Embedding.calculate_similarity (Embedding.generate_embeddings encode dim "") v = Some 0%R.
Proof.
  apply calculate_similarity_zero_norm. left.
  change (Embedding.generate_embeddings encode dim "") with (repeat 0%R dim).
  apply np_norm_zeros.
Qed.

(** X13: the embedding [generate_embeddings] makes of the empty text is
    the zero vector of the encoder's dimension, and its similarity with
    every vector, of whatever length, is 0: no exception, on either side
    of [calculate_similarity]. *)
Theorem empty_text_is_similar_to_nothing (v : list R) :
  Embedding.generate_embeddings encode dim "" = repeat 0%R dim
  /\ length (Embedding.generate_embeddings encode dim "") = dim
  /\ Embedding.calculate_similarity (Embedding.generate_embeddings encode dim "") v
     = Some 0%R
  /\ Embedding.calculate_similarity v (Embedding.generate_embeddings encode dim "")
     = Some 0%R.
Proof.
  split; [reflexivity|]. split; [apply repeat_length|].
  split; [apply similarity_of_empty_text|].
  rewrite calculate_similarity_symmetric_aux. apply similarity_of_empty_text.
Qed.

End EmptyText.

(** ** The engine: bounds, empty texts, and monotonicity *)

Lemma round_half_even_dist (y : R) :
  (IZR (Scoring.round_half_even y) - 1 / 2 <= y <= IZR (Scoring.round_half_even y) + 1 / 2)%R.
Proof.
  unfold Scoring.round_half_even.
  destruct (Int_part_bounds y) as [Hn1 Hn2].
  destruct (Rlt_dec (y - IZR (Int_part y)) (1 / 2)); [lra|].
  destruct (Rgt_dec (y - IZR (Int_part y)) (1 / 2)); [rewrite plus_IZR; lra|].
  destruct (Z.even (Int_part y)); [lra | rewrite plus_IZR; lra].
Qed.

Lemma round_half_even_mono (x y : R) :
  (x <= y)%R -> (Scoring.round_half_even x <= Scoring.round_half_even y)%Z.
Proof.
  intros Hxy.
  destruct (Z.le_gt_cases (Scoring.round_half_even x) (Scoring.round_half_even y))
    as [Hle | Hgt]; [exact Hle|].
  pose proof (round_half_even_dist x) as [Hx1 Hx2].
  pose proof (round_half_even_dist y) as [Hy1 Hy2].
  assert (IZR (Scoring.round_half_even y) + 1 <= IZR (Scoring.round_half_even x))%R as Hz.
  { rewrite <- plus_IZR. apply IZR_le. lia. }
  assert (x = y) as Heq by lra.
  subst y. lia.
Qed.

Lemma round2_mono (x y : R) : (x <= y)%R -> (Scoring.round2 x <= Scoring.round2 y)%R.
Proof.
  intros Hxy. unfold Scoring.round2.
  assert (Scoring.round_half_even (x * 100) <= Scoring.round_half_even (y * 100))%Z as H
      by (apply round_half_even_mono; lra).
  apply IZR_le in H. lra.
Qed.

Lemma round2_0 : Scoring.round2 0 = 0%R.
Proof. replace 0%R with (IZR 0 / 100)%R at 1 by lra. rewrite round2_hundredths. lra. Qed.

Lemma clamp_mono (x y : R) : (x <= y)%R -> (Scoring.clamp x <= Scoring.clamp y)%R.
Proof.
  intros Hxy. rewrite !clamp_min_max.
  apply Rle_min_compat_r, Rle_max_compat_r, Hxy.
Qed.

Lemma verdict_of_mono (cfg : Config) (x y : R) :
  (x <= y)%R ->
  (Scoring.verdict_rank (Scoring.verdict_of cfg x)
   <= Scoring.verdict_rank (Scoring.verdict_of cfg y))%nat.
Proof.
  intros Hxy. unfold Scoring.verdict_of, Py.Rgeb.
  destruct (Rge_dec x (HIGH_THRESHOLD cfg)), (Rge_dec y (HIGH_THRESHOLD cfg)),
    (Rge_dec x (MEDIUM_THRESHOLD cfg)), (Rge_dec y (MEDIUM_THRESHOLD cfg));
    simpl; try lia; lra.
Qed.

Section EngineRange.

Variable fuzz_ratio : string -> string -> R.
Variable fuzz_partial_ratio : string -> string -> R.
Variable encode : string -> list R.
Variable dim : nat.

Local Abbreviation hard_match :=
  (Matching.calculate_hard_match fuzz_ratio fuzz_partial_ratio).
Local Abbreviation evaluate :=
  (Scoring.evaluate_resume fuzz_ratio fuzz_partial_ratio encode dim).
Local Abbreviation embedding_of := (Scoring.embedding_or_generate encode dim).

(** X14: in every evaluation [evaluate_resume] returns, whatever the
    weights and thresholds, the field [hard_match_score] lies between 0
    and 100 and the field [soft_match_score] between -100 and 100. *)
Theorem evaluation_scores_bounded
        (cfg : Config) (resume : Resume) (job_desc : Job) (ev : Scoring.Evaluation) :
  evaluate cfg resume job_desc = Some ev ->
  (0 <= Scoring.hard_match_score ev <= 100)%R
  /\ (-100 <= Scoring.soft_match_score ev <= 100)%R.
Proof.
  intros Hev.
  destruct (evaluate_resume_inv _ _ _ _ _ _ _ _ Hev) as (soft & Hs & ->).
  cbn [Scoring.hard_match_score Scoring.soft_match_score]. split.
  - apply round2_bounds, overall_hard_match_range.
  - apply calculate_similarity_range in Hs. destruct Hs as [Hlo Hhi].
    pose proof (round2_mono _ _ Hlo) as H1. pose proof (round2_mono _ _ Hhi) as H2.
    rewrite round2_100 in H2.
    replace (-100)%R with (IZR (-10000) / 100)%R in H1 by lra.
    rewrite round2_hundredths in H1. lra.
Qed.

Lemma embedding_of_nothing (embeddings : option (list R)) (processed_text : option string) :
  default [] embeddings = [] -> default "" processed_text = "" ->
  embedding_of embeddings processed_text = Embedding.generate_embeddings encode dim "".
Proof.
  intros He Ht. unfold Scoring.embedding_or_generate.
  rewrite Ht. destruct embeddings as [[|x e]|]; (reflexivity || discriminate).
Qed.

(** X15: a resume, or a job, that has neither embeddings nor processed
    text is evaluated without an exception against every counterpart; the
    soft score is 0, the relevance score is the hard score times the hard
    weight, rounded, at most 40 with the default weights, and the verdict
    with the default thresholds is LOW. *)
Theorem evaluation_without_text_is_low (resume : Resume) (job_desc : Job) :
  (default [] (resume_embeddings resume) = []
   /\ default "" (resume_processed_text resume) = "")
  \/ (default [] (job_embeddings job_desc) = []
      /\ default "" (job_processed_text job_desc) = "") ->
  exists ev,
    evaluate default_config resume job_desc = Some ev
    /\ Scoring.soft_match_score ev = 0%R
    /\ Scoring.relevance_score ev
       = Scoring.round2 (overall_hard_match (hard_match resume job_desc) * 0.4)
    /\ (Scoring.relevance_score ev <= 40)%R
    /\ Scoring.verdict ev = Scoring.LOW.
Proof.
  intros Hempty.
  assert (Embedding.calculate_similarity
            (embedding_of (resume_embeddings resume) (resume_processed_text resume))
            (embedding_of (job_embeddings job_desc) (job_processed_text job_desc))
          = Some 0%R) as Hs.
  { destruct Hempty as [[He Ht] | [He Ht]].
    - rewrite (embedding_of_nothing _ _ He Ht). apply similarity_of_empty_text.
    - rewrite (embedding_of_nothing _ _ He Ht), calculate_similarity_symmetric_aux.
      apply similarity_of_empty_text. }
  unfold Scoring.evaluate_resume. rewrite Hs. cbn [mbind option_bind].
  eexists. split; [reflexivity|].
  cbn [Scoring.soft_match_score Scoring.relevance_score Scoring.verdict].
  pose proof (overall_hard_match_range fuzz_ratio fuzz_partial_ratio resume job_desc)
    as Hhard.
  set (hard := overall_hard_match (hard_match resume job_desc)) in *.
  assert (Scoring.combine default_config hard 0 = hard * 0.4)%R as Hraw.
  { unfold Scoring.combine. simpl. lra. }
  rewrite Hraw, clamp_inside by lra.
  split; [apply round2_0|]. split; [reflexivity|]. split.
  - assert (hard * 0.4 <= 40)%R as H40 by lra.
    apply round2_mono in H40.
    assert (Scoring.round2 40 = 40%R) as Hr.
    { replace 40%R with (IZR 4000 / 100)%R by lra. apply round2_hundredths. }
    lra.
  - apply verdict_of_low. simpl. lra.
Qed.

(** X16: with the default weights and thresholds no evaluation is HIGH
    unless the embedding similarity is at least 58 and the hard score at
    least 37, and none is above LOW unless the similarity is at least 16:
    the hard score alone cannot lift a resume out of LOW.  (Over the reals
    the bounds are 175/3, 37.5 and 50/3; the whole numbers below them
    leave a margin far wider than the rounding of the float arithmetic
    of the code.) *)
Theorem verdict_needs_similarity
        (resume : Resume) (job_desc : Job) (ev : Scoring.Evaluation) :
  evaluate default_config resume job_desc = Some ev ->
  exists soft,
    Embedding.calculate_similarity
      (embedding_of (resume_embeddings resume) (resume_processed_text resume))
      (embedding_of (job_embeddings job_desc) (job_processed_text job_desc)) = Some soft
    /\ (Scoring.verdict ev = Scoring.HIGH ->
        (58 <= soft)%R
        /\ (37 <= overall_hard_match (hard_match resume job_desc))%R)
    /\ (Scoring.verdict ev <> Scoring.LOW -> (16 <= soft)%R).
Proof.
  intros Hev.
  destruct (evaluate_resume_inv _ _ _ _ _ _ _ _ Hev) as (soft & Hs & ->).
  exists soft. split; [exact Hs|].
  cbn [Scoring.verdict].
  pose proof (overall_hard_match_range fuzz_ratio fuzz_partial_ratio resume job_desc)
    as Hhard.
  pose proof (calculate_similarity_range _ _ _ Hs) as Hsoft.
  set (hard := overall_hard_match (hard_match resume job_desc)) in *.
  assert (Scoring.combine default_config hard soft = hard * 0.4 + soft * 0.6)%R as Hraw.
  { unfold Scoring.combine. simpl. lra. }
  rewrite Hraw.
  assert (forall t, (0 < t)%R -> (Scoring.clamp (hard * 0.4 + soft * 0.6) >= t)%R ->
                    (hard * 0.4 + soft * 0.6 >= t)%R) as Hclamp.
  { intros t Ht. rewrite clamp_min_max. unfold Rmin, Rmax.
    destruct (Rle_dec (hard * 0.4 + soft * 0.6) 0);
      destruct (Rle_dec _ 100); lra. }
  split.
  - intros Hhigh. apply verdict_of_high in Hhigh. simpl in Hhigh.
    apply Hclamp in Hhigh; lra.
  - intros Hnot.
    destruct (Rlt_dec (Scoring.clamp (hard * 0.4 + soft * 0.6)) 50) as [Hlt | Hge].
    + exfalso. apply Hnot, verdict_of_low. simpl. lra.
    + apply Rnot_lt_ge, Hclamp in Hge; lra.
Qed.

(** X17: a higher score never has a lower verdict or a lower relevance
    score: when no weight is negative and neither the hard nor the soft
    score goes down, the rounded relevance score and the rank of the
    verdict (LOW, MEDIUM, HIGH) do not go down, whatever the thresholds. *)
Theorem relevance_and_verdict_monotone (cfg : Config) (hard hard' soft soft' : R) :
  (0 <= HARD_MATCH_WEIGHT cfg)%R -> (0 <= SOFT_MATCH_WEIGHT cfg)%R ->
  (hard <= hard')%R -> (soft <= soft')%R ->
  (Scoring.round2 (Scoring.clamp (Scoring.combine cfg hard soft))
   <= Scoring.round2 (Scoring.clamp (Scoring.combine cfg hard' soft')))%R
  /\ (Scoring.verdict_rank (Scoring.verdict_of cfg (Scoring.clamp (Scoring.combine cfg hard soft)))
      <= Scoring.verdict_rank
           (Scoring.verdict_of cfg (Scoring.clamp (Scoring.combine cfg hard' soft'))))%nat.
Proof.
  intros Hwh Hws Hh Hs.
  assert (Scoring.clamp (Scoring.combine cfg hard soft)
          <= Scoring.clamp (Scoring.combine cfg hard' soft'))%R as Hc.
  { apply clamp_mono. unfold Scoring.combine. nra. }
  split; [apply round2_mono, Hc | apply verdict_of_mono, Hc].
Qed.

End EngineRange.

Lemma evaluation_scores_bounded_witness :
  exists ev,
    Scoring.evaluate_resume Rapidfuzz.ratio Rapidfuzz.partial_ratio encode_unit 2
      default_config resume_near_high job_near_high = Some ev
    /\ (0 <= Scoring.hard_match_score ev <= 100)%R
    /\ (-100 <= Scoring.soft_match_score ev <= 100)%R.
Proof.
  destruct (evaluate_near_high Rapidfuzz.ratio Rapidfuzz.partial_ratio encode_unit 2)
    as (ev & Hev & _).
  exists ev. split; [exact Hev|].
  exact (evaluation_scores_bounded Rapidfuzz.ratio Rapidfuzz.partial_ratio encode_unit 2
           default_config resume_near_high job_near_high ev Hev).
Defined.

Lemma evaluation_without_text_is_low_witness :
  exists ev,
    Scoring.evaluate_resume Rapidfuzz.ratio Rapidfuzz.partial_ratio encode_unit 2
      default_config empty_resume job_unit = Some ev
    /\ Scoring.soft_match_score ev = 0%R
    /\ Scoring.relevance_score ev
       = Scoring.round2
           (overall_hard_match
              (Matching.calculate_hard_match Rapidfuzz.ratio Rapidfuzz.partial_ratio
                 empty_resume job_unit) * 0.4)
    /\ (Scoring.relevance_score ev <= 40)%R
    /\ Scoring.verdict ev = Scoring.LOW.
Proof.
  apply (evaluation_without_text_is_low Rapidfuzz.ratio Rapidfuzz.partial_ratio
           encode_unit 2 empty_resume job_unit).
  left. split; reflexivity.
Defined.

Lemma verdict_needs_similarity_witness :
  exists ev soft,
    Scoring.evaluate_resume Rapidfuzz.ratio Rapidfuzz.partial_ratio encode_unit 2
      default_config resume_unit job_unit = Some ev
    /\ Scoring.verdict ev = Scoring.HIGH
    /\ (58 <= soft)%R
    /\ (37 <= overall_hard_match
                  (Matching.calculate_hard_match Rapidfuzz.ratio Rapidfuzz.partial_ratio
                     resume_unit job_unit))%R.
Proof.
  destruct (evaluate_unit Rapidfuzz.ratio Rapidfuzz.partial_ratio encode_unit 2)
    as (ev & Hev & _ & _ & Hhigh).
  destruct (verdict_needs_similarity Rapidfuzz.ratio Rapidfuzz.partial_ratio encode_unit 2
              resume_unit job_unit ev Hev) as (soft & _ & Hneeds & _).
  exists ev, soft. split; [exact Hev|]. split; [exact Hhigh|]. exact (Hneeds Hhigh).
Defined.

Lemma relevance_and_verdict_monotone_witness :
  (Scoring.round2 (Scoring.clamp (Scoring.combine default_config 50 50))
   <= Scoring.round2 (Scoring.clamp (Scoring.combine default_config 60 70)))%R
  /\ (Scoring.verdict_rank
        (Scoring.verdict_of default_config
           (Scoring.clamp (Scoring.combine default_config 50 50)))
      <= Scoring.verdict_rank
           (Scoring.verdict_of default_config
              (Scoring.clamp (Scoring.combine default_config 60 70))))%nat.
Proof.
  apply (relevance_and_verdict_monotone default_config 50 60 50 70); simpl; lra.
Defined.

(** ** The embedding store: what a store leaves behind *)

Section StoreRuns.

Variable encode : string -> list R.
Variable dim : nat.
Variable md5_hex15 : string -> Z.

Local Abbreviation embed := (Embedding.generate_embeddings encode dim).
Local Abbreviation store_resume := (Embedding.store_resume_embedding encode dim md5_hex15).
Local Abbreviation store_job := (Embedding.store_job_embedding encode dim md5_hex15).
Local Abbreviation run_ops := (Embedding.run_ops encode dim md5_hex15).
Local Abbreviation apply_op := (Embedding.apply_op encode dim md5_hex15).

Lemma generate_embeddings_length (text : string) :
  (forall t, length (encode t) = dim) -> length (embed text) = dim.
Proof.
  intros Henc. unfold Embedding.generate_embeddings.
  destruct (String.eqb text ""); [apply repeat_length | apply Henc].
Qed.

(** The state a store of a resume ends in, when the insertion succeeds. *)
Lemma store_resume_state (self : Embedding.Service) (resume_id text : string)
      (metadata : option (gmap string string)) :
  length (embed text) = Embedding.index_d (Embedding.resume_index self) ->
  store_resume self resume_id text metadata
  = (let index' :=
       Embedding.mkIndex (Embedding.index_d (Embedding.resume_index self))
         (Embedding.index_entries (Embedding.resume_index self)
          ++ [(md5_hex15 resume_id, embed text)]) in
     let meta' :=
       <[pretty (md5_hex15 resume_id) :=
           Embedding.mkMeta resume_id (default ∅ metadata)]> (Embedding.resume_meta self) in
     ({| Embedding.resume_index := index';
         Embedding.job_index := Embedding.job_index self;
         Embedding.resume_meta := meta';
         Embedding.job_meta := Embedding.job_meta self;
         Embedding.resume_meta_file := Some meta';
         Embedding.job_meta_file := Embedding.job_meta_file self;
         Embedding.resume_index_file := Some index';
         Embedding.job_index_file := Embedding.job_index_file self |},
      Some (embed text))).
Proof.
  intros Hlen. unfold Embedding.store_resume_embedding.
  rewrite add_or_rebuild_add, (add_with_ids_ok _ _ _ Hlen). reflexivity.
Qed.

Lemma store_job_state (self : Embedding.Service) (job_id text : string)
      (metadata : option (gmap string string)) :
  length (embed text) = Embedding.index_d (Embedding.job_index self) ->
  store_job self job_id text metadata
  = (let index' :=
       Embedding.mkIndex (Embedding.index_d (Embedding.job_index self))
         (Embedding.index_entries (Embedding.job_index self)
          ++ [(md5_hex15 job_id, embed text)]) in
     let meta' :=
       <[pretty (md5_hex15 job_id) :=
           Embedding.mkMeta job_id (default ∅ metadata)]> (Embedding.job_meta self) in
     ({| Embedding.resume_index := Embedding.resume_index self;
         Embedding.job_index := index';
         Embedding.resume_meta := Embedding.resume_meta self;
         Embedding.job_meta := meta';
         Embedding.resume_meta_file := Embedding.resume_meta_file self;
         Embedding.job_meta_file := Some meta';
         Embedding.resume_index_file := Embedding.resume_index_file self;
         Embedding.job_index_file := Some index' |},
      Some (embed text))).
Proof.
  intros Hlen. unfold Embedding.store_job_embedding.
  rewrite add_or_rebuild_add, (add_with_ids_ok _ _ _ Hlen). reflexivity.
Qed.

(** The two sides of the store do not touch each other. *)
Lemma apply_op_resume_side (self : Embedding.Service) (job_id text : string)
      (metadata : option (gmap string string)) :
  Embedding.resume_index (apply_op self (Embedding.StoreJob job_id text metadata))
  = Embedding.resume_index self
  /\ Embedding.resume_meta (apply_op self (Embedding.StoreJob job_id text metadata))
     = Embedding.resume_meta self.
Proof.
  unfold Embedding.apply_op.
  destruct (Nat.eq_dec (length (embed text))
                       (Embedding.index_d (Embedding.job_index self))) as [Hlen | Hlen].
  - rewrite (store_job_state _ _ _ _ Hlen). split; reflexivity.
  - rewrite (store_job_raises _ _ _ _ _ _ _ Hlen). split; reflexivity.
Qed.

Lemma apply_op_job_side (self : Embedding.Service) (resume_id text : string)
      (metadata : option (gmap string string)) :
  Embedding.job_index (apply_op self (Embedding.StoreResume resume_id text metadata))
  = Embedding.job_index self
  /\ Embedding.job_meta (apply_op self (Embedding.StoreResume resume_id text metadata))
     = Embedding.job_meta self.
Proof.
  unfold Embedding.apply_op.
  destruct (Nat.eq_dec (length (embed text))
                       (Embedding.index_d (Embedding.resume_index self))) as [Hlen | Hlen].
  - rewrite (store_resume_state _ _ _ _ Hlen). split; reflexivity.
  - rewrite (store_resume_raises _ _ _ _ _ _ _ Hlen). split; reflexivity.
Qed.

Lemma pretty_digest_ne (id id' : string) :
  md5_hex15 id <> md5_hex15 id' -> pretty (md5_hex15 id) <> pretty (md5_hex15 id').
Proof. intros Hne Heq. apply Hne. exact (pretty_Z_inj _ _ Heq). Qed.

Lemma run_ops_resume_sizes (ops : list Embedding.StoreOp) :
  (forall t, length (encode t) = dim) ->
  forall self,
    Embedding.index_d (Embedding.resume_index self) = dim ->
    NoDup (map md5_hex15 (Embedding.stored_resume_ids ops)) ->
    (forall id, In id (Embedding.stored_resume_ids ops) ->
                Embedding.resume_meta self !! pretty (md5_hex15 id) = None) ->
    Embedding.ntotal (Embedding.resume_index (run_ops self ops))
    = (Embedding.ntotal (Embedding.resume_index self)
       + length (Embedding.stored_resume_ids ops))%nat
    /\ size (Embedding.resume_meta (run_ops self ops))
       = (size (Embedding.resume_meta self) + length (Embedding.stored_resume_ids ops))%nat.
Proof.
  intros Henc. induction ops as [|op ops IH]; intros self Hd Hnd Hnew.
  - simpl. split; lia.
  - change (run_ops self (op :: ops)) with (run_ops (apply_op self op) ops).
    destruct op as [id text md | id text md].
    + change (Embedding.stored_resume_ids (Embedding.StoreResume id text md :: ops))
        with (id :: Embedding.stored_resume_ids ops) in *.
      cbn [map length] in *.
      apply NoDup_cons in Hnd. destruct Hnd as [Hid Hnd].
      assert (length (embed text) = Embedding.index_d (Embedding.resume_index self)) as Hlen
          by (rewrite Hd; apply generate_embeddings_length, Henc).
      unfold Embedding.apply_op. rewrite (store_resume_state _ _ _ _ Hlen).
      cbv zeta. cbn [fst].
      match goal with |- context [run_ops ?s ops] => destruct (IH s) as [Hn Hm] end.
      * exact Hd.
      * exact Hnd.
      * intros id' Hid'. cbn [Embedding.resume_meta].
        rewrite lookup_insert_ne.
        -- apply Hnew. right. exact Hid'.
        -- apply pretty_digest_ne. intros Heq. apply Hid.
           rewrite Heq. apply list_elem_of_In, in_map, Hid'.
      * rewrite Hn, Hm. cbn [Embedding.resume_index Embedding.resume_meta].
        unfold Embedding.ntotal. cbn [Embedding.index_entries].
        rewrite length_app. cbn [length].
        rewrite map_size_insert_None by (apply Hnew; left; reflexivity).
        split; lia.
    + change (Embedding.stored_resume_ids (Embedding.StoreJob id text md :: ops))
        with (Embedding.stored_resume_ids ops) in *.
      destruct (apply_op_resume_side self id text md) as [Hi Hm].
      destruct (IH (apply_op self (Embedding.StoreJob id text md))) as [Hn' Hm'].
      * rewrite Hi. exact Hd.
      * exact Hnd.
      * intros id' Hid'. rewrite Hm. apply Hnew, Hid'.
      * rewrite Hn', Hm', Hi, Hm. split; reflexivity.
Qed.

Lemma run_ops_job_sizes (ops : list Embedding.StoreOp) :
  (forall t, length (encode t) = dim) ->
  forall self,
    Embedding.index_d (Embedding.job_index self) = dim ->
    NoDup (map md5_hex15 (Embedding.stored_job_ids ops)) ->
    (forall id, In id (Embedding.stored_job_ids ops) ->
                Embedding.job_meta self !! pretty (md5_hex15 id) = None) ->
    Embedding.ntotal (Embedding.job_index (run_ops self ops))
    = (Embedding.ntotal (Embedding.job_index self)
       + length (Embedding.stored_job_ids ops))%nat
    /\ size (Embedding.job_meta (run_ops self ops))
       = (size (Embedding.job_meta self) + length (Embedding.stored_job_ids ops))%nat.
Proof.
  intros Henc. induction ops as [|op ops IH]; intros self Hd Hnd Hnew.
  - simpl. split; lia.
  - change (run_ops self (op :: ops)) with (run_ops (apply_op self op) ops).
    destruct op as [id text md | id text md].
    + change (Embedding.stored_job_ids (Embedding.StoreResume id text md :: ops))
        with (Embedding.stored_job_ids ops) in *.
      destruct (apply_op_job_side self id text md) as [Hi Hm].
      destruct (IH (apply_op self (Embedding.StoreResume id text md))) as [Hn' Hm'].
      * rewrite Hi. exact Hd.
      * exact Hnd.
      * intros id' Hid'. rewrite Hm. apply Hnew, Hid'.
      * rewrite Hn', Hm', Hi, Hm. split; reflexivity.
    + change (Embedding.stored_job_ids (Embedding.StoreJob id text md :: ops))
        with (id :: Embedding.stored_job_ids ops) in *.
      cbn [map length] in *.
      apply NoDup_cons in Hnd. destruct Hnd as [Hid Hnd].
      assert (length (embed text) = Embedding.index_d (Embedding.job_index self)) as Hlen
          by (rewrite Hd; apply generate_embeddings_length, Henc).
      unfold Embedding.apply_op. rewrite (store_job_state _ _ _ _ Hlen).
      cbv zeta. cbn [fst].
      match goal with |- context [run_ops ?s ops] => destruct (IH s) as [Hn Hm] end.
      * exact Hd.
      * exact Hnd.
      * intros id' Hid'. cbn [Embedding.job_meta].
        rewrite lookup_insert_ne.
        -- apply Hnew. right. exact Hid'.
        -- apply pretty_digest_ne. intros Heq. apply Hid.
           rewrite Heq. apply list_elem_of_In, in_map, Hid'.
      * rewrite Hn, Hm. cbn [Embedding.job_index Embedding.job_meta].
        unfold Embedding.ntotal. cbn [Embedding.index_entries].
        rewrite length_app. cbn [length].
        rewrite map_size_insert_None by (apply Hnew; left; reflexivity).
        split; lia.
Qed.

(** X19: in a service that starts with no index file and no metadata
    file, and whose encoder gives vectors of its dimension, a run of
    stores under identifiers of pairwise distinct digests keeps each index
    and its metadata dict at one size: both hold one entry for every
    resume stored, and one for every job stored. *)
Theorem distinct_ids_keep_index_and_metadata_aligned (ops : list Embedding.StoreOp) :
  (forall t, length (encode t) = dim) ->
  NoDup (map md5_hex15 (Embedding.stored_resume_ids ops)) ->
  NoDup (map md5_hex15 (Embedding.stored_job_ids ops)) ->
  let self := run_ops (Embedding.fresh dim) ops in
  Embedding.ntotal (Embedding.resume_index self) = length (Embedding.stored_resume_ids ops)
  /\ size (Embedding.resume_meta self) = length (Embedding.stored_resume_ids ops)
  /\ Embedding.ntotal (Embedding.job_index self) = length (Embedding.stored_job_ids ops)
  /\ size (Embedding.job_meta self) = length (Embedding.stored_job_ids ops).
Proof.
  intros Henc Hr Hj. cbv zeta.
  destruct (run_ops_resume_sizes ops Henc (Embedding.fresh dim) eq_refl Hr) as [H1 H2];
    [intros id _; apply lookup_empty|].
  destruct (run_ops_job_sizes ops Henc (Embedding.fresh dim) eq_refl Hj) as [H3 H4];
    [intros id _; apply lookup_empty|].
  rewrite H1, H2, H3, H4.
  change (size (Embedding.resume_meta (Embedding.fresh dim))) with (size (∅ : gmap string Embedding.MetaEntry)).
  change (size (Embedding.job_meta (Embedding.fresh dim))) with (size (∅ : gmap string Embedding.MetaEntry)).
  rewrite map_size_empty. repeat split.
Qed.

(** X20: a resume index of another dimension than the embeddings (an
    index file written with another model) refuses every store: each
    [store_resume_embedding] raises, and no run of stores changes the
    resume index or the resume metadata. *)
Theorem stale_index_refuses_every_store (self : Embedding.Service)
        (ops : list Embedding.StoreOp) :
  (forall t, length (encode t) = dim) ->
  Embedding.index_d (Embedding.resume_index self) <> dim ->
  (forall resume_id text metadata,
      store_resume self resume_id text metadata = (self, None))
  /\ Embedding.resume_index (run_ops self ops) = Embedding.resume_index self
  /\ Embedding.resume_meta (run_ops self ops) = Embedding.resume_meta self.
Proof.
  intros Henc Hd. split.
  - intros resume_id text metadata. apply store_resume_raises.
    rewrite (generate_embeddings_length text Henc). auto.
  - revert self Hd. induction ops as [|op ops IH]; intros self Hd; [split; reflexivity|].
    change (run_ops self (op :: ops)) with (run_ops (apply_op self op) ops).
    destruct op as [id text md | id text md].
    + unfold Embedding.apply_op. rewrite store_resume_raises.
      * cbn [fst]. apply IH, Hd.
      * rewrite (generate_embeddings_length text Henc). auto.
    + destruct (apply_op_resume_side self id text md) as [Hi Hm].
      destruct (IH (apply_op self (Embedding.StoreJob id text md))) as [Hi' Hm'];
        [rewrite Hi; exact Hd|].
      rewrite Hi', Hm', Hi, Hm. split; reflexivity.
Qed.

End StoreRuns.

Lemma distinct_ids_keep_index_and_metadata_aligned_witness :
  let ops := [Embedding.StoreResume "r1" "python developer" None;
              Embedding.StoreJob "j1" "backend engineer" None;
              Embedding.StoreResume "r22" "" None] in
  let self := Embedding.run_ops encode_unit 2 digest_of_length (Embedding.fresh 2) ops in
  Embedding.ntotal (Embedding.resume_index self) = 2%nat
  /\ size (Embedding.resume_meta self) = 2%nat
  /\ Embedding.ntotal (Embedding.job_index self) = 1%nat
  /\ size (Embedding.job_meta self) = 1%nat.
Proof.
  cbv zeta.
  apply (distinct_ids_keep_index_and_metadata_aligned encode_unit 2 digest_of_length
           [Embedding.StoreResume "r1" "python developer" None;
            Embedding.StoreJob "j1" "backend engineer" None;
            Embedding.StoreResume "r22" "" None]).
  - intros t. reflexivity.
  - apply NoDup_cons_2; [|apply NoDup_cons_2; [|apply NoDup_nil_2]].
    + intros H. apply list_elem_of_In in H. destruct H as [H|[]]. discriminate H.
    + intros H. inversion H.
  - apply NoDup_cons_2; [|apply NoDup_nil_2]. intros H. inversion H.
Defined.

Lemma stale_index_refuses_every_store_witness :
  let self := Embedding.load 2 (Some (Embedding.mkIndex 3 [])) None None None in
  Embedding.store_resume_embedding encode_unit 2 digest_of_length self "r1" "python" None
  = (self, None)
  /\ Embedding.resume_index
       (Embedding.run_ops encode_unit 2 digest_of_length self
          [Embedding.StoreResume "r1" "python" None; Embedding.StoreJob "j1" "java" None])
     = Embedding.resume_index self.
Proof.
  cbv zeta.
  destruct (stale_index_refuses_every_store encode_unit 2 digest_of_length
              (Embedding.load 2 (Some (Embedding.mkIndex 3 [])) None None None)
              [Embedding.StoreResume "r1" "python" None; Embedding.StoreJob "j1" "java" None])
    as (Hraise & Hindex & _).
  - intros t. reflexivity.
  - simpl. lia.
  - split; [apply Hraise | exact Hindex].
Defined.

Lemma run_ops_meta_within_index_witness :
  Embedding.meta_within_index (Embedding.fresh 2)
  /\ Embedding.meta_within_index
       (Embedding.run_ops encode_unit 2 digest_of_length (Embedding.fresh 2)
          [Embedding.StoreResume "r1" "python" None; Embedding.StoreResume "r1" "java" None;
           Embedding.StoreJob "j1" "" None]).
Proof.
  assert (Embedding.meta_within_index (Embedding.fresh 2)) as H.
  { split; simpl; rewrite map_size_empty; lia. }
  split; [exact H|].
  exact (run_ops_meta_within_index encode_unit 2 digest_of_length _ _ H).
Defined.

(** ** Sorting by a score, the largest first *)

Section SortDesc.

Context {A : Type}.
Variable key : A -> R.

Local Abbreviation geq := (fun a b : A => (key a >= key b)%R).

Lemma insert_desc_Permutation (x : A) (l : list A) :
  Permutation (Py.insert_desc key x l) (x :: l).
Proof.
  induction l as [|y l IH]; simpl; [reflexivity|].
  destruct (Py.Rgtb (key y) (key x)); [|reflexivity].
  rewrite IH. apply perm_swap.
Qed.

Lemma sort_desc_Permutation (l : list A) : Permutation (Py.sort_desc key l) l.
Proof.
  induction l as [|x l IH]; simpl; [reflexivity|].
  rewrite insert_desc_Permutation, IH. reflexivity.
Qed.

Lemma insert_desc_sorted (x : A) (l : list A) :
  StronglySorted geq l -> StronglySorted geq (Py.insert_desc key x l).
Proof.
  induction 1 as [|y l Hs IH Hall]; simpl.
  - constructor; constructor.
  - destruct (Py.Rgtb (key y) (key x)) eqn:Hgt.
    + apply Rgtb_true in Hgt. constructor; [exact IH|].
      rewrite insert_desc_Permutation. constructor; [lra | exact Hall].
    + apply Rgtb_false in Hgt. constructor; [constructor; assumption|].
      constructor; [lra|].
      eapply Forall_impl; [exact Hall|]. simpl. intros z Hz. lra.
Qed.

Lemma sort_desc_sorted (l : list A) : StronglySorted geq (Py.sort_desc key l).
Proof.
  induction l as [|x l IH]; simpl; [constructor | apply insert_desc_sorted, IH].
Qed.

Lemma insert_desc_filter (v : R) (x : A) (l : list A) :
  List.filter (fun a => Py.Reqb (key a) v) (Py.insert_desc key x l)
  = List.filter (fun a => Py.Reqb (key a) v) (x :: l).
Proof.
  induction l as [|y l IH]; [reflexivity|].
  cbn [Py.insert_desc].
  destruct (Py.Rgtb (key y) (key x)) eqn:Hgt; [|reflexivity].
  apply Rgtb_true in Hgt.
  cbn [List.filter] in *. rewrite IH.
  destruct (Py.Reqb (key y) v) eqn:Hy, (Py.Reqb (key x) v) eqn:Hx; try reflexivity.
  apply Reqb_true in Hy, Hx. lra.
Qed.

Lemma sort_desc_stable (v : R) (l : list A) :
  List.filter (fun a => Py.Reqb (key a) v) (Py.sort_desc key l)
  = List.filter (fun a => Py.Reqb (key a) v) l.
Proof.
  induction l as [|x l IH]; [reflexivity|].
  cbn [Py.sort_desc fold_right]. rewrite insert_desc_filter.
  cbn [List.filter]. fold (Py.sort_desc key l). rewrite IH. reflexivity.
Qed.

End SortDesc.

Lemma StronglySorted_firstn {A : Type} (R : A -> A -> Prop) (n : nat) (l : list A) :
  StronglySorted R l -> StronglySorted R (firstn n l).
Proof.
  intros Hs. revert n. induction Hs as [|x l Hs IH Hall]; intros [|n]; simpl;
    try constructor.
  - apply IH.
  - apply Forall_take, Hall.
Qed.

Lemma StronglySorted_omap {A B : Type} (R : A -> A -> Prop) (S : B -> B -> Prop)
      (f : A -> option B) (l : list A) :
  (forall a b a' b', R a b -> f a = Some a' -> f b = Some b' -> S a' b') ->
  StronglySorted R l -> StronglySorted S (omap f l).
Proof.
  intros Hf. induction 1 as [|x l Hs IH Hall]; simpl; [constructor|].
  destruct (f x) as [x'|] eqn:Hx; [|exact IH].
  constructor; [exact IH|].
  apply Forall_forall. intros b' Hb'.
  apply list_elem_of_omap in Hb'. destruct Hb' as (b & Hb & Hfb).
  rewrite Forall_forall in Hall. exact (Hf x b x' b' (Hall b Hb) Hx Hfb).
Qed.

Lemma In_firstn {A : Type} (n : nat) (x : A) (l : list A) : In x (firstn n l) -> In x l.
Proof.
  intros H. rewrite <- (take_drop n l). apply in_or_app. left. exact H.
Qed.

Lemma length_omap_le {A B : Type} (f : A -> option B) (l : list A) :
  (length (omap f l) <= length l)%nat.
Proof.
  induction l as [|x l IH]; csimpl; [lia|]. destruct (f x); csimpl; lia.
Qed.

(** ** The search for similar resumes *)

Section SimilarFacts.

Variable encode : string -> list R.
Variable dim : nat.
Variable md5_hex15 : string -> Z.

Local Abbreviation embed := (Embedding.generate_embeddings encode dim).
Local Abbreviation store_resume := (Embedding.store_resume_embedding encode dim md5_hex15).
Local Abbreviation find_similar := (Embedding.find_similar_resumes encode dim).

(** The slots of id -1 that fill a search give no result. *)
Lemma omap_similar_slots (meta : gmap string Embedding.MetaEntry)
      (hits : list (R * Z)) (n : nat) :
  omap (Embedding.similar_of meta) (map Some hits ++ repeat None n)
  = omap (fun hit => Embedding.similar_of meta (Some hit)) hits.
Proof.
  rewrite omap_app.
  replace (omap (Embedding.similar_of meta) (repeat None n)) with (@nil Embedding.Similar).
  - rewrite app_nil_r. induction hits as [|h hits IH]; [reflexivity|].
    cbn [map]. csimpl. rewrite IH. reflexivity.
  - induction n as [|n IH]; [reflexivity | exact IH].
Qed.

(** The search as a function of the query vector. *)
Lemma find_similar_results (self : Embedding.Service) (job_embedding : string + list R)
      (top_k : nat) :
  let q := match job_embedding with inl text => embed text | inr vector => vector end in
  find_similar self job_embedding top_k = []
  \/ find_similar self job_embedding top_k
     = omap (fun hit => Embedding.similar_of (Embedding.resume_meta self) (Some hit))
            (firstn top_k
               (Py.sort_desc fst
                  (Embedding.inner_products (Embedding.resume_index self) q))).
Proof.
  cbv zeta. unfold Embedding.find_similar_resumes.
  destruct (size (Embedding.resume_meta self) =? 0)%nat; [left; reflexivity|].
  unfold Embedding.search.
  destruct ((length _ =? _)%nat && (0 <? top_k)%nat); [|left; reflexivity].
  right. cbv zeta. apply omap_similar_slots.
Qed.

(** X22: the results of [find_similar_resumes] are at most [top_k], and
    at most as many as the index has vectors; their similarity scores do
    not increase along the list; and every result comes from an entry of
    the index whose id is not -1: its score is 100 times the inner product
    of the query and the stored vector, and its [resume_id] and metadata
    are the ones the metadata dict holds under the id, if any. *)
Theorem find_similar_resumes_sound (self : Embedding.Service)
        (job_embedding : string + list R) (top_k : nat) :
  let q := match job_embedding with inl text => embed text | inr vector => vector end in
  let results := find_similar self job_embedding top_k in
  (length results <= top_k)%nat
  /\ (length results <= Embedding.ntotal (Embedding.resume_index self))%nat
  /\ StronglySorted (fun a b => (Embedding.similarity_score a
                                 >= Embedding.similarity_score b)%R) results
  /\ (forall r, In r results ->
        exists id v,
          In (id, v) (Embedding.index_entries (Embedding.resume_index self))
          /\ id <> (-1)%Z
          /\ Embedding.similarity_score r = (Matching.dot_aux q v * 100)%R
          /\ Embedding.similar_resume_id r
             = Embedding.meta_record_id <$> Embedding.resume_meta self !! pretty id
          /\ Embedding.similar_metadata r
             = default ∅ (Embedding.meta_metadata
                             <$> Embedding.resume_meta self !! pretty id)).
Proof.
  cbv zeta.
  destruct (find_similar_results self job_embedding top_k) as [-> | ->].
  { split; [simpl; lia|]. split; [simpl; lia|]. split; [constructor|].
    intros r []. }
  set (q := match job_embedding with inl text => embed text | inr vector => vector end).
  set (sorted := Py.sort_desc fst (Embedding.inner_products (Embedding.resume_index self) q)).
  assert (length sorted = Embedding.ntotal (Embedding.resume_index self)) as Hlen.
  { unfold sorted. rewrite (Permutation_length (sort_desc_Permutation fst _)).
    unfold Embedding.inner_products. apply length_map. }
  split; [|split; [|split]].
  - etransitivity; [apply length_omap_le | apply firstn_le_length].
  - etransitivity; [apply length_omap_le|].
    rewrite length_take. lia.
  - apply (StronglySorted_omap (fun a b : R * Z => (fst a >= fst b)%R)).
    + intros [d1 i1] [d2 i2] a' b' Hge Ha Hb. simpl in Hge.
      unfold Embedding.similar_of in Ha, Hb.
      destruct (i1 =? -1)%Z; [discriminate|]. destruct (i2 =? -1)%Z; [discriminate|].
      inversion Ha. inversion Hb. simpl. lra.
    + apply StronglySorted_firstn, sort_desc_sorted.
  - intros r Hr. apply list_elem_of_In, list_elem_of_omap in Hr.
    destruct Hr as ([d id] & Hin & Hsim).
    apply list_elem_of_In in Hin. apply In_firstn in Hin.
    apply (Permutation_in _ (sort_desc_Permutation fst _)) in Hin.
    unfold Embedding.inner_products in Hin. apply in_map_iff in Hin.
    destruct Hin as ([id' v] & Heq & Hentry). simpl in Heq. inversion Heq. subst d id'.
    unfold Embedding.similar_of in Hsim.
    destruct (Z.eqb_spec id (-1)) as [|Hne]; [discriminate|].
    inversion Hsim. exists id, v. repeat split; (assumption || reflexivity).
Qed.

(** X23: a resume that was stored is found: after a store that succeeds,
    under an identifier whose digest is not -1, a search with a query of
    the dimension of the index and a [top_k] that is at least the number
    of vectors of the index returns a result with the identifier and the
    metadata of the resume, scored at 100 times the inner product of the
    query and the embedding of its text. *)
Theorem stored_resume_is_found (self : Embedding.Service) (resume_id text : string)
        (metadata : option (gmap string string)) (q : list R) (top_k : nat) :
  length (embed text) = Embedding.index_d (Embedding.resume_index self) ->
  length q = Embedding.index_d (Embedding.resume_index self) ->
  Embedding._str_to_id md5_hex15 resume_id <> (-1)%Z ->
  (S (Embedding.ntotal (Embedding.resume_index self)) <= top_k)%nat ->
  In {| Embedding.similar_resume_id := Some resume_id;
        Embedding.similarity_score := (Matching.dot_aux q (embed text) * 100)%R;
        Embedding.similar_metadata := default ∅ metadata |}
     (find_similar (fst (store_resume self resume_id text metadata)) (inr q) top_k).
Proof.
  intros Hlen Hq Hid Hk. unfold Embedding._str_to_id in Hid.
  rewrite (store_resume_state _ _ _ _ _ _ _ Hlen). cbv zeta. cbn [fst].
  unfold Embedding.find_similar_resumes.
  cbn [Embedding.resume_meta Embedding.resume_index].
  rewrite map_size_insert.
  assert ((match Embedding.resume_meta self !! pretty (md5_hex15 resume_id) with
           | Some _ => Datatypes.id
           | None => S
           end (size (Embedding.resume_meta self)) =? 0)%nat = false) as ->.
  { apply Nat.eqb_neq.
    destruct (Embedding.resume_meta self !! pretty (md5_hex15 resume_id)) eqn:Hl;
      [|lia].
    unfold Datatypes.id. intros H0. apply map_size_empty_inv in H0.
    rewrite H0, lookup_empty in Hl. discriminate. }
  unfold Embedding.search. cbn [Embedding.index_d].
  rewrite Hq, Nat.eqb_refl.
  assert ((0 <? top_k)%nat = true) as -> by (apply Nat.ltb_lt; lia).
  cbn [andb]. cbv zeta. rewrite omap_similar_slots.
  set (index' := Embedding.mkIndex _ _).
  rewrite firstn_all2.
  2:{ rewrite (Permutation_length (sort_desc_Permutation fst _)).
      unfold Embedding.inner_products, index'. cbn [Embedding.index_entries].
      rewrite length_map, length_app. unfold Embedding.ntotal in Hk. simpl. lia. }
  apply list_elem_of_In, list_elem_of_omap.
  exists (Matching.dot_aux q (embed text), md5_hex15 resume_id). split.
  - apply list_elem_of_In.
    apply (Permutation_in _ (Permutation_sym (sort_desc_Permutation fst _))).
    unfold Embedding.inner_products, index'. cbn [Embedding.index_entries].
    apply in_map_iff. exists (md5_hex15 resume_id, embed text).
    split; [reflexivity|]. apply in_or_app. right. left. reflexivity.
  - unfold Embedding.similar_of.
    destruct (Z.eqb_spec (md5_hex15 resume_id) (-1)) as [|_]; [contradiction|].
    rewrite lookup_insert_eq. reflexivity.
Qed.

End SimilarFacts.

Lemma stored_resume_is_found_witness :
  In {| Embedding.similar_resume_id := Some "r1";
        Embedding.similarity_score :=
          (Matching.dot_aux [3; 4]%R
             (Embedding.generate_embeddings encode_unit 2 "python developer") * 100)%R;
        Embedding.similar_metadata := ∅ |}
     (Embedding.find_similar_resumes encode_unit 2
        (fst (Embedding.store_resume_embedding encode_unit 2 digest_of_length
                (Embedding.fresh 2) "r1" "python developer" None))
        (inr [3; 4]%R) 10).
Proof.
  apply (stored_resume_is_found encode_unit 2 digest_of_length (Embedding.fresh 2)
           "r1" "python developer" None [3; 4]%R 10).
  - reflexivity.
  - reflexivity.
  - vm_compute. discriminate.
  - unfold Embedding.ntotal. simpl. lia.
Defined.

(** ** The batch evaluation *)

Section BatchFacts.

Variable fuzz_ratio : string -> string -> R.
Variable fuzz_partial_ratio : string -> string -> R.
Variable encode : string -> list R.
Variable dim : nat.
Variable cfg : Config.

Local Abbreviation evaluate :=
  (Scoring.evaluate_resume fuzz_ratio fuzz_partial_ratio encode dim cfg).
Local Abbreviation batch_evaluate :=
  (Scoring.batch_evaluate fuzz_ratio fuzz_partial_ratio encode dim cfg).

Lemma batch_evaluate_inv (resumes : list Resume) (job_desc : Job)
      (evaluations : list Scoring.Evaluation) :
  batch_evaluate resumes job_desc = Some evaluations ->
  exists each,
    Forall2 (fun resume ev => evaluate resume job_desc = Some ev) resumes each
    /\ evaluations = Py.sort_desc Scoring.relevance_score each.
Proof.
  unfold Scoring.batch_evaluate.
  destruct (mapM (fun resume => evaluate resume job_desc) resumes) as [each|] eqn:Hm;
    cbn [mbind option_bind]; [|discriminate].
  intros H. inversion H. exists each. split; [|reflexivity].
  apply mapM_Some_1, Hm.
Qed.

(** X24: [batch_evaluate] raises exactly when the evaluation of one of
    the resumes raises; otherwise it returns the evaluations of the
    resumes, each once, rearranged so that the relevance scores do not
    increase along the list. *)
Theorem batch_evaluate_sorted_evaluations (resumes : list Resume) (job_desc : Job) :
  (batch_evaluate resumes job_desc = None
   <-> exists resume, In resume resumes /\ evaluate resume job_desc = None)
  /\ (forall evaluations,
         batch_evaluate resumes job_desc = Some evaluations ->
         exists each,
           Forall2 (fun resume ev => evaluate resume job_desc = Some ev) resumes each
           /\ Permutation evaluations each
           /\ length evaluations = length resumes
           /\ StronglySorted (fun a b => (Scoring.relevance_score a
                                          >= Scoring.relevance_score b)%R) evaluations).
Proof.
  split.
  - unfold Scoring.batch_evaluate.
    destruct (mapM (fun resume => evaluate resume job_desc) resumes) as [each|] eqn:Hm;
      cbn [mbind option_bind].
    + split; [discriminate|]. intros (resume & Hin & Hnone).
      apply mapM_Some_1 in Hm. apply list_elem_of_In in Hin.
      apply list_elem_of_lookup_1 in Hin. destruct Hin as [i Hi].
      destruct (Forall2_lookup_l _ _ _ _ _ Hm Hi) as (ev & _ & Hev). congruence.
    + split; [|reflexivity]. intros _.
      apply mapM_None_1, Exists_exists in Hm. destruct Hm as (resume & Hin & Hnone).
      exists resume. split; [apply list_elem_of_In, Hin | exact Hnone].
  - intros evaluations Hb.
    destruct (batch_evaluate_inv _ _ _ Hb) as (each & Hall & ->).
    exists each. split; [exact Hall|].
    split; [apply sort_desc_Permutation|].
    split; [|apply sort_desc_sorted].
    rewrite (Permutation_length (sort_desc_Permutation _ _)).
    symmetry. exact (Forall2_length _ _ _ Hall).
Qed.

(** X25: the sort of [batch_evaluate] is stable: the evaluations that
    share a relevance score come out in the order of their resumes in the
    input. *)
Theorem batch_evaluate_keeps_order_of_ties
        (resumes : list Resume) (job_desc : Job)
        (evaluations each : list Scoring.Evaluation) (score : R) :
  batch_evaluate resumes job_desc = Some evaluations ->
  Forall2 (fun resume ev => evaluate resume job_desc = Some ev) resumes each ->
  List.filter (fun ev => Py.Reqb (Scoring.relevance_score ev) score) evaluations
  = List.filter (fun ev => Py.Reqb (Scoring.relevance_score ev) score) each.
Proof.
  intros Hb Hall.
  destruct (batch_evaluate_inv _ _ _ Hb) as (each' & Hall' & ->).
  assert (each' = each) as ->.
  { clear Hb. revert each' Hall'.
    induction Hall as [|resume ev resumes each Hev _ IH]; intros each' Hall';
      inversion Hall' as [|? ev' ? each'' Hev' Hrest]; subst; [reflexivity|].
    f_equal; [congruence | apply IH, Hrest]. }
  apply sort_desc_stable.
Qed.

End BatchFacts.

Lemma batch_evaluate_keeps_order_of_ties_witness :
  exists evaluations each,
    Scoring.batch_evaluate Rapidfuzz.ratio Rapidfuzz.partial_ratio encode_unit 2
      default_config [resume_unit; resume_unit] job_unit = Some evaluations
    /\ Forall2 (fun resume ev =>
                  Scoring.evaluate_resume Rapidfuzz.ratio Rapidfuzz.partial_ratio
                    encode_unit 2 default_config resume job_unit = Some ev)
               [resume_unit; resume_unit] each
    /\ List.filter (fun ev => Py.Reqb (Scoring.relevance_score ev) 100) evaluations
       = List.filter (fun ev => Py.Reqb (Scoring.relevance_score ev) 100) each.
Proof.
  destruct (evaluate_unit Rapidfuzz.ratio Rapidfuzz.partial_ratio encode_unit 2)
    as (ev & Hev & _).
  assert (Scoring.batch_evaluate Rapidfuzz.ratio Rapidfuzz.partial_ratio encode_unit 2
            default_config [resume_unit; resume_unit] job_unit
          = Some (Py.sort_desc Scoring.relevance_score [ev; ev])) as Hb.
  { unfold Scoring.batch_evaluate. csimpl. rewrite Hev. reflexivity. }
  assert (Forall2 (fun resume ev =>
                     Scoring.evaluate_resume Rapidfuzz.ratio Rapidfuzz.partial_ratio
                       encode_unit 2 default_config resume job_unit = Some ev)
                  [resume_unit; resume_unit] [ev; ev]) as Hall.
  { repeat constructor; exact Hev. }
  exists (Py.sort_desc Scoring.relevance_score [ev; ev]), [ev; ev].
  split; [exact Hb|]. split; [exact Hall|].
  exact (batch_evaluate_keeps_order_of_ties Rapidfuzz.ratio Rapidfuzz.partial_ratio
           encode_unit 2 default_config [resume_unit; resume_unit] job_unit _ _ 100%R
           Hb Hall).
Defined.

(** ** The parser: [preprocess_text] *)

Lemma list_ascii_of_lower (s : string) :
  list_ascii_of_string (Py.lower s) = map Py.lower_ascii (list_ascii_of_string s).
Proof. induction s as [|c s IH]; simpl; [reflexivity|]. rewrite IH. reflexivity. Qed.

Lemma list_ascii_of_append (s1 s2 : string) :
  list_ascii_of_string (s1 ++ s2)%string
  = list_ascii_of_string s1 ++ list_ascii_of_string s2.
Proof. induction s1 as [|c s1 IH]; simpl; [reflexivity|]. rewrite IH. reflexivity. Qed.

(** What [lower] and the substitution leave of a character is white space,
    a digit or a lowercase letter. *)
Lemma blank_lower_char (c : ascii) :
  (let c' := Py.lower_ascii c in
   let c'' := if Parser.is_alnum c' || Re.is_space c' then c' else " "%char in
   Re.is_space c'' || Parser.is_lower_alnum c'') = true.
Proof. destruct c as [[] [] [] [] [] [] [] []]; reflexivity. Qed.

(** A digit or lowercase letter is no white space, and neither [lower] nor
    the substitution changes it; nor do they change the space. *)
Lemma clean_char_fixed (c : ascii) :
  Parser.is_lower_alnum c = true ->
  Re.is_space c = false /\ Py.lower_ascii c = c
  /\ (if Parser.is_alnum c || Re.is_space c then c else " "%char) = c.
Proof. destruct c as [[] [] [] [] [] [] [] []]; simpl; intros H; (discriminate H || auto). Qed.

(** What is no letter and no digit becomes white space. *)
Lemma blank_other_char (c : ascii) :
  Parser.is_alnum c = false ->
  Re.is_space (let c' := Py.lower_ascii c in
               if Parser.is_alnum c' || Re.is_space c' then c' else " "%char) = true.
Proof. destruct c as [[] [] [] [] [] [] [] []]; simpl; intros H; (discriminate H || auto). Qed.

Lemma split_ws_Forall (P : ascii -> Prop) (s cur : list ascii) :
  Forall P cur -> Forall (fun c => Re.is_space c = false -> P c) s ->
  Forall (fun w => w <> [] /\ Forall P w) (Matching.split_ws cur s).
Proof.
  revert cur. induction s as [|c s IH]; intros cur Hcur Hs; simpl.
  - destruct cur as [|x cur]; [constructor|].
    constructor; [|constructor]. split.
    + intros Heq. apply (f_equal (@length ascii)) in Heq.
      rewrite length_rev in Heq. discriminate.
    + apply Forall_rev, Hcur.
  - inversion Hs as [|? ? Hc Hs']; subst.
    destruct (Re.is_space c) eqn:Hsp.
    + destruct cur as [|x cur]; [apply IH; [constructor | exact Hs']|].
      constructor; [|apply IH; [constructor | exact Hs']]. split.
      * intros Heq. apply (f_equal (@length ascii)) in Heq.
        rewrite length_rev in Heq. discriminate.
      * apply Forall_rev, Hcur.
    + apply IH; [|exact Hs']. constructor; [apply Hc; reflexivity | exact Hcur].
Qed.

Lemma split_ws_word (w cur s : list ascii) :
  Forall (fun c => Re.is_space c = false) w ->
  Matching.split_ws cur (w ++ s) = Matching.split_ws (rev w ++ cur) s.
Proof.
  revert cur. induction w as [|c w IH]; intros cur Hw; [reflexivity|].
  inversion Hw as [|? ? Hc Hw']; subst.
  cbn [app Matching.split_ws]. rewrite Hc, (IH _ Hw').
  cbn [rev]. rewrite <- app_assoc. reflexivity.
Qed.

Lemma clean_word_no_space (w : list ascii) :
  Parser.clean_word w -> Forall (fun c => Re.is_space c = false) w.
Proof.
  intros [_ Hw]. eapply Forall_impl; [exact Hw|].
  intros c Hc. apply (clean_char_fixed c Hc).
Qed.

Lemma split_ws_one (w : list ascii) :
  Parser.clean_word w -> Matching.split_ws [] w = [w].
Proof.
  intros Hw. rewrite <- (app_nil_r w) at 1.
  rewrite (split_ws_word w [] [] (clean_word_no_space w Hw)), app_nil_r.
  destruct Hw as [Hne _]. simpl.
  destruct (rev w) as [|x r] eqn:Hr.
  - exfalso. apply Hne. rewrite <- (rev_involutive w), Hr. reflexivity.
  - rewrite <- Hr, rev_involutive. reflexivity.
Qed.

(** Splitting the words of a line joined by single spaces gives them back. *)
Lemma split_ws_spaced (words : list (list ascii)) :
  Forall Parser.clean_word words -> Matching.split_ws [] (Parser.spaced words) = words.
Proof.
  induction 1 as [|w words Hw Hall IH]; [reflexivity|].
  destruct words as [|w2 words]; [exact (split_ws_one w Hw)|].
  change (Parser.spaced (w :: w2 :: words))
    with (w ++ " "%char :: Parser.spaced (w2 :: words)).
  rewrite (split_ws_word w [] _ (clean_word_no_space w Hw)), app_nil_r.
  cbn [Matching.split_ws].
  change (Re.is_space " ") with true. cbv iota.
  destruct Hw as [Hne _].
  destruct (rev w) as [|x r] eqn:Hr.
  - exfalso. apply Hne. rewrite <- (rev_involutive w), Hr. reflexivity.
  - rewrite <- Hr, rev_involutive, IH. reflexivity.
Qed.

Lemma list_ascii_of_join (words : list (list ascii)) :
  list_ascii_of_string (Py.join " " (map string_of_list_ascii words))
  = Parser.spaced words.
Proof.
  unfold Py.join. induction words as [|w words IH]; [reflexivity|].
  destruct words as [|w2 words].
  - simpl. apply list_ascii_of_string_of_list_ascii.
  - change (String.concat " " (map string_of_list_ascii (w :: w2 :: words)))
      with (string_of_list_ascii w
            ++ " " ++ String.concat " " (map string_of_list_ascii (w2 :: words)))%string.
    rewrite !list_ascii_of_append, list_ascii_of_string_of_list_ascii, IH.
    reflexivity.
Qed.

Lemma spaced_chars (words : list (list ascii)) :
  Forall Parser.clean_word words ->
  Forall (fun c => Parser.is_lower_alnum c = true \/ c = " "%char) (Parser.spaced words).
Proof.
  induction 1 as [|w words [_ Hw] Hall IH]; [constructor|].
  assert (Forall (fun c => Parser.is_lower_alnum c = true \/ c = " "%char) w) as Hw'.
  { eapply Forall_impl; [exact Hw|]. intros c Hc. left. exact Hc. }
  destruct words as [|w2 words]; [exact Hw'|].
  change (Parser.spaced (w :: w2 :: words))
    with (w ++ " "%char :: Parser.spaced (w2 :: words)).
  apply Forall_app. split; [exact Hw'|]. constructor; [right; reflexivity | exact IH].
Qed.

Lemma map_fixed {A : Type} (f : A -> A) (l : list A) :
  Forall (fun x => f x = x) l -> map f l = l.
Proof. induction 1 as [|x l Hx _ IH]; simpl; [reflexivity|]. rewrite Hx, IH. reflexivity. Qed.

(** The words of a text, as [preprocess_text] splits them. *)
Lemma preprocess_words (text : string) :
  Forall Parser.clean_word
    (Matching.split_ws []
       (Parser.blank_punct (list_ascii_of_string (Py.lower text)))).
Proof.
  apply split_ws_Forall; [constructor|].
  rewrite list_ascii_of_lower. unfold Parser.blank_punct. rewrite map_map.
  apply Forall_forall. intros c Hc. apply list_elem_of_In, in_map_iff in Hc.
  destruct Hc as (c0 & <- & _). intros Hsp.
  pose proof (blank_lower_char c0) as H. cbv zeta in H.
  rewrite Hsp in H. exact H.
Qed.

Lemma preprocess_of_words (words : list (list ascii)) :
  Forall Parser.clean_word words ->
  Parser.preprocess_text (Py.join " " (map string_of_list_ascii words))
  = Py.join " " (map string_of_list_ascii words).
Proof.
  intros Hwords. unfold Parser.preprocess_text at 1.
  rewrite list_ascii_of_lower, list_ascii_of_join.
  pose proof (spaced_chars words Hwords) as Hchars.
  rewrite (map_fixed Py.lower_ascii).
  2:{ eapply Forall_impl; [exact Hchars|]. intros c [Hc | ->]; [|reflexivity].
      apply (clean_char_fixed c Hc). }
  unfold Parser.blank_punct. rewrite map_fixed.
  2:{ eapply Forall_impl; [exact Hchars|]. intros c [Hc | ->]; [|reflexivity].
      apply (clean_char_fixed c Hc). }
  rewrite (split_ws_spaced words Hwords). reflexivity.
Qed.

Lemma preprocess_text_idempotent_aux (text : string) :
  Parser.preprocess_text (Parser.preprocess_text text) = Parser.preprocess_text text.
Proof.
  unfold Parser.preprocess_text at 2 3.
  apply preprocess_of_words, preprocess_words.
Qed.

(** X26: [preprocess_text] is idempotent: a text that was preprocessed is
    left as it is by a second pass, and so is every line of words of
    digits and lowercase letters joined by single spaces. *)
Theorem preprocess_text_idempotent (text : string) :
  Parser.preprocess_text (Parser.preprocess_text text) = Parser.preprocess_text text
  /\ (forall words,
         Forall Parser.clean_word words ->
         Parser.preprocess_text (Py.join " " (map string_of_list_ascii words))
         = Py.join " " (map string_of_list_ascii words)).
Proof.
  split; [apply preprocess_text_idempotent_aux | apply preprocess_of_words].
Qed.

Lemma split_ws_spaces (s : list ascii) :
  Forall (fun c => Re.is_space c = true) s -> Matching.split_ws [] s = [].
Proof.
  induction 1 as [|c s Hc _ IH]; [reflexivity|]. simpl. rewrite Hc. exact IH.
Qed.

(** X27: the text [preprocess_text] returns is a sequence of words joined
    by single spaces, each word not empty and made of digits and lowercase
    letters only: no capital, no punctuation, no space at either end and
    no two spaces in a row; a text without a letter or a digit gives the
    empty string. *)
Theorem preprocess_text_shape (text : string) :
  (exists words,
      Parser.preprocess_text text = Py.join " " (map string_of_list_ascii words)
      /\ Forall Parser.clean_word words)
  /\ (Forall (fun c => Parser.is_alnum c = false) (list_ascii_of_string text) ->
      Parser.preprocess_text text = "").
Proof.
  split.
  - eexists. split; [reflexivity | apply preprocess_words].
  - intros Hnone. unfold Parser.preprocess_text.
    rewrite split_ws_spaces; [reflexivity|].
    rewrite list_ascii_of_lower. unfold Parser.blank_punct. rewrite map_map.
    apply Forall_forall. intros c Hc. apply list_elem_of_In, in_map_iff in Hc.
    destruct Hc as (c0 & <- & Hc0).
    rewrite Forall_forall in Hnone.
    apply (blank_other_char c0), Hnone, list_elem_of_In, Hc0.
Qed.

(** ** The parser: skills, certificates and job descriptions *)

Lemma unique_skills_spec (skills : list string) (seen : gset string) :
  NoDup (map Py.lower (Parser.unique_skills seen skills))
  /\ (forall s, In s (Parser.unique_skills seen skills) ->
                In s skills /\ s <> "" /\ Py.lower s ∉ seen).
Proof.
  revert seen. induction skills as [|skill rest IH]; intros seen; simpl.
  - split; [constructor | intros s []].
  - destruct (String.eqb_spec skill "") as [Hempty | Hne]; simpl.
    { destruct (IH seen) as [Hnd Hin]. split; [exact Hnd|].
      intros s Hs. destruct (Hin s Hs) as (H1 & H2 & H3). auto. }
    destruct (bool_decide (Py.lower skill ∈ seen)) eqn:Hseen; simpl.
    + destruct (IH seen) as [Hnd Hin]. split; [exact Hnd|].
      intros s Hs. destruct (Hin s Hs) as (H1 & H2 & H3). auto.
    + apply bool_decide_eq_false in Hseen.
      destruct (IH ({[Py.lower skill]} ∪ seen)) as [Hnd Hin]. split.
      * apply NoDup_cons_2; [|exact Hnd].
        intros Hl. apply list_elem_of_In, in_map_iff in Hl.
        destruct Hl as (s & Heq & Hs). destruct (Hin s Hs) as (_ & _ & Hnot).
        apply Hnot. rewrite Heq. apply elem_of_union. left.
        apply elem_of_singleton. reflexivity.
      * intros s [<- | Hs]; [auto|].
        destruct (Hin s Hs) as (H1 & H2 & H3).
        split; [right; exact H1|]. split; [exact H2|].
        intros Hseen'. apply H3, elem_of_union. right. exact Hseen'.
Qed.

(** Skills that are not empty, new, and distinct whatever the case are
    all kept, in their order. *)
Lemma unique_skills_app (l1 l2 : list string) (seen : gset string) :
  Forall (fun s => s <> "") l1 ->
  NoDup (map Py.lower l1) ->
  (forall s, In s l1 -> Py.lower s ∉ seen) ->
  exists seen', Parser.unique_skills seen (l1 ++ l2) = l1 ++ Parser.unique_skills seen' l2.
Proof.
  revert seen. induction l1 as [|s l1 IH]; intros seen Hne Hnd Hnew.
  - exists seen. reflexivity.
  - inversion Hne as [|? ? Hs Hne']; subst.
    cbn [map] in Hnd. apply NoDup_cons in Hnd. destruct Hnd as [Hs1 Hnd].
    cbn [app Parser.unique_skills].
    destruct (String.eqb_spec s "") as [|_]; [contradiction|].
    rewrite (bool_decide_eq_false_2 _ (Hnew s (or_introl eq_refl))). cbn [negb andb].
    destruct (IH ({[Py.lower s]} ∪ seen) Hne' Hnd) as [seen' Heq].
    + intros s' Hs'. apply not_elem_of_union. split; [|apply Hnew; right; exact Hs'].
      apply not_elem_of_singleton. intros Heq. apply Hs1. rewrite <- Heq.
      apply list_elem_of_In, in_map, Hs'.
    + exists seen'. rewrite Heq. reflexivity.
Qed.

Lemma tech_skills_distinct : NoDup (map Py.lower Parser.tech_skills).
Proof. apply (bool_decide_unpack _). vm_compute. reflexivity. Qed.

Lemma tech_skills_not_empty : Forall (fun s => s <> "") Parser.tech_skills.
Proof. unfold Parser.tech_skills. repeat constructor; discriminate. Qed.

Lemma NoDup_map_filter {A B : Type} (f : A -> B) (p : A -> bool) (l : list A) :
  NoDup (map f l) -> NoDup (map f (List.filter p l)).
Proof.
  induction l as [|x l IH]; simpl; [auto|].
  intros Hnd. apply NoDup_cons in Hnd. destruct Hnd as [Hx Hnd].
  destruct (p x); [|apply IH, Hnd].
  simpl. apply NoDup_cons_2; [|apply IH, Hnd].
  intros Hin. apply Hx. apply list_elem_of_In, in_map_iff in Hin.
  destruct Hin as (y & Hy & Hyl). apply List.filter_In in Hyl.
  rewrite <- Hy. apply list_elem_of_In, in_map. tauto.
Qed.

(** X28: the skills [extract_skills] returns are not empty and pairwise
    distinct even when the case of letters is ignored; and every skill of
    its list of technologies whose lowercase form occurs in the lowercased
    text is returned, in the spelling of the list. *)
Theorem extract_skills_distinct_and_complete (text : string) :
  NoDup (map Py.lower (Parser.extract_skills text))
  /\ Forall (fun s => s <> "") (Parser.extract_skills text)
  /\ (forall skill,
         In skill Parser.tech_skills ->
         Py.str_in (Py.lower skill) (Py.lower text) = true ->
         In skill (Parser.extract_skills text)).
Proof.
  unfold Parser.extract_skills. cbv zeta.
  set (found := List.filter (fun skill => Py.str_in (Py.lower skill) (Py.lower text))
                            Parser.tech_skills).
  set (additional := match Parser.section_text Parser.skill_titles text with
                     | Some skills_text => Parser.listed_items 60 skills_text
                     | None => []
                     end).
  destruct (unique_skills_spec (found ++ additional) ∅) as [Hnd Hin].
  split; [exact Hnd|]. split.
  - apply List.Forall_forall. intros s Hs. apply (Hin s Hs).
  - intros skill Htech Hocc.
    destruct (unique_skills_app found additional ∅) as [seen' ->].
    + apply List.Forall_forall. intros s Hs. apply List.filter_In in Hs.
      pose proof tech_skills_not_empty as Hne. rewrite List.Forall_forall in Hne.
      apply Hne. tauto.
    + apply NoDup_map_filter, tech_skills_distinct.
    + intros s _. apply not_elem_of_empty.
    + apply in_or_app. left. apply List.filter_In. auto.
Qed.

Lemma pattern_min_experience_captures : Re.captures_digits Parser.pattern_min_experience.
Proof. unfold Parser.pattern_min_experience. captures. Qed.

(** X29: a job description parsed by [parse_job_description] has a
    minimum of experience that is not negative and no maximum, so that
    [calculate_hard_match] takes the minimum plus 10 for it; it has no
    education requirement and no required certificate, so that, whatever
    the resume, the education score and the certification score are 100
    and [overall_hard_match] is half the skills score plus three tenths of
    the experience score plus 20; its processed text is the preprocessed
    text, which a second [preprocess_text] leaves as it is. *)
Theorem parsed_job_scores_education_in_full
        (fuzz_ratio fuzz_partial_ratio : string -> string -> R)
        (text : string) (resume : Resume) :
  let job_desc := Parser.parse_job_description text in
  let scores := Matching.calculate_hard_match fuzz_ratio fuzz_partial_ratio resume job_desc in
  (0 <= default 0 (job_min_experience job_desc))%Z
  /\ job_max_experience job_desc = None
  /\ education_match scores = 100%R
  /\ certification_match scores = 100%R
  /\ overall_hard_match scores
     = (skills_match scores * 0.5 + experience_match scores * 0.3 + 20)%R
  /\ job_processed_text job_desc = Some (Parser.preprocess_text text)
  /\ Parser.preprocess_text (default "" (job_processed_text job_desc))
     = default "" (job_processed_text job_desc).
Proof.
  cbv zeta. split; [|split; [reflexivity|]].
  - unfold Parser.parse_job_description. cbn [job_min_experience from_option].
    unfold Datatypes.id.
    destruct (Re.search Parser.pattern_min_experience text) as [cap|] eqn:Hs; [|lia].
    apply int_of_digits_nonneg.
    apply (search_from_digits _ _ cap pattern_min_experience_captures) in Hs.
    destruct cap; simpl; [exact Hs | constructor].
  - assert (education_match
              (Matching.calculate_hard_match fuzz_ratio fuzz_partial_ratio resume
                 (Parser.parse_job_description text)) = 100%R) as Hedu by reflexivity.
    assert (certification_match
              (Matching.calculate_hard_match fuzz_ratio fuzz_partial_ratio resume
                 (Parser.parse_job_description text)) = 100%R) as Hcert by reflexivity.
    split; [exact Hedu|]. split; [exact Hcert|]. split.
    + rewrite overall_hard_match_unfold, Hedu, Hcert. lra.
    + split; [reflexivity|]. apply preprocess_text_idempotent_aux.
Qed.

Lemma split_on_pieces (sep : ascii -> bool) (s cur : list ascii) :
  Forall (fun c => sep c = false) cur ->
  Forall (Forall (fun c => sep c = false)) (Parser.split_on sep cur s).
Proof.
  revert cur. induction s as [|c s IH]; intros cur Hcur; simpl.
  - constructor; [apply Forall_rev, Hcur | constructor].
  - destruct (sep c) eqn:Hc.
    + constructor; [apply Forall_rev, Hcur | apply IH; constructor].
    + apply IH. constructor; assumption.
Qed.

Lemma lstrip_suffix (s : list ascii) : exists pre, s = pre ++ Parser.lstrip s.
Proof.
  induction s as [|c s [pre IH]]; [exists []; reflexivity|].
  simpl. destruct (Re.is_space c).
  - exists (c :: pre). simpl. rewrite <- IH. reflexivity.
  - exists []. reflexivity.
Qed.

Lemma lstrip_head (s rest : list ascii) (c : ascii) :
  Parser.lstrip s = c :: rest -> Re.is_space c = false.
Proof.
  induction s as [|x s IH]; simpl; [discriminate|].
  destruct (Re.is_space x) eqn:Hx; [exact IH|].
  intros H. inversion H. subst. exact Hx.
Qed.

Lemma lstrip_Forall (P : ascii -> Prop) (s : list ascii) :
  Forall P s -> Forall P (Parser.lstrip s).
Proof.
  intros H. destruct (lstrip_suffix s) as [pre Heq]. rewrite Heq in H.
  apply Forall_app in H. tauto.
Qed.

Lemma strip_Forall (P : ascii -> Prop) (s : list ascii) :
  Forall P s -> Forall P (Parser.strip s).
Proof.
  intros H. unfold Parser.strip.
  apply Forall_rev, lstrip_Forall, Forall_rev, lstrip_Forall, H.
Qed.

(** A stripped string neither starts nor ends with white space. *)
Lemma strip_ends (s : list ascii) :
  (forall c rest, Parser.strip s = c :: rest -> Re.is_space c = false)
  /\ (forall c front, Parser.strip s = front ++ [c] -> Re.is_space c = false).
Proof.
  unfold Parser.strip.
  set (t := Parser.lstrip s).
  destruct (lstrip_suffix (rev t)) as [pre Hpre].
  set (u := Parser.lstrip (rev t)) in *.
  split.
  - intros c rest Hrev.
    assert (t = rev u ++ rev pre) as Ht.
    { rewrite <- (rev_involutive t), Hpre, rev_app_distr. reflexivity. }
    rewrite Hrev in Ht. simpl in Ht.
    exact (lstrip_head s _ c Ht).
  - intros c front Hrev.
    assert (u = c :: rev front) as Hu.
    { rewrite <- (rev_involutive u), Hrev, rev_app_distr. reflexivity. }
    exact (lstrip_head (rev t) _ c Hu).
Qed.

Lemma listed_items_spec (limit : nat) (block : list ascii) (item : string) :
  In item (Parser.listed_items limit block) ->
  item <> ""
  /\ (String.length item < limit)%nat
  /\ Forall (fun c => Parser.is_item_sep c = false) (list_ascii_of_string item)
  /\ (forall c rest, list_ascii_of_string item = c :: rest -> Re.is_space c = false)
  /\ (forall c front, list_ascii_of_string item = front ++ [c] -> Re.is_space c = false).
Proof.
  intros Hin. unfold Parser.listed_items in Hin.
  apply list_elem_of_In, list_elem_of_omap in Hin.
  destruct Hin as (piece & Hpiece & Hitem).
  unfold Parser.listed_item in Hitem. cbv zeta in Hitem.
  destruct (negb (length (Parser.strip piece) =? 0)%nat
            && (length (Parser.strip piece) <? limit)%nat) eqn:Hkeep; [|discriminate].
  inversion Hitem. subst item. clear Hitem.
  apply andb_true_iff in Hkeep. destruct Hkeep as [Hne Hlt].
  apply negb_true_iff, Nat.eqb_neq in Hne. apply Nat.ltb_lt in Hlt.
  rewrite list_ascii_of_string_of_list_ascii.
  split; [|split; [|split]].
  - intros Heq. apply Hne.
    rewrite <- (list_ascii_of_string_of_list_ascii (Parser.strip piece)), Heq.
    reflexivity.
  - rewrite <- (list_ascii_of_string_of_list_ascii (Parser.strip piece)) in Hlt.
    clear -Hlt. revert Hlt.
    generalize (string_of_list_ascii (Parser.strip piece)). intros str.
    replace (length (list_ascii_of_string str)) with (String.length str); [auto|].
    induction str as [|c str IH]; simpl; [reflexivity | rewrite IH; reflexivity].
  - apply strip_Forall.
    pose proof (split_on_pieces Parser.is_item_sep block [] (Forall_nil_2 _)) as Hall.
    rewrite Forall_forall in Hall. apply Hall, Hpiece.
  - apply strip_ends.
Qed.

(** X30: every certificate [extract_certifications] returns is a piece
    of the section between two separators, stripped: it is not empty, it
    is shorter than 100 characters, it holds no comma, semicolon, bar or
    newline, and it neither starts nor ends with white space. *)
Theorem certifications_are_stripped_items (text : string) :
  Forall (fun cert =>
            cert <> ""
            /\ (String.length cert < 100)%nat
            /\ Forall (fun c => Parser.is_item_sep c = false) (list_ascii_of_string cert)
            /\ (forall c rest, list_ascii_of_string cert = c :: rest ->
                               Re.is_space c = false)
            /\ (forall c front, list_ascii_of_string cert = front ++ [c] ->
                                Re.is_space c = false))
         (Parser.extract_certifications text).
Proof.
  apply List.Forall_forall. intros cert Hin.
  unfold Parser.extract_certifications in Hin.
  destruct (Parser.section_text Parser.certification_titles text) as [cert_text|];
    [|destruct Hin].
  exact (listed_items_spec 100 cert_text cert Hin).
Qed.

Lemma preprocess_text_idempotent_witness :
  Forall Parser.clean_word [["p"; "y"]; ["3"]]%char
  /\ Parser.preprocess_text
       (Py.join " " (map string_of_list_ascii [["p"; "y"]; ["3"]]%char))
     = Py.join " " (map string_of_list_ascii [["p"; "y"]; ["3"]]%char).
Proof.
  assert (Forall Parser.clean_word [["p"; "y"]; ["3"]]%char) as H.
  { repeat constructor; discriminate. }
  split; [exact H|].
  exact (proj2 (preprocess_text_idempotent "") [["p"; "y"]; ["3"]]%char H).
Defined.

Lemma preprocess_text_shape_witness :
  Forall (fun c => Parser.is_alnum c = false) (list_ascii_of_string "?! -- ...")
  /\ Parser.preprocess_text "?! -- ..." = "".
Proof.
  assert (Forall (fun c => Parser.is_alnum c = false) (list_ascii_of_string "?! -- ..."))
    as H by (simpl; repeat constructor).
  split; [exact H|].
  exact (proj2 (preprocess_text_shape "?! -- ...") H).
Defined.

Lemma extract_skills_distinct_and_complete_witness :
  In "Node.js" Parser.tech_skills
  /\ Py.str_in (Py.lower "Node.js") (Py.lower "Built APIs with NODE.JS and express") = true
  /\ In "Node.js" (Parser.extract_skills "Built APIs with NODE.JS and express").
Proof.
  assert (In "Node.js" Parser.tech_skills) as Htech.
  { unfold Parser.tech_skills. simpl. tauto. }
  assert (Py.str_in (Py.lower "Node.js")
                    (Py.lower "Built APIs with NODE.JS and express") = true) as Hocc
      by (vm_compute; reflexivity).
  split; [exact Htech|]. split; [exact Hocc|].
  exact (proj2 (proj2 (extract_skills_distinct_and_complete
                         "Built APIs with NODE.JS and express"))
               "Node.js" Htech Hocc).
Defined.

(** ** The embedding store: the metadata and the index describe the same records *)

Section StoreInvariant.

Variable encode : string -> list R.
Variable dim : nat.
Variable md5_hex15 : string -> Z.

Local Abbreviation matches := (Embedding.meta_matches_index md5_hex15).
Local Abbreviation apply_op := (Embedding.apply_op encode dim md5_hex15).
Local Abbreviation run_ops := (Embedding.run_ops encode dim md5_hex15).
Local Abbreviation find_similar := (Embedding.find_similar_resumes encode dim).

(** The two updates of a store, a vector appended under the digest and the
    entry written under its decimal, keep a dict and an index matched, also
    when the digest is already in use. *)
Lemma insert_keeps_match (index : Embedding.FaissIndex)
      (meta : gmap string Embedding.MetaEntry) (record_id : string) (vec : list R)
      (metadata : gmap string string) :
  matches index meta ->
  matches
    (Embedding.mkIndex (Embedding.index_d index)
       (Embedding.index_entries index ++ [(md5_hex15 record_id, vec)]))
    (<[pretty (md5_hex15 record_id) := Embedding.mkMeta record_id metadata]> meta).
Proof.
  intros [Hindex Hmeta]. unfold Embedding.meta_matches_index, Embedding._str_to_id in *.
  cbn [Embedding.index_entries]. split.
  - intros id v Hin. apply in_app_or in Hin.
    destruct (decide (id = md5_hex15 record_id)) as [-> | Hne].
    + exists (Embedding.mkMeta record_id metadata).
      split; [apply lookup_insert_eq | reflexivity].
    + destruct Hin as [Hin | [Heq | []]]; [|congruence].
      destruct (Hindex id v Hin) as (entry & Hlook & Hid).
      exists entry. split; [|exact Hid].
      rewrite lookup_insert_ne; [exact Hlook|].
      intros Heq. apply Hne. symmetry. exact (pretty_Z_inj _ _ Heq).
  - intros key entry Hlook.
    destruct (decide (pretty (md5_hex15 record_id) = key)) as [<- | Hne].
    + rewrite lookup_insert_eq in Hlook. inversion Hlook. cbn [Embedding.meta_record_id].
      split; [reflexivity|]. exists vec. apply in_or_app. right. left. reflexivity.
    + rewrite lookup_insert_ne in Hlook by exact Hne.
      destruct (Hmeta key entry Hlook) as (Hkey & v & Hin).
      split; [exact Hkey|]. exists v. apply in_or_app. left. exact Hin.
Qed.

Lemma apply_op_keeps_match (self : Embedding.Service) (op : Embedding.StoreOp) :
  matches (Embedding.resume_index self) (Embedding.resume_meta self) ->
  matches (Embedding.job_index self) (Embedding.job_meta self) ->
  matches (Embedding.resume_index (apply_op self op))
          (Embedding.resume_meta (apply_op self op))
  /\ matches (Embedding.job_index (apply_op self op))
             (Embedding.job_meta (apply_op self op)).
Proof.
  intros Hr Hj.
  destruct op as [id text md | id text md];
    unfold Embedding.apply_op, Embedding.store_resume_embedding,
      Embedding.store_job_embedding, Embedding.add_or_rebuild,
      Embedding._rebuild_index_from_meta, Embedding.add_with_ids, Embedding._str_to_id;
    destruct (length _ =? _)%nat; cbn [fst]; try (split; assumption);
    cbn [Embedding.resume_index Embedding.resume_meta Embedding.job_index
         Embedding.job_meta];
    split; try assumption; apply insert_keeps_match; assumption.
Qed.

Lemma run_ops_keeps_match (ops : list Embedding.StoreOp) :
  forall self : Embedding.Service,
    matches (Embedding.resume_index self) (Embedding.resume_meta self) ->
    matches (Embedding.job_index self) (Embedding.job_meta self) ->
    matches (Embedding.resume_index (run_ops self ops))
            (Embedding.resume_meta (run_ops self ops))
    /\ matches (Embedding.job_index (run_ops self ops))
               (Embedding.job_meta (run_ops self ops)).
Proof.
  induction ops as [|op ops IH]; intros self Hr Hj; [split; assumption|].
  unfold Embedding.run_ops. cbn [fold_left].
  destruct (apply_op_keeps_match self op Hr Hj) as [Hr' Hj'].
  exact (IH _ Hr' Hj').
Qed.

(** X18: the stores keep the metadata dict and the index of each side
    matched: when every vector of the index has a metadata entry under the
    decimal of its id, with an identifier of that digest, and every entry
    has a vector, this still holds after any run of stores, whether they
    succeed or raise and whether or not identifiers or digests repeat (the
    invariant speaks of the dict and the index the service holds, which a
    store updates before it writes a file).  A search on such a service
    therefore never returns a result without [resume_id]: every result
    carries the identifier and the metadata of an entry of the dict that
    has a vector in the index. *)
Theorem stored_metadata_matches_index (self : Embedding.Service)
        (ops : list Embedding.StoreOp) :
  Embedding.meta_matches_index md5_hex15
    (Embedding.resume_index self) (Embedding.resume_meta self) ->
  Embedding.meta_matches_index md5_hex15
    (Embedding.job_index self) (Embedding.job_meta self) ->
  let self' := Embedding.run_ops encode dim md5_hex15 self ops in
  Embedding.meta_matches_index md5_hex15
    (Embedding.resume_index self') (Embedding.resume_meta self')
  /\ Embedding.meta_matches_index md5_hex15
       (Embedding.job_index self') (Embedding.job_meta self')
  /\ (forall (job_embedding : string + list R) (top_k : nat) (r : Embedding.Similar),
         In r (Embedding.find_similar_resumes encode dim self' job_embedding top_k) ->
         exists entry vec,
           Embedding.resume_meta self'
             !! pretty (Embedding._str_to_id md5_hex15 (Embedding.meta_record_id entry))
           = Some entry
           /\ In (Embedding._str_to_id md5_hex15 (Embedding.meta_record_id entry), vec)
                 (Embedding.index_entries (Embedding.resume_index self'))
           /\ Embedding.similar_resume_id r = Some (Embedding.meta_record_id entry)
           /\ Embedding.similar_metadata r = Embedding.meta_metadata entry).
Proof.
  intros Hr Hj. cbv zeta.
  destruct (run_ops_keeps_match ops self Hr Hj) as [Hr' Hj'].
  split; [exact Hr'|]. split; [exact Hj'|].
  set (self' := run_ops self ops) in *.
  intros job_embedding top_k r Hin.
  destruct (find_similar_results encode dim self' job_embedding top_k) as [Hnil | Hres];
    cbv zeta in *.
  { rewrite Hnil in Hin. destruct Hin. }
  rewrite Hres in Hin.
  apply list_elem_of_In, list_elem_of_omap in Hin.
  destruct Hin as ([d id] & Hhit & Hsim).
  apply list_elem_of_In in Hhit. apply In_firstn in Hhit.
  apply (Permutation_in _ (sort_desc_Permutation fst _)) in Hhit.
  unfold Embedding.inner_products in Hhit. apply in_map_iff in Hhit.
  destruct Hhit as ([id' v] & Heq & Hentry). simpl in Heq. inversion Heq. subst d id'.
  unfold Embedding.similar_of in Hsim.
  destruct (id =? -1)%Z; [discriminate|].
  destruct (proj1 Hr' id v Hentry) as (entry & Hlook & Hid).
  rewrite Hlook in Hsim. inversion Hsim. cbn.
  exists entry, v. rewrite Hid. repeat split; assumption.
Qed.

End StoreInvariant.

Lemma stored_metadata_matches_index_witness :
  let ops := [Embedding.StoreResume "r1" "python developer" None;
              Embedding.StoreResume "r2" "java developer" None;
              Embedding.StoreJob "j1" "backend engineer" None;
              Embedding.StoreResume "r1" "" None] in
  let self := Embedding.run_ops encode_unit 2 digest_of_length (Embedding.fresh 2) ops in
  Embedding.meta_matches_index digest_of_length
    (Embedding.resume_index (Embedding.fresh 2)) (Embedding.resume_meta (Embedding.fresh 2))
  /\ Embedding.ntotal (Embedding.resume_index self) = 3%nat
  /\ size (Embedding.resume_meta self) = 1%nat
  /\ Embedding.meta_matches_index digest_of_length
       (Embedding.resume_index self) (Embedding.resume_meta self)
  /\ Embedding.meta_matches_index digest_of_length
       (Embedding.job_index self) (Embedding.job_meta self).
Proof.
  cbv zeta.
  assert (forall index meta,
             index = Embedding.mkIndex 2 [] -> meta = ∅ ->
             Embedding.meta_matches_index digest_of_length index meta) as Hfresh.
  { intros index meta -> ->. split.
    - intros id vec [].
    - intros key entry Hlook. rewrite lookup_empty in Hlook. discriminate. }
  split; [apply Hfresh; reflexivity|].
  split; [reflexivity|]. split; [vm_compute; reflexivity|].
  destruct (stored_metadata_matches_index encode_unit 2 digest_of_length (Embedding.fresh 2)
              [Embedding.StoreResume "r1" "python developer" None;
               Embedding.StoreResume "r2" "java developer" None;
               Embedding.StoreJob "j1" "backend engineer" None;
               Embedding.StoreResume "r1" "" None])
    as (Hr & Hj & _).
  - apply Hfresh; reflexivity.
  - apply Hfresh; reflexivity.
  - split; [exact Hr | exact Hj].
Defined.
